(** * Seanime plugin runtime: AppContext handles, the UI registry and the DOM proxy

    A shallow embedding of
      - [AppContextImpl] (package [plugin]): the optional host handles and
        [SetModulesPartial];
      - [UI.Register] (package [plugin_ui]): the goroutine that fans client
        events out to the event listeners of a plugin's [Context];
      - [DOMManager] (internal/plugin/ui/dom.go): the request/reply and the
        observer protocol.

    Go pointers that may be nil and [mo.Option] values are [option]s; a
    [result.Map] is the list of its entries, keyed by their string ids, with
    [Set] replacing the entry of the same key; closures are first-order
    data (one constructor per closure of the source, holding the variables
    it captures) with an interpreter next to them; the state of a
    [Context] is threaded through a small state monad. *)

From Stdlib Require Import List String Ascii Bool Arith Lia ZArith DecimalString DecimalNat.
Import ListNotations.
Local Open Scope string_scope.
Local Open Scope list_scope.

Set Implicit Arguments.
Set Warnings "-register-all".

(* ================================================================== *)
(** * AppContext (package [plugin]) *)
(* ================================================================== *)

Module AppCtx.

(** The host modules are opaque to the plugin runtime: a module is known by
    the address of the object only. *)
Inductive Handle : Type := mkHandle (addr : nat).

(** [AppContextModules]: every field is a pointer, an interface, a slice or
    a func, so every field may be nil ([None]). *)
Record AppContextModules : Type := mkModules {
  Database : option Handle;
  AnimeLibraryPaths : option (list string);
  AnilistPlatform : option Handle;
  PlaybackManager : option Handle;
  MediaPlayerRepository : option Handle;
  WSEventManager : option Handle;
  OnRefreshAnilistAnimeCollection : option Handle;
  OnRefreshAnilistMangaCollection : option Handle
}.

(** [AppContextImpl]: the [mo.Option] fields (the logger is left out, no
    handle depends on it). *)
Record AppContextImpl : Type := mkAppContext {
  animeLibraryPaths : option (list string);
  wsEventManager : option Handle;
  database : option Handle;
  playbackManager : option Handle;
  mediaplayerRepo : option Handle;
  anilistPlatform : option Handle;
  onRefreshAnilistAnimeCollection : option Handle;
  onRefreshAnilistMangaCollection : option Handle
}.

(** [NewAppContext]: four handles are set to [mo.None] explicitly, the
    others keep the zero value of [mo.Option], which is absent as well. *)
Definition NewAppContext : AppContextImpl :=
  {| animeLibraryPaths := None;
     wsEventManager := None;
     database := None;
     playbackManager := None;
     mediaplayerRepo := None;
     anilistPlatform := None;
     onRefreshAnilistAnimeCollection := None;
     onRefreshAnilistMangaCollection := None |}.

(** [if m != nil { field = mo.Some(m) }] *)
Definition setIfNotNil {A : Type} (m : option A) (field : option A) : option A :=
  match m with
  | Some x => Some x
  | None => field
  end.

(** [SetModulesPartial], assignment by assignment.  The source has no
    assignment to [mediaplayerRepo]. *)
Definition SetModulesPartial (a : AppContextImpl) (modules : AppContextModules)
  : AppContextImpl :=
  {| database := setIfNotNil (Database modules) (database a);
     animeLibraryPaths := setIfNotNil (AnimeLibraryPaths modules) (animeLibraryPaths a);
     playbackManager := setIfNotNil (PlaybackManager modules) (playbackManager a);
     anilistPlatform := setIfNotNil (AnilistPlatform modules) (anilistPlatform a);
     onRefreshAnilistAnimeCollection :=
       setIfNotNil (OnRefreshAnilistAnimeCollection modules)
                   (onRefreshAnilistAnimeCollection a);
     onRefreshAnilistMangaCollection :=
       setIfNotNil (OnRefreshAnilistMangaCollection modules)
                   (onRefreshAnilistMangaCollection a);
     wsEventManager := setIfNotNil (WSEventManager modules) (wsEventManager a);
     mediaplayerRepo := mediaplayerRepo a |}.

(** The getters of the [AppContext] interface. *)
Definition GetDatabase (a : AppContextImpl) := database a.
Definition GetPlaybackManager (a : AppContextImpl) := playbackManager a.
Definition GetMediaPlayerRepository (a : AppContextImpl) := mediaplayerRepo a.
Definition GetAnilistPlatform (a : AppContextImpl) := anilistPlatform a.
Definition GetWSEventManager (a : AppContextImpl) := wsEventManager a.

(** Modules that carry a media player repository and nothing else. *)
Definition onlyMediaPlayerRepository (r : Handle) : AppContextModules :=
  {| Database := None; AnimeLibraryPaths := None; AnilistPlatform := None;
     PlaybackManager := None; MediaPlayerRepository := Some r;
     WSEventManager := None; OnRefreshAnilistAnimeCollection := None;
     OnRefreshAnilistMangaCollection := None |}.

End AppCtx.

(* ================================================================== *)
(** * The plugin UI (package [plugin_ui]) *)
(* ================================================================== *)

Module PluginUI.

(** ** Constants of the UI registry *)

Definition MAX_EXCEPTIONS : nat := 5.
Definition MAX_EFFECT_CALLBACKS : nat := 100.
(** [1 * time.Second], in nanoseconds as [time.Duration] counts. *)
Definition RESET_EFFECT_CALLBACK_INTERVAL : Z := 1 * 1000000000.
Definition MAX_CONCURRENT_FETCH_REQUESTS : nat := 10.

(** ** Values on the wire *)

(** A Go [interface{}] decoded from JSON. *)
Inductive Value : Type :=
| VNil
| VBool (b : bool)
| VNumber (n : Z)
| VString (s : string)
| VArray (items : list Value)
| VObject (fields : list (string * Value)).

Fixpoint lookupField (k : string) (fields : list (string * Value)) : option Value :=
  match fields with
  | [] => None
  | (k', v) :: rest => if String.eqb k k' then Some v else lookupField k rest
  end.

(** The type assertions of dom.go: [v.(string)], [v.(bool)],
    [v.(map[string]interface{})], [v.([]interface{})]. *)
Definition assertString (v : Value) : option string :=
  match v with VString s => Some s | _ => None end.
Definition assertBool (v : Value) : option bool :=
  match v with VBool b => Some b | _ => None end.
Definition assertMap (v : Value) : option (list (string * Value)) :=
  match v with VObject f => Some f | _ => None end.
Definition assertSlice (v : Value) : option (list Value) :=
  match v with VArray l => Some l | _ => None end.

(** ** Event types *)

(** Modelled from the spec: [ClientEventType] and its constants are
    declared in events.go, which is not among the sources.  It is a string
    type with one constant per event; the constants that [UI.Register] and
    dom.go name are constructors, every other type is
    [ClientOtherEvent]. *)
Inductive ClientEventType : Type :=
| ClientRenderTraysEvent
| ClientRenderTrayEvent
| ClientDOMReadyEvent
| ClientDOMQueryResultEvent
| ClientDOMQueryOneResultEvent
| ClientDOMObserveResultEvent
| ClientDOMCreateResultEvent
| ClientDOMElementUpdatedEvent
| ClientOtherEvent (name : string).

Definition ClientEventType_eq_dec (a b : ClientEventType) : {a = b} + {a <> b}.
Proof. decide equality. apply string_dec. Defined.

Definition eventTypeEqb (a b : ClientEventType) : bool :=
  if ClientEventType_eq_dec a b then true else false.

(** Modelled from the spec: [ClientPluginEvent] is declared in events.go;
    section 3 gives the envelope as type, extension id (empty or a plugin
    id) and payload, and these are the fields [UI.Register] and dom.go
    read. *)
Record ClientPluginEvent : Type := mkClientEvent {
  ExtensionID : string;
  Type_ : ClientEventType;
  Payload : Value
}.

(** The envelope types of the WebSocket manager. *)
Inductive WSEventType : Type :=
| PluginEvent
| OtherWSEvent (name : string).

(** The payload of an envelope: a JSON object, given as the
    [ClientPluginEvent] that [NewClientPluginEvent] builds from it, or any
    other value (the assertion [event.Payload.(map[string]interface{})]
    fails on those). *)
Inductive WSPayload : Type :=
| PayloadObject (clientEvent : ClientPluginEvent)
| PayloadOther (v : Value).

Record WSEvent : Type := mkWSEvent {
  wsType : WSEventType;
  wsPayload : WSPayload
}.

(** Events sent to the client: [SendEventToClient(type, payload)], one
    constructor per server event type that dom.go sends, with the fields
    dom.go gives its payload; [ServerPluginErrorEvent] is the plugin-level
    error event of section 4.A of the spec. *)
Inductive ServerEvent : Type :=
| ServerDOMQueryEvent (Selector RequestID : string)
| ServerDOMQueryOneEvent (Selector RequestID : string)
| ServerDOMObserveEvent (Selector ObserverID : string)
| ServerDOMStopObserveEvent (ObserverID : string)
| ServerDOMCreateEvent (TagName RequestID : string)
| ServerDOMManipulateEvent (ElementID Action : string)
    (Params : list (string * Value)) (RequestID : string)
| ServerPluginErrorEvent.

(** ** Payloads of the client's replies *)

(** Modelled from the spec: the payload structs are declared in events.go;
    their fields are the ones dom.go reads. *)
Record ClientDOMQueryResultEventPayload : Type := {
  qr_RequestID : string;
  qr_Elements : list Value
}.
Record ClientDOMQueryOneResultEventPayload : Type := {
  qo_RequestID : string;
  qo_Element : Value
}.
Record ClientDOMObserveResultEventPayload : Type := {
  ob_ObserverID : string;
  ob_Elements : list Value
}.
Record ClientDOMCreateResultEventPayload : Type := {
  cr_RequestID : string;
  cr_Element : Value
}.
Record ClientDOMElementUpdatedEventPayload : Type := {
  eu_ElementID : string;
  eu_Action : string;
  eu_Result : Value;
  eu_RequestID : string
}.

(** Decoding of one struct field, as [encoding/json] does it: an absent or
    null field leaves the zero value, a value of another kind is an
    error. *)
Definition fieldString (k : string) (o : list (string * Value)) : option string :=
  match lookupField k o with
  | None | Some VNil => Some ""
  | Some (VString s) => Some s
  | Some _ => None
  end.
Definition fieldSlice (k : string) (o : list (string * Value)) : option (list Value) :=
  match lookupField k o with
  | None | Some VNil => Some []
  | Some (VArray l) => Some l
  | Some _ => None
  end.
Definition fieldAny (k : string) (o : list (string * Value)) : Value :=
  match lookupField k o with
  | None => VNil
  | Some v => v
  end.

(** A payload that is not an object does not decode into a struct; null
    decodes into the zero struct. *)
Definition payloadFields (v : Value) : option (list (string * Value)) :=
  match v with
  | VObject f => Some f
  | VNil => Some []
  | _ => None
  end.

(** Modelled from the spec: [ParsePayloadAs] and the payload structs are
    declared in events.go, which is not among the sources.  A reply is a
    JSON object whose fields carry the names the client gives them
    ([requestId], [elements], [element], [observerId], [elementId],
    [action], [result]); a payload that does not fit the struct is a
    protocol mismatch and is not parsed. *)
Definition ParsePayloadAsQueryResult (e : ClientPluginEvent)
  : option ClientDOMQueryResultEventPayload :=
  match payloadFields (Payload e) with
  | Some o =>
      match fieldString "requestId" o, fieldSlice "elements" o with
      | Some r, Some l => Some {| qr_RequestID := r; qr_Elements := l |}
      | _, _ => None
      end
  | None => None
  end.

(** Modelled from the spec: [ParsePayloadAs] into
    [ClientDOMQueryOneResultEventPayload], as above. *)
Definition ParsePayloadAsQueryOneResult (e : ClientPluginEvent)
  : option ClientDOMQueryOneResultEventPayload :=
  match payloadFields (Payload e) with
  | Some o =>
      match fieldString "requestId" o with
      | Some r => Some {| qo_RequestID := r; qo_Element := fieldAny "element" o |}
      | None => None
      end
  | None => None
  end.

(** Modelled from the spec: [ParsePayloadAs] into
    [ClientDOMObserveResultEventPayload], as above. *)
Definition ParsePayloadAsObserveResult (e : ClientPluginEvent)
  : option ClientDOMObserveResultEventPayload :=
  match payloadFields (Payload e) with
  | Some o =>
      match fieldString "observerId" o, fieldSlice "elements" o with
      | Some r, Some l => Some {| ob_ObserverID := r; ob_Elements := l |}
      | _, _ => None
      end
  | None => None
  end.

(** Modelled from the spec: [ParsePayloadAs] into
    [ClientDOMCreateResultEventPayload], as above. *)
Definition ParsePayloadAsCreateResult (e : ClientPluginEvent)
  : option ClientDOMCreateResultEventPayload :=
  match payloadFields (Payload e) with
  | Some o =>
      match fieldString "requestId" o with
      | Some r => Some {| cr_RequestID := r; cr_Element := fieldAny "element" o |}
      | None => None
      end
  | None => None
  end.

(** Modelled from the spec: [ParsePayloadAs] into
    [ClientDOMElementUpdatedEventPayload], as above. *)
Definition ParsePayloadAsElementUpdated (e : ClientPluginEvent)
  : option ClientDOMElementUpdatedEventPayload :=
  match payloadFields (Payload e) with
  | Some o =>
      match fieldString "elementId" o, fieldString "action" o,
            fieldString "requestId" o with
      | Some el, Some a, Some r =>
          Some {| eu_ElementID := el; eu_Action := a;
                  eu_Result := fieldAny "result" o; eu_RequestID := r |}
      | _, _, _ => None
      end
  | None => None
  end.

(** ** Script values *)

(** A [goja.Callable]: a function of the script, known by reference. *)
Inductive Callable : Type := mkCallable (fn : nat).

(** The two resolving functions that [vm.NewPromise] returns next to the
    promise. *)
Inductive Settle : Type :=
| Resolve (promise : nat)
| Reject (promise : nat).

(** The object built by [createDOMElementObject]: its [id] and the element
    data its other properties and methods are made from. *)
Record DOMElementObject : Type := {
  elemId : string;
  elemData : list (string * Value)
}.

(** [elementId, _ := elemData["id"].(string)] *)
Definition createDOMElementObject (elemData : list (string * Value)) : DOMElementObject :=
  {| elemId := match lookupField "id" elemData with
               | Some (VString s) => s
               | _ => ""
               end;
     elemData := elemData |}.

(** The loop that builds [elemObjs]: elements that are not maps are
    skipped. *)
Definition elementObjects (elements : list Value) : list DOMElementObject :=
  flat_map (fun elem => match assertMap elem with
                        | Some elemData => [createDOMElementObject elemData]
                        | None => []
                        end) elements.

(** A [goja.Value] handed to the script. *)
Inductive JSValue : Type :=
| JSUndefined
| JSNull
| JSToValue (v : Value)
| JSElement (e : DOMElementObject)
| JSArray (es : list DOMElementObject).

(** ** Manipulations that wait for a reply *)

(** One constructor per function of dom.go that sends a
    [ServerDOMManipulateEvent] with a request id and listens for
    [ClientDOMElementUpdatedEvent]: [GetText] for [getElementText],
    [HasClass] for [hasElementClass], and so on; [GetStyles] is
    [getElementStyles]. *)
Inductive Getter : Type :=
| GetText
| GetAttribute
| HasClass
| GetStyle
| GetComputedStyle
| GetParent
| GetChildren
| GetAttributes
| HasAttribute
| GetProperty
| GetStyles
| HasStyle
| GetDataAttribute
| GetDataAttributes
| HasDataAttribute.

(** The [Action] each of them sends and compares the reply's with
    ([getElementStyles] uses "getStyle" as [getElementStyle] does). *)
Definition getterAction (g : Getter) : string :=
  match g with
  | GetText => "getText"
  | GetAttribute => "getAttribute"
  | HasClass => "hasClass"
  | GetStyle => "getStyle"
  | GetComputedStyle => "getComputedStyle"
  | GetParent => "getParent"
  | GetChildren => "getChildren"
  | GetAttributes => "getAttributes"
  | HasAttribute => "hasAttribute"
  | GetProperty => "getProperty"
  | GetStyles => "getStyle"
  | HasStyle => "hasStyle"
  | GetDataAttribute => "getDataAttribute"
  | GetDataAttributes => "getDataAttributes"
  | HasDataAttribute => "hasDataAttribute"
  end.

(** The [Params] of the request; [arg] is the second argument of the
    function where it has one. *)
Definition getterParams (g : Getter) (arg : string) : list (string * Value) :=
  match g with
  | GetText | GetParent | GetChildren
  | GetAttributes | GetStyles | GetDataAttributes => []
  | GetAttribute | HasAttribute | GetProperty =>
      [("name", VString arg)]
  | HasClass => [("className", VString arg)]
  | GetStyle | GetComputedStyle | HasStyle =>
      [("property", VString arg)]
  | GetDataAttribute | HasDataAttribute => [("key", VString arg)]
  end.

(** What the scheduled task passes to [resolve], from [payload.Result]. *)
Definition resolveString (result : Value) : JSValue :=
  match assertString result with
  | Some v => JSToValue (VString v)
  | None => JSToValue (VString "")
  end.

Definition resolveBool (result : Value) : JSValue :=
  match assertBool result with
  | Some v => JSToValue (VBool v)
  | None => JSToValue (VBool false)
  end.

Definition isNil (v : Value) : bool :=
  match v with VNil => true | _ => false end.

Definition getterResult (g : Getter) (result : Value) : JSValue :=
  match g with
  | GetText | GetStyle | GetComputedStyle =>
      resolveString result
  | HasClass | HasAttribute | HasStyle
  | HasDataAttribute =>
      resolveBool result
  | GetAttribute | GetAttributes | GetProperty
  | GetStyles | GetDataAttribute | GetDataAttributes =>
      JSToValue result
  | GetParent =>
      if negb (isNil result) then
        match assertMap result with
        | Some parentData => JSElement (createDOMElementObject parentData)
        | None => JSNull
        end
      else JSNull
  | GetChildren =>
      if negb (isNil result) then
        match assertSlice result with
        | Some childrenData => JSArray (elementObjects childrenData)
        | None => JSArray []
        end
      else JSArray []
  end.

(** The condition under which the listener of a getter takes a reply:
    action, element id and request id are those of the request
    ([getElementStyles] asks for a non-nil result as well). *)
Definition getterAccepts (g : Getter) (elementId requestId : string)
           (payload : ClientDOMElementUpdatedEventPayload) : bool :=
  String.eqb (eu_Action payload) (getterAction g)
  && String.eqb (eu_ElementID payload) elementId
  && String.eqb (eu_RequestID payload) requestId
  && match g with
     | GetStyles => negb (isNil (eu_Result payload))
     | _ => true
     end.

(** ** Closures *)

(** The functions given to [listener.SetCallback], each with the variables
    it captures. *)
Inductive ListenerCallback : Type :=
| OnReadyCallback (callback : Callable) (listenerID : string)
| QueryCallback (requestId : string) (resolve : Settle) (listenerID : string)
| QueryOneCallback (requestId : string) (resolve : Settle) (listenerID : string)
| ObserveCallback (observerID : string)
| ObserveDOMReadyCallback (selector observerID : string) (listenerID : string)
| CreateElementCallback (requestId : string) (resolve : Settle) (listenerID : string)
| ElementUpdatedCallback (g : Getter) (elementId requestId : string)
    (resolve : Settle) (listenerID : string).

(** The functions given to [scheduler.ScheduleAsync]. *)
Inductive Task : Type :=
| ResolveTask (resolve : Settle) (v : JSValue)
| OnReadyTask (callback : Callable) (payload : Value)
| ObserverTask (observerID : string) (elements : list Value).

(** [cancelFn] and [refetchFn] of [jsObserve]. *)
Inductive CancelFn : Type :=
| mkCancelFn (listenerID domReadyListenerID observerID : string).
Inductive RefetchFn : Type :=
| mkRefetchFn (selector observerID : string).

Definition cancelObserverID (c : CancelFn) : string :=
  match c with mkCancelFn _ _ observerID => observerID end.

(** Calls into the VM, by call site. *)
Inductive VMCall : Type :=
| CallSettle (f : Settle) (v : JSValue)
| CallOnReady (callback : Callable) (payload : Value)
| CallObserver (observerID : string) (callback : Callable)
    (elemObjs : list DOMElementObject).

(** ** The context *)

(** Modelled from the spec: [EventListener] is declared in context.go,
    which is not among the sources.  Section 3: an id, a filter list of
    event types and a delivery channel; the channel is treated apart (see
    [Chan] below), the callback is what [SetCallback] stores. *)
Record EventListener : Type := mkEventListener {
  ID : string;
  ListenTo : list ClientEventType;
  callback : option ListenerCallback
}.

Record ElementObserver : Type := mkElementObserver {
  obsID : string;
  obsSelector : string;
  obsCallback : Callable
}.

(** Modelled from the spec: [Context] is declared in context.go.  Here is
    the part of it (with its [DOMManager], its scheduler and the VM) that
    the DOM proxy and the event fan-out read and write, and the counters
    of section 4.A. *)
Record Context : Type := mkContext {
  uuids : nat;                           (* calls of uuid.New so far *)
  promises : nat;                        (* calls of vm.NewPromise so far *)
  eventListeners : list EventListener;   (* ctx.eventListeners *)
  elementObservers : list ElementObserver; (* d.elementObservers *)
  scheduled : list Task;                 (* the scheduler's queue, oldest first *)
  outbox : list ServerEvent;             (* events sent to the client, oldest first *)
  vmCalls : list VMCall;                 (* calls made into the VM, oldest first *)
  onCleanup : list CancelFn;             (* functions given to registerOnCleanup *)
  wsSubscriber : option nat;             (* ctx.wsSubscriber *)
  trayRenders : nat;                     (* calls of trayManager.renderTray *)
  exceptionCount : nat;
  effectCalls : nat;
  interrupted : bool
}.

Definition NewContext : Context :=
  {| uuids := 0; promises := 0; eventListeners := []; elementObservers := [];
     scheduled := []; outbox := []; vmCalls := []; onCleanup := [];
     wsSubscriber := None; trayRenders := 0; exceptionCount := 0;
     effectCalls := 0; interrupted := false |}.

(** Field updates. *)
Definition setUuids (n : nat) (c : Context) : Context :=
  mkContext n (promises c) (eventListeners c) (elementObservers c) (scheduled c)
            (outbox c) (vmCalls c) (onCleanup c) (wsSubscriber c) (trayRenders c)
            (exceptionCount c) (effectCalls c) (interrupted c).
Definition setPromises (n : nat) (c : Context) : Context :=
  mkContext (uuids c) n (eventListeners c) (elementObservers c) (scheduled c)
            (outbox c) (vmCalls c) (onCleanup c) (wsSubscriber c) (trayRenders c)
            (exceptionCount c) (effectCalls c) (interrupted c).
Definition setEventListeners (l : list EventListener) (c : Context) : Context :=
  mkContext (uuids c) (promises c) l (elementObservers c) (scheduled c)
            (outbox c) (vmCalls c) (onCleanup c) (wsSubscriber c) (trayRenders c)
            (exceptionCount c) (effectCalls c) (interrupted c).
Definition setElementObservers (l : list ElementObserver) (c : Context) : Context :=
  mkContext (uuids c) (promises c) (eventListeners c) l (scheduled c)
            (outbox c) (vmCalls c) (onCleanup c) (wsSubscriber c) (trayRenders c)
            (exceptionCount c) (effectCalls c) (interrupted c).
Definition setScheduled (l : list Task) (c : Context) : Context :=
  mkContext (uuids c) (promises c) (eventListeners c) (elementObservers c) l
            (outbox c) (vmCalls c) (onCleanup c) (wsSubscriber c) (trayRenders c)
            (exceptionCount c) (effectCalls c) (interrupted c).
Definition setOutbox (l : list ServerEvent) (c : Context) : Context :=
  mkContext (uuids c) (promises c) (eventListeners c) (elementObservers c)
            (scheduled c) l (vmCalls c) (onCleanup c) (wsSubscriber c)
            (trayRenders c) (exceptionCount c) (effectCalls c) (interrupted c).
Definition setVmCalls (l : list VMCall) (c : Context) : Context :=
  mkContext (uuids c) (promises c) (eventListeners c) (elementObservers c)
            (scheduled c) (outbox c) l (onCleanup c) (wsSubscriber c)
            (trayRenders c) (exceptionCount c) (effectCalls c) (interrupted c).
Definition setOnCleanup (l : list CancelFn) (c : Context) : Context :=
  mkContext (uuids c) (promises c) (eventListeners c) (elementObservers c)
            (scheduled c) (outbox c) (vmCalls c) l (wsSubscriber c)
            (trayRenders c) (exceptionCount c) (effectCalls c) (interrupted c).
Definition setWsSubscriber (w : option nat) (c : Context) : Context :=
  mkContext (uuids c) (promises c) (eventListeners c) (elementObservers c)
            (scheduled c) (outbox c) (vmCalls c) (onCleanup c) w
            (trayRenders c) (exceptionCount c) (effectCalls c) (interrupted c).
Definition setTrayRenders (n : nat) (c : Context) : Context :=
  mkContext (uuids c) (promises c) (eventListeners c) (elementObservers c)
            (scheduled c) (outbox c) (vmCalls c) (onCleanup c) (wsSubscriber c)
            n (exceptionCount c) (effectCalls c) (interrupted c).
Definition setExceptionCount (n : nat) (c : Context) : Context :=
  mkContext (uuids c) (promises c) (eventListeners c) (elementObservers c)
            (scheduled c) (outbox c) (vmCalls c) (onCleanup c) (wsSubscriber c)
            (trayRenders c) n (effectCalls c) (interrupted c).
Definition setEffectCalls (n : nat) (c : Context) : Context :=
  mkContext (uuids c) (promises c) (eventListeners c) (elementObservers c)
            (scheduled c) (outbox c) (vmCalls c) (onCleanup c) (wsSubscriber c)
            (trayRenders c) (exceptionCount c) n (interrupted c).
Definition setInterrupted (b : bool) (c : Context) : Context :=
  mkContext (uuids c) (promises c) (eventListeners c) (elementObservers c)
            (scheduled c) (outbox c) (vmCalls c) (onCleanup c) (wsSubscriber c)
            (trayRenders c) (exceptionCount c) (effectCalls c) b.

(** ** A state monad over the context *)

Definition M (A : Type) : Type := Context -> A * Context.

Definition ret {A : Type} (a : A) : M A := fun c => (a, c).
Definition bind {A B : Type} (m : M A) (k : A -> M B) : M B :=
  fun c => let (a, c') := m c in k a c'.
Definition exec {A : Type} (m : M A) (c : Context) : Context := snd (m c).
Definition modify (f : Context -> Context) : M unit := fun c => (tt, f c).
Definition gets {A : Type} (f : Context -> A) : M A := fun c => (f c, c).

Declare Scope ctx_scope.
Delimit Scope ctx_scope with ctx.
Notation "x <- m ;; k" := (bind m (fun x => k))
  (at level 61, m at next level, right associativity) : ctx_scope.
Notation "m ;; k" := (bind m (fun _ => k))
  (at level 61, right associativity) : ctx_scope.
Local Open Scope ctx_scope.

(** ** [result.Map] *)

Section ResultMap.
Variable V : Type.
Variable key : V -> string.

Definition mapDelete (k : string) (m : list V) : list V :=
  filter (fun v => negb (String.eqb (key v) k)) m.

Definition mapSet (v : V) (m : list V) : list V :=
  mapDelete (key v) m ++ [v].

Definition mapGet (k : string) (m : list V) : option V :=
  find (fun v => String.eqb (key v) k) m.
End ResultMap.

(** ** Services of the context *)

(** [uuid.New().String()]: every call gives a string no earlier call gave;
    the n-th call gives the decimal numeral of n. *)
Definition uuidString (n : nat) : string :=
  NilEmpty.string_of_uint (Nat.to_uint n).

Definition uuidNew : M string :=
  fun c => (uuidString (uuids c), setUuids (S (uuids c)) c).

(** [vm.NewPromise()]: the promise with its resolve and reject functions. *)
Definition NewPromise : M (nat * Settle * Settle) :=
  fun c => ((promises c, Resolve (promises c), Reject (promises c)),
            setPromises (S (promises c)) c).

(** [ctx.SendEventToClient] *)
Definition SendEventToClient (e : ServerEvent) : M unit :=
  modify (fun c => setOutbox (outbox c ++ [e]) c).

(** Modelled from the spec: the scheduler ([goja_util.Scheduler]) is not
    among the sources.  Section 3: the queue is an ordered sequence of
    tasks, run one at a time in the order they were enqueued. *)
Definition ScheduleAsync (t : Task) : M unit :=
  modify (fun c => setScheduled (scheduled c ++ [t]) c).

(** Modelled from the spec: [RegisterEventListener], [SetCallback] and
    [UnregisterEventListener] are in context.go, which is not among the
    sources.  Section 3: a listener is an id, a filter list of event types
    and a delivery channel, created on registration and destroyed on
    unregistration; the id is a fresh uuid as every id of dom.go is. *)
Definition RegisterEventListener (events : list ClientEventType) : M string :=
  id <- uuidNew ;;
  modify (fun c =>
    setEventListeners
      (mapSet ID {| ID := id; ListenTo := events; callback := None |}
              (eventListeners c)) c) ;;
  ret id.

(** Modelled from the spec: [SetCallback] stores the function that the
    listener runs on the events it is sent. *)
Definition SetCallback (listenerID : string) (cb : ListenerCallback) : M unit :=
  modify (fun c =>
    setEventListeners
      (map (fun l => if String.eqb (ID l) listenerID
                     then {| ID := ID l; ListenTo := ListenTo l; callback := Some cb |}
                     else l)
           (eventListeners c)) c).

(** Modelled from the spec: [UnregisterEventListener] destroys the
    listener of that id. *)
Definition UnregisterEventListener (listenerID : string) : M unit :=
  modify (fun c => setEventListeners (mapDelete ID listenerID (eventListeners c)) c).

(** Modelled from the spec: [registerOnCleanup] is in context.go.  The
    functions registered are kept until the context is cleaned up at
    unload. *)
Definition registerOnCleanup (f : CancelFn) : M unit :=
  modify (fun c => setOnCleanup (onCleanup c ++ [f]) c).

(** Modelled from the spec: [handleException] is in context.go.
    Section 4.A: each unrecovered exception increments a per-plugin
    counter; exceeding [MAX_EXCEPTIONS] transitions the VM to Interrupted
    and emits a plugin-level error event. *)
Definition handleException : M unit :=
  modify (fun c => setExceptionCount (S (exceptionCount c)) c) ;;
  n <- gets exceptionCount ;;
  if Nat.ltb MAX_EXCEPTIONS n then
    modify (setInterrupted true) ;;
    SendEventToClient ServerPluginErrorEvent
  else ret tt.

(** A call into the VM. *)
Definition vmCall (call : VMCall) : M unit :=
  modify (fun c => setVmCalls (vmCalls c ++ [call]) c).

(** ** DOMManager: the callbacks of the listeners *)

(** The body of each function given to [SetCallback], run on one event. *)
Definition runListenerCallback (cb : ListenerCallback) (event : ClientPluginEvent)
  : M unit :=
  match cb with
  | OnReadyCallback callback listenerID =>
      ScheduleAsync (OnReadyTask callback (Payload event)) ;;
      UnregisterEventListener listenerID
  | QueryCallback requestId resolve listenerID =>
      match ParsePayloadAsQueryResult event with
      | Some payload =>
          if String.eqb (qr_RequestID payload) requestId then
            ScheduleAsync
              (ResolveTask resolve (JSArray (elementObjects (qr_Elements payload)))) ;;
            UnregisterEventListener listenerID
          else ret tt
      | None => ret tt
      end
  | QueryOneCallback requestId resolve listenerID =>
      match ParsePayloadAsQueryOneResult event with
      | Some payload =>
          if String.eqb (qo_RequestID payload) requestId then
            ScheduleAsync
              (ResolveTask resolve
                 (if negb (isNil (qo_Element payload)) then
                    match assertMap (qo_Element payload) with
                    | Some elemData => JSElement (createDOMElementObject elemData)
                    | None => JSNull
                    end
                  else JSNull)) ;;
            UnregisterEventListener listenerID
          else ret tt
      | None => ret tt
      end
  | ObserveCallback observerID =>
      match ParsePayloadAsObserveResult event with
      | Some payload =>
          if String.eqb (ob_ObserverID payload) observerID then
            ScheduleAsync (ObserverTask observerID (ob_Elements payload))
          else ret tt
      | None => ret tt
      end
  | ObserveDOMReadyCallback selector observerID listenerID =>
      SendEventToClient (ServerDOMObserveEvent selector observerID) ;;
      UnregisterEventListener listenerID
  | CreateElementCallback requestId resolve listenerID =>
      match ParsePayloadAsCreateResult event with
      | Some payload =>
          if String.eqb (cr_RequestID payload) requestId then
            match assertMap (cr_Element payload) with
            | Some elemData =>
                ScheduleAsync
                  (ResolveTask resolve (JSElement (createDOMElementObject elemData)))
            | None => ret tt
            end ;;
            UnregisterEventListener listenerID
          else ret tt
      | None => ret tt
      end
  | ElementUpdatedCallback g elementId requestId resolve listenerID =>
      match ParsePayloadAsElementUpdated event with
      | Some payload =>
          if getterAccepts g elementId requestId payload then
            ScheduleAsync (ResolveTask resolve (getterResult g (eu_Result payload))) ;;
            UnregisterEventListener listenerID
          else ret tt
      | None => ret tt
      end
  end.

(** ** DOMManager: the functions bound to the script *)

Definition jsOnReady (callback : Callable) : M unit :=
  listener <- RegisterEventListener [ClientDOMReadyEvent] ;;
  SetCallback listener (OnReadyCallback callback listener).

Definition jsQuery (selector : string) : M nat :=
  prr <- NewPromise ;;
  let '(promise, resolve, _) := prr in
  requestId <- uuidNew ;;
  listener <- RegisterEventListener [ClientDOMQueryResultEvent] ;;
  SetCallback listener (QueryCallback requestId resolve listener) ;;
  SendEventToClient (ServerDOMQueryEvent selector requestId) ;;
  ret promise.

Definition jsQueryOne (selector : string) : M nat :=
  prr <- NewPromise ;;
  let '(promise, resolve, _) := prr in
  requestId <- uuidNew ;;
  listener <- RegisterEventListener [ClientDOMQueryOneResultEvent] ;;
  SetCallback listener (QueryOneCallback requestId resolve listener) ;;
  SendEventToClient (ServerDOMQueryOneEvent selector requestId) ;;
  ret promise.

Definition jsObserve (selector : string) (callback : Callable)
  : M (CancelFn * RefetchFn) :=
  observerID <- uuidNew ;;
  modify (fun c =>
    setElementObservers
      (mapSet obsID {| obsID := observerID; obsSelector := selector;
                       obsCallback := callback |}
              (elementObservers c)) c) ;;
  SendEventToClient (ServerDOMObserveEvent selector observerID) ;;
  listener <- RegisterEventListener [ClientDOMObserveResultEvent] ;;
  SetCallback listener (ObserveCallback observerID) ;;
  domReadyListener <- RegisterEventListener [ClientDOMReadyEvent] ;;
  SetCallback domReadyListener
    (ObserveDOMReadyCallback selector observerID domReadyListener) ;;
  let cancelFn := mkCancelFn listener domReadyListener observerID in
  let refetchFn := mkRefetchFn selector observerID in
  registerOnCleanup cancelFn ;;
  ret (cancelFn, refetchFn).

(** A call of the [cancelFn] that [jsObserve] returned. *)
Definition runCancelFn (f : CancelFn) : M unit :=
  match f with
  | mkCancelFn listenerID domReadyListenerID observerID =>
      UnregisterEventListener listenerID ;;
      UnregisterEventListener domReadyListenerID ;;
      modify (fun c =>
        setElementObservers (mapDelete obsID observerID (elementObservers c)) c) ;;
      SendEventToClient (ServerDOMStopObserveEvent observerID)
  end.

(** A call of the [refetchFn] that [jsObserve] returned. *)
Definition runRefetchFn (f : RefetchFn) : M unit :=
  match f with
  | mkRefetchFn selector observerID =>
      SendEventToClient (ServerDOMObserveEvent selector observerID)
  end.

Definition jsCreateElement (tagName : string) : M nat :=
  prr <- NewPromise ;;
  let '(promise, resolve, _) := prr in
  requestId <- uuidNew ;;
  listener <- RegisterEventListener [ClientDOMCreateResultEvent] ;;
  SetCallback listener (CreateElementCallback requestId resolve listener) ;;
  SendEventToClient (ServerDOMCreateEvent tagName requestId) ;;
  ret promise.

(** The body that the fifteen getters of an element object share: they
    differ in the action, the parameters and the conversion of the result
    only. *)
Definition elementGetter (g : Getter) (elementId arg : string) : M nat :=
  prr <- NewPromise ;;
  let '(promise, resolve, _) := prr in
  requestId <- uuidNew ;;
  listener <- RegisterEventListener [ClientDOMElementUpdatedEvent] ;;
  SetCallback listener (ElementUpdatedCallback g elementId requestId resolve listener) ;;
  SendEventToClient
    (ServerDOMManipulateEvent elementId (getterAction g) (getterParams g arg) requestId) ;;
  ret promise.

Definition elementQuery (elementId selector : string) : M nat :=
  prr <- NewPromise ;;
  let '(promise, resolve, _) := prr in
  requestId <- uuidNew ;;
  listener <- RegisterEventListener [ClientDOMQueryResultEvent] ;;
  SetCallback listener (QueryCallback requestId resolve listener) ;;
  SendEventToClient
    (ServerDOMManipulateEvent elementId "query"
       [("selector", VString selector); ("requestId", VString requestId)] "") ;;
  ret promise.

Definition elementQueryOne (elementId selector : string) : M nat :=
  prr <- NewPromise ;;
  let '(promise, resolve, _) := prr in
  requestId <- uuidNew ;;
  listener <- RegisterEventListener [ClientDOMQueryOneResultEvent] ;;
  SetCallback listener (QueryOneCallback requestId resolve listener) ;;
  SendEventToClient
    (ServerDOMManipulateEvent elementId "queryOne"
       [("selector", VString selector); ("requestId", VString requestId)] "") ;;
  ret promise.

(** The getters, by their names in dom.go. *)
Definition getElementText (elementId : string) : M nat :=
  elementGetter GetText elementId "".
Definition getElementAttribute (elementId name : string) : M nat :=
  elementGetter GetAttribute elementId name.
Definition hasElementClass (elementId className : string) : M nat :=
  elementGetter HasClass elementId className.
Definition getElementStyle (elementId property : string) : M nat :=
  elementGetter GetStyle elementId property.
Definition getElementComputedStyle (elementId property : string) : M nat :=
  elementGetter GetComputedStyle elementId property.
Definition getElementParent (elementId : string) : M nat :=
  elementGetter GetParent elementId "".
Definition getElementChildren (elementId : string) : M nat :=
  elementGetter GetChildren elementId "".
Definition getElementAttributes (elementId : string) : M nat :=
  elementGetter GetAttributes elementId "".
Definition hasElementAttribute (elementId name : string) : M nat :=
  elementGetter HasAttribute elementId name.
Definition getElementProperty (elementId name : string) : M nat :=
  elementGetter GetProperty elementId name.
Definition getElementStyles (elementId : string) : M nat :=
  elementGetter GetStyles elementId "".
Definition hasElementStyle (elementId property : string) : M nat :=
  elementGetter HasStyle elementId property.
Definition getElementDataAttribute (elementId key : string) : M nat :=
  elementGetter GetDataAttribute elementId key.
Definition getElementDataAttributes (elementId : string) : M nat :=
  elementGetter GetDataAttributes elementId "".
Definition hasElementDataAttribute (elementId key : string) : M nat :=
  elementGetter HasDataAttribute elementId key.

(** The body that the manipulations without a reply share: one event to
    the client, no request id. *)
Definition elementSetter (elementId action : string) (params : list (string * Value))
  : M unit :=
  SendEventToClient (ServerDOMManipulateEvent elementId action params "").

(** The setters, by their names in dom.go. *)
Definition setElementText (elementId text : string) : M unit :=
  elementSetter elementId "setText" [("text", VString text)].
Definition setElementAttribute (elementId name value : string) : M unit :=
  elementSetter elementId "setAttribute" [("name", VString name); ("value", VString value)].
Definition removeElementAttribute (elementId name : string) : M unit :=
  elementSetter elementId "removeAttribute" [("name", VString name)].
Definition addElementClass (elementId className : string) : M unit :=
  elementSetter elementId "addClass" [("className", VString className)].
Definition removeElementClass (elementId className : string) : M unit :=
  elementSetter elementId "removeClass" [("className", VString className)].
Definition setElementStyle (elementId property value : string) : M unit :=
  elementSetter elementId "setStyle"
                [("property", VString property); ("value", VString value)].
Definition removeElementStyle (elementId property : string) : M unit :=
  elementSetter elementId "removeStyle" [("property", VString property)].
Definition appendElement (parentID childID : string) : M unit :=
  elementSetter parentID "append" [("childID", VString childID)].
Definition insertElementBefore (elementId siblingID : string) : M unit :=
  elementSetter elementId "before" [("siblingID", VString siblingID)].
Definition insertElementAfter (elementId siblingID : string) : M unit :=
  elementSetter elementId "after" [("siblingID", VString siblingID)].
Definition removeElement (elementId : string) : M unit :=
  elementSetter elementId "remove" [].
Definition setElementProperty (elementId name : string) (value : Value) : M unit :=
  elementSetter elementId "setProperty" [("name", VString name); ("value", value)].
Definition setElementDataAttribute (elementId key value : string) : M unit :=
  elementSetter elementId "setDataAttribute" [("key", VString key); ("value", VString value)].
Definition removeElementDataAttribute (elementId key : string) : M unit :=
  elementSetter elementId "removeDataAttribute" [("key", VString key)].

(** ** The scheduler *)

(** The body of a scheduled function; [throws] tells whether the script
    function it calls returns an error. *)
Definition runTask (t : Task) (throws : bool) : M unit :=
  match t with
  | ResolveTask resolve v => vmCall (CallSettle resolve v)
  | OnReadyTask callback payload =>
      vmCall (CallOnReady callback payload) ;;
      if throws then handleException else ret tt
  | ObserverTask observerID elements =>
      observer <- gets (fun c => mapGet obsID observerID (elementObservers c)) ;;
      match observer with
      | None => ret tt
      | Some observer =>
          vmCall (CallObserver observerID (obsCallback observer)
                               (elementObjects elements)) ;;
          if throws then handleException else ret tt
      end
  end.

(** Modelled from the spec: the worker of the scheduler.  It takes the
    oldest task of the queue and runs it; an interrupted VM runs
    nothing. *)
Definition runNextTask (throws : bool) : M unit :=
  stopped <- gets interrupted ;;
  queue <- gets scheduled ;;
  match stopped, queue with
  | false, t :: rest => modify (setScheduled rest) ;; runTask t throws
  | _, _ => ret tt
  end.

(** Modelled from the spec: the cleanup of the context at unload runs the
    functions given to [registerOnCleanup], once. *)
Definition runCleanup : M unit :=
  fs <- gets onCleanup ;;
  modify (setOnCleanup []) ;;
  fold_right (fun f k => runCancelFn f ;; k) (ret tt) fs.

(** ** UI.Register: the fan-out of client events *)

(** The sends [listener.Channel <- clientEvent] of one listener for one
    event, in order. *)
Definition listenerSends (listener : EventListener) (clientEvent : ClientPluginEvent)
  : list ClientPluginEvent :=
  if Nat.ltb 0 (List.length (ListenTo listener)) then
    flat_map (fun eventType =>
                if eventTypeEqb eventType (Type_ clientEvent) then [clientEvent] else [])
             (ListenTo listener)
  else [clientEvent].

(** The sends of [eventListeners.Range] for one event: the id of the
    listener with what is sent to it. *)
Definition fanOut (listeners : list EventListener) (clientEvent : ClientPluginEvent)
  : list (string * ClientPluginEvent) :=
  flat_map (fun listener => map (pair (ID listener)) (listenerSends listener clientEvent))
           listeners.

(** Where the goroutine of [Register] takes one envelope. *)
Inductive Route : Type :=
| Ignored
| ToTrayManager
| ToListeners (clientEvent : ClientPluginEvent).

Definition route (extensionID : string) (event : WSEvent) : Route :=
  match wsType event with
  | PluginEvent =>
      match wsPayload event with
      | PayloadObject clientEvent =>
          if String.eqb (ExtensionID clientEvent) ""
             || String.eqb (ExtensionID clientEvent) extensionID
          then
            match Type_ clientEvent with
            | ClientRenderTraysEvent => ToTrayManager
            | ClientRenderTrayEvent => ToTrayManager
            | _ => ToListeners clientEvent
            end
          else Ignored
      | PayloadOther _ => Ignored
      end
  | OtherWSEvent _ => Ignored
  end.

(** Modelled from the spec: what becomes of an event sent on
    [listener.Channel] is decided by [SetCallback] in context.go.  The
    listener, if it is still registered and has a callback, runs the
    callback on the event; events are handed over one at a time, in the
    order they are sent. *)
Definition deliver (listenerID : string) (event : ClientPluginEvent) : M unit :=
  listener <- gets (fun c => mapGet ID listenerID (eventListeners c)) ;;
  match listener with
  | Some l =>
      match callback l with
      | Some cb => runListenerCallback cb event
      | None => ret tt
      end
  | None => ret tt
  end.

(** Modelled from the spec: the sends of one fan-out, handed over in the
    order they are made (section 4.D). *)
Definition deliverAll (sends : list (string * ClientPluginEvent)) : M unit :=
  fold_right (fun send k => deliver (fst send) (snd send) ;; k) (ret tt) sends.

(** One iteration of [for event := range u.context.wsSubscriber.Channel]. *)
Definition handleWSEvent (extensionID : string) (event : WSEvent) : M unit :=
  match route extensionID event with
  | Ignored => ret tt
  | ToTrayManager => modify (fun c => setTrayRenders (S (trayRenders c)) c)
  | ToListeners clientEvent =>
      listeners <- gets eventListeners ;;
      deliverAll (fanOut listeners clientEvent)
  end.

(** ** Runs of a plugin *)

(** A request of the DOM proxy that is answered by one reply. *)
Inductive Request : Type :=
| ReqQuery (selector : string)
| ReqQueryOne (selector : string)
| ReqCreateElement (tagName : string)
| ReqGetter (g : Getter) (elementId arg : string)
| ReqElementQuery (elementId selector : string)
| ReqElementQueryOne (elementId selector : string).

Definition issue (r : Request) : M nat :=
  match r with
  | ReqQuery selector => jsQuery selector
  | ReqQueryOne selector => jsQueryOne selector
  | ReqCreateElement tagName => jsCreateElement tagName
  | ReqGetter g elementId arg => elementGetter g elementId arg
  | ReqElementQuery elementId selector => elementQuery elementId selector
  | ReqElementQueryOne elementId selector => elementQueryOne elementId selector
  end.

(** What happens to a context, one step at a time: the script calls the
    DOM proxy, the client sends an envelope, the scheduler runs a task,
    the context is cleaned up. *)
Inductive Action : Type :=
| DoRequest (r : Request)
| DoObserve (selector : string) (callback : Callable)
| DoOnReady (callback : Callable)
| DoSetter (elementId action : string) (params : list (string * Value))
| DoCancel (f : CancelFn)
| DoRefetch (f : RefetchFn)
| DoClientEvent (event : WSEvent)
| DoRunTask (throws : bool)
| DoCleanup.

Definition step (extensionID : string) (a : Action) (c : Context) : Context :=
  match a with
  | DoRequest r => exec (issue r) c
  | DoObserve selector callback => exec (jsObserve selector callback) c
  | DoOnReady callback => exec (jsOnReady callback) c
  | DoSetter elementId action params => exec (elementSetter elementId action params) c
  | DoCancel f => exec (runCancelFn f) c
  | DoRefetch f => exec (runRefetchFn f) c
  | DoClientEvent event => exec (handleWSEvent extensionID event) c
  | DoRunTask throws => exec (runNextTask throws) c
  | DoCleanup => exec runCleanup c
  end.

Definition run (extensionID : string) (actions : list Action) (c : Context) : Context :=
  fold_left (fun c a => step extensionID a c) actions c.

(** ** The UI registry *)

Record UI : Type := mkUI {
  extensionID : string;
  context : Context;
  subscriptions : nat;       (* calls of SubscribeToClientEvents so far *)
  dispatchers : list nat     (* the subscribers the goroutines of Register range over *)
}.

(** [NewUI]: the context is created here, once. *)
Definition NewUI (extensionID : string) : UI :=
  {| extensionID := extensionID; context := NewContext;
     subscriptions := 0; dispatchers := [] |}.

(** [Register]: a new subscriber is stored in the context, a goroutine is
    started on its channel, and the callback of the script runs on the
    context object; [script] is what the callback does with it. *)
Definition Register (u : UI) (script : list Action) : UI :=
  let subscriber := subscriptions u in
  {| extensionID := extensionID u;
     context := run (extensionID u) script
                    (setWsSubscriber (Some subscriber) (context u));
     subscriptions := S subscriber;
     dispatchers := dispatchers u ++ [subscriber] |}.

(** An envelope taken by a goroutine of [Register]. *)
Definition clientEvent (u : UI) (event : WSEvent) : UI :=
  {| extensionID := extensionID u;
     context := step (extensionID u) (DoClientEvent event) (context u);
     subscriptions := subscriptions u;
     dispatchers := dispatchers u |}.

(** ** Listener channels *)

(** A Go channel of client events: its capacity and what is queued. *)
Record Chan : Type := mkChan {
  capacity : nat;
  buffer : list ClientPluginEvent
}.

Inductive SendResult : Type :=
| Sent (ch : Chan)
| Blocked.

(** [ch <- e] with no receiver waiting: the event is queued behind the
    others when there is room, the sender waits otherwise. *)
Definition chanSend (ch : Chan) (e : ClientPluginEvent) : SendResult :=
  if Nat.ltb (List.length (buffer ch)) (capacity ch)
  then Sent {| capacity := capacity ch; buffer := buffer ch ++ [e] |}
  else Blocked.

(** [<-ch]: the oldest queued event. *)
Definition chanRecv (ch : Chan) : option (ClientPluginEvent * Chan) :=
  match buffer ch with
  | [] => None
  | e :: rest => Some (e, {| capacity := capacity ch; buffer := rest |})
  end.

(** The sender of [Register] and the goroutine of one listener, around the
    listener's channel: what is still to be sent, the channel, and what
    the listener has received so far. *)
Record Link : Type := mkLink {
  toSend : list ClientPluginEvent;
  chan : Chan;
  received : list ClientPluginEvent
}.

Inductive LinkStep : Type := SenderStep | ReceiverStep.

Definition linkStep (s : LinkStep) (l : Link) : Link :=
  match s with
  | SenderStep =>
      match toSend l with
      | [] => l
      | e :: rest =>
          match chanSend (chan l) e with
          | Sent ch => {| toSend := rest; chan := ch; received := received l |}
          | Blocked => l
          end
      end
  | ReceiverStep =>
      match chanRecv (chan l) with
      | Some (e, ch) => {| toSend := toSend l; chan := ch; received := received l ++ [e] |}
      | None => l
      end
  end.

Definition linkRun (steps : list LinkStep) (l : Link) : Link :=
  fold_left (fun l s => linkStep s l) steps l.

(** The policy of the spec, for comparison: on a full channel the oldest
    queued event is dropped and the new one is queued. *)
Definition specDropOldestSend (ch : Chan) (e : ClientPluginEvent) : SendResult :=
  if Nat.ltb (List.length (buffer ch)) (capacity ch)
  then Sent {| capacity := capacity ch; buffer := buffer ch ++ [e] |}
  else Sent {| capacity := capacity ch; buffer := tl (buffer ch) ++ [e] |}.

(** ** The effect budget *)

Inductive EffectEvent : Type :=
| EffectRun       (* an effect is due *)
| EffectReset.    (* RESET_EFFECT_CALLBACK_INTERVAL has passed *)

(** Modelled from the spec: [jsEffect] and the reset of the effect count
    are in context.go, which is not among the sources.  Section 3: at most
    [MAX_EFFECT_CALLBACKS] effect executions between resets, the window
    resets every [RESET_EFFECT_CALLBACK_INTERVAL], exceeding the budget
    interrupts the VM.  The result tells whether the effect was
    executed. *)
Definition effectStep (e : EffectEvent) (c : Context) : bool * Context :=
  match e with
  | EffectReset => (false, setEffectCalls 0 c)
  | EffectRun =>
      if interrupted c then (false, c)
      else if Nat.ltb (effectCalls c) MAX_EFFECT_CALLBACKS
      then (true, setEffectCalls (S (effectCalls c)) c)
      else (false, setInterrupted true c)
  end.

(** Modelled from the spec: the effects executed over a sequence of
    events, by [effectStep]. *)
Fixpoint effectRuns (events : list EffectEvent) (c : Context) : nat * Context :=
  match events with
  | [] => (0, c)
  | e :: rest =>
      let (ran, c') := effectStep e c in
      let (n, c'') := effectRuns rest c' in
      ((if ran then 1 else 0) + n, c'')
  end.

(** Modelled from the spec: exceptions, one after the other, by
    [handleException]. *)
Fixpoint exceptions (n : nat) (c : Context) : Context :=
  match n with
  | 0 => c
  | S k => exec handleException (exceptions k c)
  end.

(** ** What the properties below are stated with *)

Definition settleEqb (f g : Settle) : bool :=
  match f, g with
  | Resolve p, Resolve q => Nat.eqb p q
  | Reject p, Reject q => Nat.eqb p q
  | _, _ => false
  end.

(** The resolving function a callback has captured. *)
Definition callbackSettle (cb : ListenerCallback) : option Settle :=
  match cb with
  | QueryCallback _ resolve _ => Some resolve
  | QueryOneCallback _ resolve _ => Some resolve
  | CreateElementCallback _ resolve _ => Some resolve
  | ElementUpdatedCallback _ _ _ resolve _ => Some resolve
  | OnReadyCallback _ _ => None
  | ObserveCallback _ => None
  | ObserveDOMReadyCallback _ _ _ => None
  end.

(** The id of the listener a callback unregisters. *)
Definition callbackListenerID (cb : ListenerCallback) : option string :=
  match cb with
  | QueryCallback _ _ listenerID => Some listenerID
  | QueryOneCallback _ _ listenerID => Some listenerID
  | CreateElementCallback _ _ listenerID => Some listenerID
  | ElementUpdatedCallback _ _ _ _ listenerID => Some listenerID
  | OnReadyCallback _ listenerID => Some listenerID
  | ObserveDOMReadyCallback _ _ listenerID => Some listenerID
  | ObserveCallback _ => None
  end.

Definition listenerHolds (f : Settle) (l : EventListener) : bool :=
  match callback l with
  | Some cb =>
      match callbackSettle cb with
      | Some g => settleEqb f g
      | None => false
      end
  | None => false
  end.

Definition taskHolds (f : Settle) (t : Task) : bool :=
  match t with
  | ResolveTask g _ => settleEqb f g
  | _ => false
  end.

Definition callHolds (f : Settle) (call : VMCall) : bool :=
  match call with
  | CallSettle g _ => settleEqb f g
  | _ => false
  end.

Definition count {A : Type} (p : A -> bool) (l : list A) : nat :=
  List.length (filter p l).

(** Where a resolving function of a promise is at some moment: held by
    listeners that wait for the reply, by scheduled tasks that will call
    it, or already called. *)
Definition waiting (f : Settle) (c : Context) : nat :=
  count (listenerHolds f) (eventListeners c).
Definition pending (f : Settle) (c : Context) : nat :=
  count (taskHolds f) (scheduled c).
Definition called (f : Settle) (c : Context) : nat :=
  count (callHolds f) (vmCalls c).
Definition holders (f : Settle) (c : Context) : nat :=
  waiting f c + pending f c + called f c.

(** The calls of the callback of one observer. *)
Definition isObserverCall (observerID : string) (call : VMCall) : bool :=
  match call with
  | CallObserver o _ _ => String.eqb o observerID
  | _ => false
  end.
Definition observerCalls (observerID : string) (c : Context) : nat :=
  count (isObserverCall observerID) (vmCalls c).

Definition registered (listenerID : string) (c : Context) : bool :=
  existsb (fun l => String.eqb (ID l) listenerID) (eventListeners c).

Definition observed (observerID : string) (c : Context) : bool :=
  existsb (fun o => String.eqb (obsID o) observerID) (elementObservers c).

(** A reply matches the request a callback waits for: the request id is
    the request's and, for a reply to a manipulation, so are the element
    id and the action. *)
Definition replyMatches (cb : ListenerCallback) (event : ClientPluginEvent) : Prop :=
  match cb with
  | QueryCallback requestId _ _ =>
      exists payload, ParsePayloadAsQueryResult event = Some payload
                      /\ qr_RequestID payload = requestId
  | QueryOneCallback requestId _ _ =>
      exists payload, ParsePayloadAsQueryOneResult event = Some payload
                      /\ qo_RequestID payload = requestId
  | CreateElementCallback requestId _ _ =>
      exists payload, ParsePayloadAsCreateResult event = Some payload
                      /\ cr_RequestID payload = requestId
  | ElementUpdatedCallback g elementId requestId _ _ =>
      exists payload, ParsePayloadAsElementUpdated event = Some payload
                      /\ eu_RequestID payload = requestId
                      /\ eu_ElementID payload = elementId
                      /\ eu_Action payload = getterAction g
  | _ => False
  end.

(** The callbacks of the requests that are answered by one reply. *)
Definition isRequestCallback (cb : ListenerCallback) : bool :=
  match callbackSettle cb with Some _ => true | None => false end.

(** Every id in use was given out by [uuid.New], and the callback of a
    listener unregisters that listener. *)
Definition generated (id : string) (c : Context) : Prop :=
  exists k, k < uuids c /\ id = uuidString k.

Definition listenerOk (c : Context) (l : EventListener) : Prop :=
  generated (ID l) c
  /\ forall cb lid, callback l = Some cb -> callbackListenerID cb = Some lid -> lid = ID l.

Definition settleBound (f : Settle) (c : Context) : nat :=
  match f with
  | Resolve p => if Nat.ltb p (promises c) then 1 else 0
  | Reject _ => 0
  end.

Record WellFormed (c : Context) : Prop := {
  wf_listeners : Forall (listenerOk c) (eventListeners c);
  wf_holders : forall f, holders f c <= settleBound f c
}.

(** The calls a script makes while it sets its UI up: requests,
    observers, ready handlers and setters. *)
Definition isSetupCall (a : Action) : bool :=
  match a with
  | DoRequest _ | DoObserve _ _ | DoOnReady _ | DoSetter _ _ _ | DoRefetch _ => true
  | DoCancel _ | DoClientEvent _ | DoRunTask _ | DoCleanup => false
  end.

(** The getters with a string result and those with a boolean result. *)
Definition stringGetter (g : Getter) : bool :=
  match g with
  | GetText | GetStyle | GetComputedStyle => true
  | _ => false
  end.
Definition boolGetter (g : Getter) : bool :=
  match g with
  | HasClass | HasAttribute | HasStyle
  | HasDataAttribute => true
  | _ => false
  end.

(** What the client sends when the element of a manipulation is gone. *)
Definition elementNotFound : Value :=
  VObject [("error", VString "Element not found")].

(** Everything the sender was given is, in order, what the listener has
    received, then what the channel holds, then what is still to send. *)
Definition inTransit (l : Link) : list ClientPluginEvent :=
  received l ++ buffer (chan l) ++ toSend l.

(** The plugin-level error events among the events sent. *)
Definition isPluginError (e : ServerEvent) : bool :=
  match e with ServerPluginErrorEvent => true | _ => false end.


(** ** The requests in closed form *)

Definition requestListenTo (r : Request) : ClientEventType :=
  match r with
  | ReqQuery _ | ReqElementQuery _ _ => ClientDOMQueryResultEvent
  | ReqQueryOne _ | ReqElementQueryOne _ _ => ClientDOMQueryOneResultEvent
  | ReqCreateElement _ => ClientDOMCreateResultEvent
  | ReqGetter _ _ _ => ClientDOMElementUpdatedEvent
  end.

Definition requestCallback (r : Request) (requestId : string) (resolve : Settle)
           (listenerID : string) : ListenerCallback :=
  match r with
  | ReqQuery _ | ReqElementQuery _ _ => QueryCallback requestId resolve listenerID
  | ReqQueryOne _ | ReqElementQueryOne _ _ => QueryOneCallback requestId resolve listenerID
  | ReqCreateElement _ => CreateElementCallback requestId resolve listenerID
  | ReqGetter g elementId _ =>
      ElementUpdatedCallback g elementId requestId resolve listenerID
  end.

Definition requestEvent (r : Request) (requestId : string) : ServerEvent :=
  match r with
  | ReqQuery selector => ServerDOMQueryEvent selector requestId
  | ReqQueryOne selector => ServerDOMQueryOneEvent selector requestId
  | ReqCreateElement tagName => ServerDOMCreateEvent tagName requestId
  | ReqGetter g elementId arg =>
      ServerDOMManipulateEvent elementId (getterAction g) (getterParams g arg) requestId
  | ReqElementQuery elementId selector =>
      ServerDOMManipulateEvent elementId "query"
        [("selector", VString selector); ("requestId", VString requestId)] ""
  | ReqElementQueryOne elementId selector =>
      ServerDOMManipulateEvent elementId "queryOne"
        [("selector", VString selector); ("requestId", VString requestId)] ""
  end.

(** The listener a request leaves behind. *)
Definition requestListener (r : Request) (c : Context) : EventListener :=
  {| ID := uuidString (S (uuids c));
     ListenTo := [requestListenTo r];
     callback := Some (requestCallback r (uuidString (uuids c)) (Resolve (promises c))
                                       (uuidString (S (uuids c)))) |}.

(** The context after a request, when the ids of its listeners were all
    given out by [uuid.New]. *)
Definition afterRequest (r : Request) (c : Context) : Context :=
  setOutbox (outbox c ++ [requestEvent r (uuidString (uuids c))])
    (setEventListeners (eventListeners c ++ [requestListener r c])
       (setUuids (S (S (uuids c))) (setPromises (S (promises c)) c))).

Definition idsGenerated (c : Context) : Prop :=
  Forall (fun l => generated (ID l) c) (eventListeners c).

(** The two listeners [jsObserve] leaves behind. *)
Definition observeListeners (selector : string) (c : Context) : list EventListener :=
  [ {| ID := uuidString (S (uuids c));
       ListenTo := [ClientDOMObserveResultEvent];
       callback := Some (ObserveCallback (uuidString (uuids c))) |};
    {| ID := uuidString (S (S (uuids c)));
       ListenTo := [ClientDOMReadyEvent];
       callback := Some (ObserveDOMReadyCallback selector (uuidString (uuids c))
                                                 (uuidString (S (S (uuids c))))) |} ].

Definition observeCancelFn (c : Context) : CancelFn :=
  mkCancelFn (uuidString (S (uuids c))) (uuidString (S (S (uuids c))))
             (uuidString (uuids c)).

Definition afterObserve (selector : string) (callback : Callable) (c : Context)
  : Context :=
  setOnCleanup (onCleanup c ++ [observeCancelFn c])
    (setEventListeners (eventListeners c ++ observeListeners selector c)
       (setOutbox (outbox c ++ [ServerDOMObserveEvent selector (uuidString (uuids c))])
          (setElementObservers
             (mapSet obsID {| obsID := uuidString (uuids c); obsSelector := selector;
                              obsCallback := callback |}
                     (elementObservers c))
             (setUuids (S (S (S (uuids c)))) c)))).

Definition afterOnReady (callback : Callable) (c : Context) : Context :=
  setEventListeners
    (eventListeners c
     ++ [{| ID := uuidString (uuids c);
            ListenTo := [ClientDOMReadyEvent];
            callback := Some (OnReadyCallback callback (uuidString (uuids c))) |}])
    (setUuids (S (uuids c)) c).

(** What a callback does to the context when it takes an event: it may
    unregister its listener, schedule tasks and send events. *)
Definition applyEffect (cb : ListenerCallback) (unregisters : bool)
           (tasks : list Task) (sent : list ServerEvent) (c : Context) : Context :=
  setEventListeners
    (match unregisters, callbackListenerID cb with
     | true, Some listenerID => mapDelete ID listenerID (eventListeners c)
     | _, _ => eventListeners c
     end)
    (setOutbox (outbox c ++ sent) (setScheduled (scheduled c ++ tasks) c)).

(** A listener that has been unregistered, in a well-formed context. *)
Definition gone (lid : string) (c : Context) : Prop :=
  WellFormed c /\ generated lid c /\ registered lid c = false.

(** An observer that has been cancelled, with the calls of its callback
    made so far. *)
Definition stopped (observerID : string) (calls : nat) (c : Context) : Prop :=
  observed observerID c = false
  /\ generated observerID c
  /\ observerCalls observerID c = calls.

(** The client announces that the DOM is ready. *)
Definition domReady : WSEvent :=
  mkWSEvent PluginEvent (PayloadObject (mkClientEvent "" ClientDOMReadyEvent VNil)).

(** ** Tactics *)

(** Unfolding of the operations of the context, and reduction of the
    projections of an updated context. *)
Ltac ctx_unfold :=
  unfold issue, jsQuery, jsQueryOne, jsCreateElement, elementGetter,
    elementQuery, elementQueryOne, jsObserve, jsOnReady, elementSetter,
    runCancelFn, runRefetchFn, handleException, RegisterEventListener,
    SetCallback, UnregisterEventListener, registerOnCleanup, SendEventToClient,
    ScheduleAsync, vmCall, NewPromise, uuidNew, exec, bind, modify, gets, ret in *.

Ltac ctx_cbn :=
  cbn [fst snd uuids promises eventListeners elementObservers scheduled outbox
       vmCalls onCleanup wsSubscriber trayRenders exceptionCount effectCalls
       interrupted setUuids setPromises setEventListeners setElementObservers
       setScheduled setOutbox setVmCalls setOnCleanup setWsSubscriber
       setTrayRenders setExceptionCount setEffectCalls setInterrupted] in *.

Ltac ctx_simpl := ctx_unfold; ctx_cbn.

Ltac effect_finish :=
  repeat match goal with
         | H : In _ [] |- _ => destruct H
         | H : In _ [_] |- _ => destruct H as [<-|[]]
         | H : OnReadyTask _ _ = ResolveTask _ _ |- _ => discriminate H
         | H : ObserverTask _ _ = ResolveTask _ _ |- _ => discriminate H
         | H : ResolveTask _ _ = ResolveTask _ _ |- _ => injection H as <- _
         end;
  auto; try discriminate.

Ltac effect_rest :=
  repeat split; effect_finish; try (intros; effect_finish; eauto; fail).

Ltac effect_shape :=
  unfold applyEffect; ctx_simpl; unfold setEventListeners; ctx_cbn;
  rewrite ?app_nil_r; reflexivity.

Ltac exception_cases c :=
  ctx_simpl; try destruct (Nat.ltb MAX_EXCEPTIONS (S (exceptionCount c)));
  unfold generated in *; ctx_cbn.


(** ** DOMManager: the listeners of DOM events *)

Record DOMEventListener : Type := mkDOMEventListener {
  delID : string;
  delElementID : string;
  delEventType : string;
  delCallback : Callable
}.

(** The [DOMManager]: its context and [d.eventListeners]
    ([d.elementObservers] is kept in the context above). *)
Record DOMManager : Type := mkDOMManager {
  ctx : Context;
  domEventListeners : list DOMEventListener
}.


(** The function that [addElementEventListener] returns, with the
    variables it captures. *)
Inductive RemoveListenerFn : Type :=
| mkRemoveListenerFn (elementId event listenerID : string).

Definition addElementEventListener (elementId event : string) (callback : Callable)
           (d : DOMManager) : RemoveListenerFn * DOMManager :=
  let (listenerID, c) := uuidNew (ctx d) in
  let listener := {| delID := listenerID; delElementID := elementId;
                     delEventType := event; delCallback := callback |} in
  (mkRemoveListenerFn elementId event listenerID,
   {| ctx := exec (SendEventToClient
                     (ServerDOMManipulateEvent elementId "addEventListener"
                        [("event", VString event); ("listenerID", VString listenerID)]
                        "")) c;
      domEventListeners := mapSet delID listener (domEventListeners d) |}).

(** A call of the function that [addElementEventListener] returned. *)
Definition runRemoveListenerFn (f : RemoveListenerFn) (d : DOMManager) : DOMManager :=
  match f with
  | mkRemoveListenerFn elementId event listenerID =>
      {| ctx := exec (SendEventToClient
                        (ServerDOMManipulateEvent elementId "removeEventListener"
                           [("event", VString event); ("listenerID", VString listenerID)]
                           "")) (ctx d);
         domEventListeners := mapDelete delID listenerID (domEventListeners d) |}
  end.



(** [HandleObserverUpdate]: the body is empty. *)
Definition HandleObserverUpdate (d : DOMManager) (observerID : string)
           (elements : list Value) : DOMManager := d.

(** ** The web client: [useDOMManager] *)

(** A [Map] or an object of the client: its entries, by key. *)
Fixpoint refDelete {V : Type} (k : string) (m : list (string * V)) : list (string * V) :=
  match m with
  | [] => []
  | (k', v) :: rest =>
      if String.eqb k' k then refDelete k rest else (k', v) :: refDelete k rest
  end.

Fixpoint refGet {V : Type} (k : string) (m : list (string * V)) : option V :=
  match m with
  | [] => None
  | (k', v) :: rest => if String.eqb k' k then Some v else refGet k rest
  end.

(** [Map.set]: the value of a key that is there is replaced in place, a
    new key goes last. *)
Fixpoint refSet {V : Type} (k : string) (v : V) (m : list (string * V))
  : list (string * V) :=
  match m with
  | [] => [(k, v)]
  | (k', v') :: rest =>
      if String.eqb k' k then (k, v) :: rest else (k', v') :: refSet k v rest
  end.

(** An element of the page as [elementToDOMElement] leaves it: its id (the
    one it had, or the [plugin-element-<uuid>] it has just been given), its
    tag name in lower case, and its attributes, the [data-] attributes
    among them. *)
Record PageElement : Type := mkPageElement {
  peId : string;
  peTagName : string;
  peAttributes : list (string * string)
}.

(** The fields of the object [elementToDOMElement] returns:
    [{ id: attributes.id, tagName, attributes, children: [] }]. *)
Definition domElementFields (element : PageElement) : list (string * Value) :=
  let attributes :=
    refSet "id" (VString (peId element))
           (map (fun kv => (fst kv, VString (snd kv))) (peAttributes element)) in
  [("id", fieldAny "id" attributes);
   ("tagName", VString (peTagName element));
   ("attributes", VObject attributes);
   ("children", VArray [])].

Definition elementToDOMElement (element : PageElement) : Value :=
  VObject (domElementFields element).

(** What [handleDOMManipulate] reads of the element it has found.  The
    arguments are the fields of [params] as they are given to the browser;
    an undefined field is [VNil]. *)
Record ElementView : Type := mkElementView {
  textContent : Value;
  getAttribute : Value -> Value;
  attributeEntries : list (string * string);
  hasAttribute : Value -> bool;
  property : Value -> Value;
  classListContains : Value -> bool;
  styleProperties : list string;
  styleGetPropertyValue : Value -> string;
  computedStyleGetPropertyValue : Value -> string;
  parentElement : option PageElement;
  childElements : list PageElement;
  instanceofHTMLElement : bool;
  datasetGet : Value -> Value;
  datasetEntries : list (string * Value);
  datasetHas : Value -> bool;
  elementQuerySelectorAll : Value -> list PageElement;
  elementQuerySelector : Value -> option PageElement
}.

(** What the handlers read of [document]. *)
Record Document : Type := mkDocument {
  querySelectorAll : string -> list PageElement;
  querySelector : string -> option PageElement;
  createElement : string -> PageElement;
  getElementById : string -> option ElementView;
  (** for an observer of a selector that has seen the elements of some ids:
      [matchedElements] of the callback of the [MutationObserver] *)
  matchedElements : string -> list string -> list PageElement
}.

(** [PluginDOMManipulateOptions] *)
Record ManipulateOptions : Type := mkManipulateOptions {
  optElementId : string;
  optAction : string;
  optParams : list (string * Value);
  optRequestId : string
}.

(** The refs of the hook that decide what is sent. *)
Record Client : Type := mkClient {
  clExtensionId : string;
  disposedRef : bool;
  domReadySentRef : bool;
  elementObserversRef : list (string * string);        (* observer id, selector *)
  observedElementsRef : list (string * list string)    (* observer id, element ids *)
}.

Definition NewClient (extensionId : string) : Client :=
  {| clExtensionId := extensionId; disposedRef := false; domReadySentRef := false;
     elementObserversRef := []; observedElementsRef := [] |}.

(** [safeSendPluginMessage]: what goes out on the socket. *)
Definition safeSendPluginMessage (cl : Client) (type : ClientEventType) (payload : Value)
  : list ClientPluginEvent :=
  if disposedRef cl then []
  else [mkClientEvent (clExtensionId cl) type payload].

(** [sendDOMReadyEvent] *)
Definition sendDOMReadyEvent (cl : Client) : list ClientPluginEvent * Client :=
  if disposedRef cl || domReadySentRef cl then ([], cl)
  else
    let cl' := {| clExtensionId := clExtensionId cl; disposedRef := disposedRef cl;
                  domReadySentRef := true;
                  elementObserversRef := elementObserversRef cl;
                  observedElementsRef := observedElementsRef cl |} in
    (safeSendPluginMessage cl' ClientDOMReadyEvent (VObject []), cl').

(** [handleDOMQuery] *)
Definition handleDOMQuery (cl : Client) (document : Document) (selector requestId : string)
  : list ClientPluginEvent :=
  if disposedRef cl then []
  else
    let elements := querySelectorAll document selector in
    let domElements := map elementToDOMElement elements in
    safeSendPluginMessage cl ClientDOMQueryResultEvent
      (VObject [("requestId", VString requestId); ("elements", VArray domElements)]).

(** [handleDOMQueryOne] *)
Definition handleDOMQueryOne (cl : Client) (document : Document)
           (selector requestId : string) : list ClientPluginEvent :=
  if disposedRef cl then []
  else
    let domElement := match querySelector document selector with
                      | Some element => elementToDOMElement element
                      | None => VNil
                      end in
    safeSendPluginMessage cl ClientDOMQueryOneResultEvent
      (VObject [("requestId", VString requestId); ("element", domElement)]).

(** [handleDOMCreate] *)
Definition handleDOMCreate (cl : Client) (document : Document)
           (tagName requestId : string) : list ClientPluginEvent :=
  if disposedRef cl then []
  else
    let element := createElement document tagName in
    safeSendPluginMessage cl ClientDOMCreateResultEvent
      (VObject [("requestId", VString requestId);
                ("element", elementToDOMElement element)]).

(** [handleDOMObserve] *)
Definition handleDOMObserve (cl : Client) (document : Document)
           (selector observerId : string) : list ClientPluginEvent * Client :=
  if disposedRef cl then ([], cl)
  else
    let elements := querySelectorAll document selector in
    let domElements := map elementToDOMElement elements in
    let observed := map peId elements in
    let cl' := {| clExtensionId := clExtensionId cl; disposedRef := disposedRef cl;
                  domReadySentRef := domReadySentRef cl;
                  elementObserversRef :=
                    refSet observerId selector (elementObserversRef cl);
                  observedElementsRef :=
                    refSet observerId observed (observedElementsRef cl) |} in
    (if Nat.ltb 0 (List.length elements)
     then safeSendPluginMessage cl ClientDOMObserveResultEvent
            (VObject [("observerId", VString observerId);
                      ("elements", VArray domElements)])
     else [],
     cl').

(** [handleDOMStopObserve] *)
Definition handleDOMStopObserve (cl : Client) (observerId : string) : Client :=
  {| clExtensionId := clExtensionId cl; disposedRef := disposedRef cl;
     domReadySentRef := domReadySentRef cl;
     elementObserversRef := refDelete observerId (elementObserversRef cl);
     observedElementsRef := refDelete observerId (observedElementsRef cl) |}.

(** The callback of the [MutationObserver]: every observer is checked, in
    the order of [elementObserversRef]; one that has matched elements
    records their ids and sends them. *)
Fixpoint mutationCallbackEach (cl : Client) (document : Document)
         (observers : list (string * string)) (observed : list (string * list string))
  : list ClientPluginEvent * list (string * list string) :=
  match observers with
  | [] => ([], observed)
  | (observerId, selector) :: rest =>
      let observedSet := match refGet observerId observed with
                         | Some ids => ids
                         | None => []
                         end in
      let matched := matchedElements document selector observedSet in
      if Nat.ltb 0 (List.length matched) then
        let domElements := map elementToDOMElement matched in
        let observed' := refSet observerId (observedSet ++ map peId matched) observed in
        let (sent, observed'') := mutationCallbackEach cl document rest observed' in
        (safeSendPluginMessage cl ClientDOMObserveResultEvent
           (VObject [("observerId", VString observerId);
                     ("elements", VArray domElements)]) ++ sent,
         observed'')
      else mutationCallbackEach cl document rest observed
  end.

Definition mutationCallback (cl : Client) (document : Document)
  : list ClientPluginEvent * Client :=
  if disposedRef cl then ([], cl)
  else
    let (sent, observed) :=
      mutationCallbackEach cl document (elementObserversRef cl)
                           (observedElementsRef cl) in
    (sent,
     {| clExtensionId := clExtensionId cl; disposedRef := disposedRef cl;
        domReadySentRef := domReadySentRef cl;
        elementObserversRef := elementObserversRef cl;
        observedElementsRef := observed |}).

(** [params.name]: the field of that name, undefined ([VNil]) when there
    is none. *)
Definition param (name : string) (params : list (string * Value)) : Value :=
  fieldAny name params.

(** The truth value JavaScript gives a value in [if (v)]. *)
Definition truthy (v : Value) : bool :=
  match v with
  | VNil => false
  | VBool b => b
  | VNumber n => negb (Z.eqb n 0)
  | VString s => negb (String.eqb s "")
  | VArray _ => true
  | VObject _ => true
  end.

(** The [switch (action)] of [handleDOMManipulate]: the value [result] has
    after it.  The cases that change the page leave [result] as it is:
    [null], or [true] for [setAttribute]. *)
Definition manipulateResult (element : ElementView) (action : string)
           (params : list (string * Value)) : Value :=
  if String.eqb action "setAttribute" then VBool true
  else if String.eqb action "getText" then textContent element
  else if String.eqb action "getAttribute" then
    getAttribute element (param "name" params)
  else if String.eqb action "getAttributes" then
    VObject (map (fun attr => (fst attr, VString (snd attr)))
                 (attributeEntries element))
  else if String.eqb action "hasAttribute" then
    VBool (hasAttribute element (param "name" params))
  else if String.eqb action "getProperty" then
    property element (param "name" params)
  else if String.eqb action "hasClass" then
    VBool (classListContains element (param "className" params))
  else if String.eqb action "getStyle" then
    if truthy (param "property" params)
    then VString (styleGetPropertyValue element (param "property" params))
    else VObject (map (fun prop =>
                         (prop, VString (styleGetPropertyValue element (VString prop))))
                      (styleProperties element))
  else if String.eqb action "getComputedStyle" then
    VString (computedStyleGetPropertyValue element (param "property" params))
  else if String.eqb action "getParent" then
    match parentElement element with
    | Some parent => elementToDOMElement parent
    | None => VNil
    end
  else if String.eqb action "getChildren" then
    VArray (map elementToDOMElement (childElements element))
  else if String.eqb action "getDataAttribute" then
    if instanceofHTMLElement element
    then datasetGet element (param "key" params)
    else VNil
  else if String.eqb action "getDataAttributes" then
    if instanceofHTMLElement element
    then VObject (datasetEntries element)
    else VObject []
  else if String.eqb action "hasDataAttribute" then
    if instanceofHTMLElement element
    then VBool (datasetHas element (param "key" params))
    else VBool false
  else if String.eqb action "hasStyle" then
    VBool (negb (String.eqb
                   (styleGetPropertyValue element (param "property" params)) ""))
  else VNil.

(** [handleDOMManipulate]: what it sends. *)
Definition handleDOMManipulate (cl : Client) (document : Document)
           (options : ManipulateOptions) : list ClientPluginEvent :=
  if disposedRef cl then []
  else
    let elementId := optElementId options in
    let action := optAction options in
    let params := optParams options in
    let requestId := optRequestId options in
    match getElementById document elementId with
    | None =>
        safeSendPluginMessage cl ClientDOMElementUpdatedEvent
          (VObject [("elementId", VString elementId);
                    ("action", VString action);
                    ("result", VObject [("error", VString "Element not found")]);
                    ("requestId", VString requestId)])
    | Some element =>
        if String.eqb action "query" then
          let queryElements := elementQuerySelectorAll element (param "selector" params) in
          let queryDomElements := map elementToDOMElement queryElements in
          safeSendPluginMessage cl ClientDOMQueryResultEvent
            (VObject [("requestId", param "requestId" params);
                      ("elements", VArray queryDomElements)])
        else if String.eqb action "queryOne" then
          let queryOneDomElement :=
            match elementQuerySelector element (param "selector" params) with
            | Some queryOneElement => elementToDOMElement queryOneElement
            | None => VNil
            end in
          safeSendPluginMessage cl ClientDOMQueryOneResultEvent
            (VObject [("requestId", param "requestId" params);
                      ("element", queryOneDomElement)])
        else
          let result := manipulateResult element action params in
          safeSendPluginMessage cl ClientDOMElementUpdatedEvent
            (VObject [("elementId", VString elementId);
                      ("action", VString action);
                      ("result", result);
                      ("requestId", VString requestId)])
    end.

(** [cleanup] *)
Definition cleanup (cl : Client) : Client :=
  {| clExtensionId := clExtensionId cl; disposedRef := true; domReadySentRef := false;
     elementObserversRef := []; observedElementsRef := [] |}.

(** ** What the further properties are stated with *)

Definition callableEqb (a b : Callable) : bool :=
  match a, b with mkCallable x, mkCallable y => Nat.eqb x y end.

(** Where a function given to [onReady] is at some moment: held by
    listeners that wait for [dom:ready], by scheduled tasks that will call
    it, or already called. *)
Definition readyListener (fn : Callable) (l : EventListener) : bool :=
  match callback l with
  | Some (OnReadyCallback cb _) => callableEqb fn cb
  | _ => false
  end.
Definition readyTask (fn : Callable) (t : Task) : bool :=
  match t with
  | OnReadyTask cb _ => callableEqb fn cb
  | _ => false
  end.
Definition readyCall (fn : Callable) (call : VMCall) : bool :=
  match call with
  | CallOnReady cb _ => callableEqb fn cb
  | _ => false
  end.
Definition readyWaiting (fn : Callable) (c : Context) : nat :=
  count (readyListener fn) (eventListeners c).
Definition readyPending (fn : Callable) (c : Context) : nat :=
  count (readyTask fn) (scheduled c).
Definition readyCalled (fn : Callable) (c : Context) : nat :=
  count (readyCall fn) (vmCalls c).

(** The calls of [onReady] with that function in a run. *)
Definition isOnReadyOf (fn : Callable) (a : Action) : bool :=
  match a with
  | DoOnReady cb => callableEqb fn cb
  | _ => false
  end.
Definition readyRegistrations (fn : Callable) (actions : list Action) : nat :=
  count (isOnReadyOf fn) actions.

(** The event type a callback is registered for. *)
Definition callbackEvent (cb : ListenerCallback) : ClientEventType :=
  match cb with
  | OnReadyCallback _ _ => ClientDOMReadyEvent
  | QueryCallback _ _ _ => ClientDOMQueryResultEvent
  | QueryOneCallback _ _ _ => ClientDOMQueryOneResultEvent
  | ObserveCallback _ => ClientDOMObserveResultEvent
  | ObserveDOMReadyCallback _ _ _ => ClientDOMReadyEvent
  | CreateElementCallback _ _ _ => ClientDOMCreateResultEvent
  | ElementUpdatedCallback _ _ _ _ _ => ClientDOMElementUpdatedEvent
  end.

(** The id a callback compares the id of a reply with: the request id of
    a request, the observer id of an observer. *)
Definition callbackRequestID (cb : ListenerCallback) : option string :=
  match cb with
  | QueryCallback requestId _ _ => Some requestId
  | QueryOneCallback requestId _ _ => Some requestId
  | CreateElementCallback requestId _ _ => Some requestId
  | ElementUpdatedCallback _ _ requestId _ _ => Some requestId
  | ObserveCallback observerID => Some observerID
  | OnReadyCallback _ _ => None
  | ObserveDOMReadyCallback _ _ _ => None
  end.

(** The replies of the client to requests and to observers, and the id a
    reply carries. *)
Definition isReply (t : ClientEventType) : bool :=
  match t with
  | ClientDOMQueryResultEvent | ClientDOMQueryOneResultEvent
  | ClientDOMCreateResultEvent | ClientDOMElementUpdatedEvent
  | ClientDOMObserveResultEvent => true
  | _ => false
  end.

Definition replyRequestID (event : ClientPluginEvent) : option string :=
  match Type_ event with
  | ClientDOMQueryResultEvent =>
      option_map qr_RequestID (ParsePayloadAsQueryResult event)
  | ClientDOMQueryOneResultEvent =>
      option_map qo_RequestID (ParsePayloadAsQueryOneResult event)
  | ClientDOMCreateResultEvent =>
      option_map cr_RequestID (ParsePayloadAsCreateResult event)
  | ClientDOMElementUpdatedEvent =>
      option_map eu_RequestID (ParsePayloadAsElementUpdated event)
  | ClientDOMObserveResultEvent =>
      option_map ob_ObserverID (ParsePayloadAsObserveResult event)
  | _ => None
  end.

(** A listener as the DOM proxy registers it: with a callback, for the
    event type of that callback only, and waiting, if it waits for a
    reply, for an id that [uuid.New] has given out. *)
Definition listenerConsistent (c : Context) (l : EventListener) : Prop :=
  exists cb, callback l = Some cb
             /\ ListenTo l = [callbackEvent cb]
             /\ forall requestId, callbackRequestID cb = Some requestId ->
                                  generated requestId c.

Record Consistent (c : Context) : Prop := {
  cs_listeners : Forall (listenerConsistent c) (eventListeners c);
  cs_ids : NoDup (map ID (eventListeners c))
}.

(** An id some listener waits for. *)
Definition awaited (requestId : string) (c : Context) : Prop :=
  exists l cb, In l (eventListeners c) /\ callback l = Some cb
               /\ callbackRequestID cb = Some requestId.

(** The envelope in which a message of the client reaches the server. *)
Definition envelope (message : ClientPluginEvent) : WSEvent :=
  mkWSEvent PluginEvent (PayloadObject message).

(** The server takes the messages of the client one after the other. *)
Definition receive (extensionID : string) (messages : list ClientPluginEvent)
           (c : Context) : Context :=
  run extensionID (map (fun message => DoClientEvent (envelope message)) messages) c.

(** Modelled from the spec: the listeners of the client that call the
    handlers of [useDOMManager] are not among the sources.  Section 4.D
    pairs every event of the server with its handler: [dom:query],
    [dom:queryOne], [dom:observe], [dom:stopObserve], [dom:create] and
    [dom:manipulate] are handled with the fields of their payload. *)
Definition clientTakes (document : Document) (event : ServerEvent) (cl : Client)
  : list ClientPluginEvent * Client :=
  match event with
  | ServerDOMQueryEvent selector requestId =>
      (handleDOMQuery cl document selector requestId, cl)
  | ServerDOMQueryOneEvent selector requestId =>
      (handleDOMQueryOne cl document selector requestId, cl)
  | ServerDOMObserveEvent selector observerId =>
      handleDOMObserve cl document selector observerId
  | ServerDOMStopObserveEvent observerId =>
      ([], handleDOMStopObserve cl observerId)
  | ServerDOMCreateEvent tagName requestId =>
      (handleDOMCreate cl document tagName requestId, cl)
  | ServerDOMManipulateEvent elementId action params requestId =>
      (handleDOMManipulate cl document
         (mkManipulateOptions elementId action params requestId), cl)
  | ServerPluginErrorEvent => ([], cl)
  end.

(** The object the script is given for an element of the page. *)
Definition pageElementObject (element : PageElement) : DOMElementObject :=
  createDOMElementObject (domElementFields element).


(** ** Runs of the client *)

(** What happens to the hook, one call at a time: the page has loaded, an
    event of the server arrives, the [MutationObserver] fires, the hook is
    cleaned up. *)
Inductive ClientCall : Type :=
| OnLoad
| OnServerEvent (event : ServerEvent)
| OnMutation
| OnCleanup.

(** One call, on the document as it is at that moment. *)
Definition clientStep (document : Document) (call : ClientCall) (cl : Client)
  : list ClientPluginEvent * Client :=
  match call with
  | OnLoad => sendDOMReadyEvent cl
  | OnServerEvent event => clientTakes document event cl
  | OnMutation => mutationCallback cl document
  | OnCleanup => ([], cleanup cl)
  end.

Fixpoint clientRun (calls : list (Document * ClientCall)) (cl : Client)
  : list ClientPluginEvent * Client :=
  match calls with
  | [] => ([], cl)
  | (document, call) :: rest =>
      let (sent, cl') := clientStep document call cl in
      let (sent', cl'') := clientRun rest cl' in
      (sent ++ sent', cl'')
  end.

(** The messages of one type among those sent. *)
Definition isOfType (type : ClientEventType) (message : ClientPluginEvent) : bool :=
  eventTypeEqb (Type_ message) type.

(** The observe results for one observer among the messages sent. *)
Definition isObserveResultFor (observerId : string) (message : ClientPluginEvent) : bool :=
  eventTypeEqb (Type_ message) ClientDOMObserveResultEvent
  && match ParsePayloadAsObserveResult message with
     | Some payload => String.eqb (ob_ObserverID payload) observerId
     | None => false
     end.

(** The calls that make the client observe for an observer id. *)
Definition observesFor (observerId : string) (call : Document * ClientCall) : bool :=
  match snd call with
  | OnServerEvent (ServerDOMObserveEvent _ o) => String.eqb o observerId
  | _ => false
  end.

(** ** The parameters of a manipulation, on both sides *)

(** The fields of [params] that the case of an action reads in the
    [switch] of [handleDOMManipulate]. *)
Definition paramsRead (action : string) : list string :=
  if String.eqb action "setAttribute" then ["name"; "value"]
  else if String.eqb action "removeAttribute" then ["name"]
  else if String.eqb action "setInnerHTML" then ["html"]
  else if String.eqb action "appendChild" then ["childId"]
  else if String.eqb action "removeChild" then ["childId"]
  else if String.eqb action "getText" then []
  else if String.eqb action "setText" then ["text"]
  else if String.eqb action "getAttribute" then ["name"]
  else if String.eqb action "getAttributes" then []
  else if String.eqb action "hasAttribute" then ["name"]
  else if String.eqb action "getProperty" then ["name"]
  else if String.eqb action "setProperty" then ["name"; "value"]
  else if String.eqb action "addClass" then ["className"]
  else if String.eqb action "removeClass" then ["className"]
  else if String.eqb action "hasClass" then ["className"]
  else if String.eqb action "setStyle" then ["property"; "value"]
  else if String.eqb action "getStyle" then ["property"]
  else if String.eqb action "getComputedStyle" then ["property"]
  else if String.eqb action "append" then ["childId"]
  else if String.eqb action "before" then ["siblingId"]
  else if String.eqb action "after" then ["siblingId"]
  else if String.eqb action "remove" then []
  else if String.eqb action "getParent" then []
  else if String.eqb action "getChildren" then []
  else if String.eqb action "query" then ["selector"; "requestId"]
  else if String.eqb action "queryOne" then ["selector"; "requestId"]
  else if String.eqb action "addEventListener" then ["listenerId"; "event"]
  else if String.eqb action "removeEventListener" then ["listenerId"; "event"]
  else if String.eqb action "getDataAttribute" then ["key"]
  else if String.eqb action "getDataAttributes" then []
  else if String.eqb action "setDataAttribute" then ["key"; "value"]
  else if String.eqb action "removeDataAttribute" then ["key"]
  else if String.eqb action "hasDataAttribute" then ["key"]
  else if String.eqb action "hasStyle" then ["property"]
  else if String.eqb action "removeStyle" then ["property"]
  else [].

(** The parameters of a manipulation that the client's case does not
    read, and the fields that case reads and finds undefined. *)
Definition unreadParams (event : ServerEvent) : list string :=
  match event with
  | ServerDOMManipulateEvent _ action params _ =>
      filter (fun k => negb (existsb (String.eqb k) (paramsRead action)))
             (map fst params)
  | _ => []
  end.

Definition undefinedParams (event : ServerEvent) : list string :=
  match event with
  | ServerDOMManipulateEvent _ action params _ =>
      filter (fun k => negb (existsb (String.eqb k) (map fst params)))
             (paramsRead action)
  | _ => []
  end.

(** The events a call sends. *)
Definition sentBy {A : Type} (m : M A) (c : Context) : list ServerEvent :=
  skipn (List.length (outbox c)) (outbox (exec m c)).

(** ** The [getStyle] method of an element object *)

(** The method [getStyle] that [createDOMElementObject] gives an element
    object: with a first argument that is not undefined it asks for the
    style of that name ([call.Argument(0).String()]), otherwise for all
    styles.  An argument is the string it converts to, or [None] for
    undefined. *)
Definition elementGetStyleMethod (elementId : string) (arguments : list (option string))
  : M nat :=
  match arguments with
  | Some property :: _ => getElementStyle elementId property
  | _ => getElementStyles elementId
  end.

(** The request that the method makes. *)
Definition getStyleRequest (elementId : string) (arguments : list (option string))
  : Request :=
  match arguments with
  | Some property :: _ => ReqGetter GetStyle elementId property
  | _ => ReqGetter GetStyles elementId ""
  end.

(** The object of all styles that the client computes for [getStyle]
    without a property. *)
Definition allStyles (element : ElementView) : Value :=
  VObject (map (fun prop => (prop, VString (styleGetPropertyValue element (VString prop))))
               (styleProperties element)).
End PluginUI.

(* ================================================================== *)
(** * AppContext: modules given in several calls *)
(* ================================================================== *)

Module AppCtxCalls.
Import AppCtx.

(** Modules with every field nil. *)
Definition noModules : AppContextModules :=
  {| Database := None; AnimeLibraryPaths := None; AnilistPlatform := None;
     PlaybackManager := None; MediaPlayerRepository := None;
     WSEventManager := None; OnRefreshAnilistAnimeCollection := None;
     OnRefreshAnilistMangaCollection := None |}.

(** The modules of two calls of [SetModulesPartial] taken together: a field
    of the later call replaces the field of the earlier one unless it is
    nil. *)
Definition laterModules (earlier later : AppContextModules) : AppContextModules :=
  {| Database := setIfNotNil (Database later) (Database earlier);
     AnimeLibraryPaths :=
       setIfNotNil (AnimeLibraryPaths later) (AnimeLibraryPaths earlier);
     AnilistPlatform := setIfNotNil (AnilistPlatform later) (AnilistPlatform earlier);
     PlaybackManager := setIfNotNil (PlaybackManager later) (PlaybackManager earlier);
     MediaPlayerRepository :=
       setIfNotNil (MediaPlayerRepository later) (MediaPlayerRepository earlier);
     WSEventManager := setIfNotNil (WSEventManager later) (WSEventManager earlier);
     OnRefreshAnilistAnimeCollection :=
       setIfNotNil (OnRefreshAnilistAnimeCollection later)
                   (OnRefreshAnilistAnimeCollection earlier);
     OnRefreshAnilistMangaCollection :=
       setIfNotNil (OnRefreshAnilistMangaCollection later)
                   (OnRefreshAnilistMangaCollection earlier) |}.

(** A handle of the context is set. *)
Definition isSet {A : Type} (field : option A) : Prop := field <> None.

End AppCtxCalls.

(* ================================================================== *)
(** * The matcher of the scanner (internal/scanner/matcher.go) *)
(* ================================================================== *)

Module Scanner.

(** Modelled from the spec: [LocalFile] and its methods [GetParsedTitle]
    and [GetTitleVariations] are declared in another file of package
    scanner, which is not among the sources, and the spec does not
    describe them.  A local file is taken as the record of what the
    matcher reads of it: its media id and the results of the two
    getters. *)
Record LocalFile : Type := mkLocalFile {
  MediaId : Z;
  parsedTitle : string;
  titleVariations : list string
}.

Definition GetParsedTitle (lf : LocalFile) : string := parsedTitle lf.
Definition GetTitleVariations (lf : LocalFile) : list string := titleVariations lf.

(** Modelled from the spec: [anilist.BaseMedia] and [MediaContainer] are
    declared outside the sources; the matcher reads the length of
    [allMedia] only. *)
Inductive BaseMedia : Type := mkBaseMedia (id : Z).

Record MediaContainer : Type := mkMediaContainer {
  allMedia : list BaseMedia
}.

(** [Matcher]: [localFiles] is a slice of pointers and [mediaContainer] a
    pointer, either may be nil ([None]); [matchingCache] is the list of
    the entries of its [result.Cache] (the base media cache is not read
    by any function of the file). *)
Record Matcher : Type := mkMatcher {
  localFiles : list (option LocalFile);
  mediaContainer : option MediaContainer;
  matchingCache : list (list string * Z)
}.

Record MatcherOptions : Type := mkMatcherOptions {
  optLocalFiles : list (option LocalFile);
  optMediaContainer : option MediaContainer
}.

(** [NewMatcher]: the options are copied, the matching cache is new. *)
Definition NewMatcher (opts : MatcherOptions) : Matcher :=
  {| localFiles := optLocalFiles opts;
     mediaContainer := optMediaContainer opts;
     matchingCache := [] |}.

(** What a call comes to: it returns nil or an error, or the goroutine
    panics on a nil pointer. *)
Inductive Outcome : Type :=
| ReturnedNil
| ReturnedError (message : string)
| Panicked.

(** [FindBestCorrespondingMedia]: the local file after the call, [None]
    when [lf] is nil and [lf.MediaId] panics.  The body ends after the
    title variations have been read. *)
Definition FindBestCorrespondingMedia (m : Matcher) (lf : option LocalFile)
  : option LocalFile :=
  match lf with
  | None => None
  | Some file =>
      if negb (Z.eqb (MediaId file) 0) then Some file
      else if String.eqb (GetParsedTitle file) "" then Some file
      else let _ := GetTitleVariations file in Some file
  end.

(** [lop.ForEach]: the function is called on every element; the files
    after the calls, [None] when a call panics. *)
Fixpoint forEachLocalFile (f : option LocalFile -> option LocalFile)
         (files : list (option LocalFile)) : option (list (option LocalFile)) :=
  match files with
  | [] => Some []
  | lf :: rest =>
      match f lf, forEachLocalFile f rest with
      | Some file, Some rest' => Some (Some file :: rest')
      | _, _ => None
      end
  end.

(** [MatchLocalFilesWithMedia]: the outcome and the matcher after the
    call. *)
Definition MatchLocalFilesWithMedia (m : Matcher) : Outcome * Matcher :=
  if Nat.eqb (List.length (localFiles m)) 0 then
    (ReturnedError "[matcher] no local files", m)
  else
    match mediaContainer m with
    | None => (Panicked, m)
    | Some container =>
        if Nat.eqb (List.length (allMedia container)) 0 then
          (ReturnedError "[matcher] no media fed into the matcher", m)
        else
          match forEachLocalFile (FindBestCorrespondingMedia m) (localFiles m) with
          | Some files =>
              (ReturnedNil,
               {| localFiles := files; mediaContainer := mediaContainer m;
                  matchingCache := matchingCache m |})
          | None => (Panicked, m)
          end
    end.

(** [ValideMatches]: the body is empty. *)
Definition ValideMatches (m : Matcher) : Matcher := m.

End Scanner.

(* ================================================================== *)
(** * The extension repository (internal/extension_repo/repository.go) *)
(* ================================================================== *)

Module ExtensionRepo.

(** Modelled from the spec: package [extension] is not among the sources
    and the spec does not describe it.  [InvalidExtensionErrorCode] is a
    type of codes of which [GetAllExtensions] names one constant,
    [InvalidExtensionUserConfigError]; every other code is
    [InvalidExtensionOtherError]. *)
Inductive InvalidExtensionErrorCode : Type :=
| InvalidExtensionUserConfigError
| InvalidExtensionOtherError (code : string).

Definition codeEqb (a b : InvalidExtensionErrorCode) : bool :=
  match a, b with
  | InvalidExtensionUserConfigError, InvalidExtensionUserConfigError => true
  | InvalidExtensionOtherError x, InvalidExtensionOtherError y => String.eqb x y
  | _, _ => false
  end.

(** Modelled from the spec: [extension.InvalidExtension] and
    [extension.Extension], of which the repository reads the id and the
    code. *)
Record InvalidExtension : Type := mkInvalidExtension {
  invalidID : string;
  Code : InvalidExtensionErrorCode
}.

Record Extension : Type := mkExtension {
  extensionDataID : string;
  extensionDataName : string
}.

Record UpdateData : Type := mkUpdateData {
  updExtensionID : string;
  updManifestURI : string;
  updVersion : string
}.

(** The repository: the data of the extensions of the bank and the
    invalid extensions, each map as the list [Range] goes through, and
    what [checkForUpdates] (declared in another file of the package)
    returns when it is called. *)
Record Repository : Type := mkRepository {
  extensionBank : list Extension;
  invalidExtensions : list InvalidExtension;
  checkForUpdates : list UpdateData
}.

Record AllExtensions : Type := mkAllExtensions {
  Extensions : list Extension;
  InvalidExtensions : list InvalidExtension;
  InvalidUserConfigExtensions : list InvalidExtension;
  HasUpdate : option (list UpdateData)        (* nil unless assigned *)
}.

Definition ListExtensionData (r : Repository) : list Extension :=
  fold_left (fun ret ext => ret ++ [ext]) (extensionBank r) [].

Definition ListInvalidExtensions (r : Repository) : list InvalidExtension :=
  fold_left (fun ret ext => ret ++ [ext]) (invalidExtensions r) [].

Definition GetAllExtensions (r : Repository) (withUpdates : bool) : AllExtensions :=
  let invalid := ListInvalidExtensions r in
  let fatalInvalidExtensions :=
    filter (fun ext => negb (codeEqb (Code ext) InvalidExtensionUserConfigError))
           invalid in
  let userConfigInvalidExtensions :=
    filter (fun ext => codeEqb (Code ext) InvalidExtensionUserConfigError) invalid in
  {| Extensions := ListExtensionData r;
     InvalidExtensions := fatalInvalidExtensions;
     InvalidUserConfigExtensions := userConfigInvalidExtensions;
     HasUpdate := if withUpdates then Some (checkForUpdates r) else None |}.

End ExtensionRepo.

(* ================================================================== *)
(** * The endpoint keys of the code generator (package codegen) *)
(* ================================================================== *)

Module Codegen.

(** A Go string is the sequence of its bytes.  The functions below are
    those of package [strings] on strings of ASCII characters, where a
    byte is a rune. *)

Definition isUpper (v : ascii) : bool :=
  Nat.leb 65 (nat_of_ascii v) && Nat.leb (nat_of_ascii v) 90.

Definition toLowerRune (v : ascii) : ascii :=
  if isUpper v then ascii_of_nat (nat_of_ascii v + 32) else v.

(** [strings.ToLower] *)
Fixpoint ToLower (s : string) : string :=
  match s with
  | EmptyString => EmptyString
  | String v rest => String (toLowerRune v) (ToLower rest)
  end.

(** [strings.HasPrefix] and [strings.TrimPrefix] *)
Fixpoint HasPrefix (s prefix : string) : bool :=
  match prefix, s with
  | EmptyString, _ => true
  | String p prefix', String v s' => Ascii.eqb p v && HasPrefix s' prefix'
  | String _ _, EmptyString => false
  end.

Fixpoint dropBytes (n : nat) (s : string) : string :=
  match n, s with
  | 0, _ => s
  | S n', String _ s' => dropBytes n' s'
  | S _, EmptyString => EmptyString
  end.

Definition TrimPrefix (s prefix : string) : string :=
  if HasPrefix s prefix then dropBytes (String.length prefix) s else s.

(** [strings.Contains] *)
Fixpoint Contains (s substr : string) : bool :=
  HasPrefix s substr
  || match s with
     | EmptyString => false
     | String _ s' => Contains s' substr
     end.

(** [strings.Replace(s, old, new, 1)] for a non-empty [old]: the first
    occurrence is replaced. *)
Fixpoint ReplaceFirst (s old new : string) : string :=
  if HasPrefix s old then new ++ dropBytes (String.length old) s
  else match s with
       | EmptyString => EmptyString
       | String v s' => String v (ReplaceFirst s' old new)
       end.

(** [strings.ReplaceAll(s, old, new)] for [old] and [new] of one
    character each. *)
Fixpoint ReplaceAllRune (s : string) (old new : ascii) : string :=
  match s with
  | EmptyString => EmptyString
  | String v s' =>
      String (if Ascii.eqb v old then new else v) (ReplaceAllRune s' old new)
  end.

(** The loop of [getEndpointKey]: a dash goes before every upper-case
    letter but one at index 0.  [first] tells whether the index is 0. *)
Fixpoint dashBeforeUpper (first : bool) (s : string) : string :=
  match s with
  | EmptyString => EmptyString
  | String v rest =>
      (if negb first && isUpper v then String "-" (String v EmptyString)
       else String v EmptyString)
      ++ dashBeforeUpper false rest
  end.

(** The handler name in lower case with dashes, and with the dashes taken
    out of the first [t-v-d-b] and the first [m-a-l]. *)
Definition endpointName (s : string) : string :=
  let s := TrimPrefix s "Handle" in
  let result := dashBeforeUpper true s in
  let result := ToLower result in
  let result := if Contains result "t-v-d-b"
                then ReplaceFirst result "t-v-d-b" "tvdb" else result in
  let result := if Contains result "m-a-l"
                then ReplaceFirst result "m-a-l" "mal" else result in
  result.

(** [getEndpointKey] *)
Definition getEndpointKey (s groupName : string) : string :=
  ReplaceAllRune groupName "_" "-" ++ "-" ++ endpointName s.

(** The characters of a string satisfy a test. *)
Fixpoint allRunes (p : ascii -> bool) (s : string) : bool :=
  match s with
  | EmptyString => true
  | String v rest => p v && allRunes p rest
  end.

Definition isASCII (v : ascii) : bool := Nat.ltb (nat_of_ascii v) 128.

End Codegen.

(* ================================================================== *)
(** * Properties of the AppContext *)
(* ================================================================== *)

Section AppContextFacts.
Import AppCtx.

(** A handle that [SetModulesPartial] assigns is set when its module is
    not nil and kept when it is. *)
Lemma setIfNotNil_spec (A : Type) (m field : option A) :
  setIfNotNil m field = match m with Some x => Some x | None => field end.
Proof. reflexivity. Qed.

Lemma SetModulesPartial_Database a modules :
  GetDatabase (SetModulesPartial a modules)
  = match Database modules with Some d => Some d | None => GetDatabase a end.
Proof. reflexivity. Qed.

Lemma SetModulesPartial_PlaybackManager a modules :
  GetPlaybackManager (SetModulesPartial a modules)
  = match PlaybackManager modules with
    | Some d => Some d
    | None => GetPlaybackManager a
    end.
Proof. reflexivity. Qed.

Lemma SetModulesPartial_AnilistPlatform a modules :
  GetAnilistPlatform (SetModulesPartial a modules)
  = match AnilistPlatform modules with
    | Some d => Some d
    | None => GetAnilistPlatform a
    end.
Proof. reflexivity. Qed.

Lemma SetModulesPartial_WSEventManager a modules :
  GetWSEventManager (SetModulesPartial a modules)
  = match WSEventManager modules with
    | Some d => Some d
    | None => GetWSEventManager a
    end.
Proof. reflexivity. Qed.

(** A context on which nothing was set has no handle. *)
Lemma NewAppContext_unset :
  GetDatabase NewAppContext = None
  /\ GetPlaybackManager NewAppContext = None
  /\ GetMediaPlayerRepository NewAppContext = None
  /\ GetAnilistPlatform NewAppContext = None
  /\ GetWSEventManager NewAppContext = None.
Proof. repeat split. Qed.

(** C9: [SetModulesPartial] never assigns the media player repository:
    whatever [MediaPlayerRepository] the modules carry, the handle stays
    what it was, and on a new context with a module that is not nil it
    stays unset, where the specification has it set. *)
Theorem SetModulesPartial_skips_MediaPlayerRepository :
  (forall a modules,
      GetMediaPlayerRepository (SetModulesPartial a modules)
      = GetMediaPlayerRepository a)
  /\ MediaPlayerRepository (onlyMediaPlayerRepository (mkHandle 1)) = Some (mkHandle 1)
  /\ GetMediaPlayerRepository
       (SetModulesPartial NewAppContext (onlyMediaPlayerRepository (mkHandle 1)))
     = None.
Proof. repeat split. Qed.

End AppContextFacts.

(* ================================================================== *)
(** * Properties of the plugin UI *)
(* ================================================================== *)

Import PluginUI.
Local Open Scope ctx_scope.

(** ** The fan-out of client events *)

Lemma eventTypeEqb_true a b : eventTypeEqb a b = true <-> a = b.
Proof.
  unfold eventTypeEqb. destruct (ClientEventType_eq_dec a b); split; congruence.
Qed.

Lemma route_ToListeners extID ev ce :
  route extID ev = ToListeners ce
  <-> wsType ev = PluginEvent
      /\ wsPayload ev = PayloadObject ce
      /\ (ExtensionID ce = "" \/ ExtensionID ce = extID)
      /\ Type_ ce <> ClientRenderTraysEvent
      /\ Type_ ce <> ClientRenderTrayEvent.
Proof.
  unfold route. destruct ev as [ty pl]; simpl. split.
  - destruct ty; [|discriminate]. destruct pl as [ce'|v]; [|discriminate].
    destruct (String.eqb (ExtensionID ce') "") eqn:E1;
      destruct (String.eqb (ExtensionID ce') extID) eqn:E2; simpl;
      try discriminate;
      destruct (Type_ ce') eqn:T; try discriminate;
      intros H; injection H as <-;
      (repeat split; try congruence;
       try (apply String.eqb_eq in E1; now left);
       try (apply String.eqb_eq in E2; now right)).
  - intros (-> & -> & Hext & H1 & H2).
    assert (String.eqb (ExtensionID ce) "" || String.eqb (ExtensionID ce) extID = true)
      as ->.
    { apply orb_true_iff. destruct Hext as [H|H]; [left|right];
        now apply String.eqb_eq. }
    destruct (Type_ ce); congruence.
Qed.

Lemma listenerSends_all_event listener ce e :
  In e (listenerSends listener ce) -> e = ce.
Proof.
  unfold listenerSends. destruct (Nat.ltb 0 (List.length (ListenTo listener))).
  - intros H. apply in_flat_map in H as (t & _ & H).
    destruct (eventTypeEqb t (Type_ ce)); simpl in H; intuition.
  - simpl. intuition.
Qed.

Lemma listenerSends_length listener ce :
  List.length (listenerSends listener ce)
  = match ListenTo listener with
    | [] => 1
    | _ => count_occ ClientEventType_eq_dec (ListenTo listener) (Type_ ce)
    end.
Proof.
  unfold listenerSends. destruct (ListenTo listener) as [|t ts] eqn:E; [reflexivity|].
  change (Nat.ltb 0 (List.length (t :: ts))) with true. cbv iota.
  generalize (t :: ts). clear. intros l.
  induction l as [|x l IH]; simpl; [reflexivity|].
  rewrite length_app, IH. unfold eventTypeEqb.
  destruct (ClientEventType_eq_dec x (Type_ ce)); reflexivity.
Qed.

Lemma listenerSends_nonempty listener ce :
  listenerSends listener ce <> []
  <-> ListenTo listener = [] \/ In (Type_ ce) (ListenTo listener).
Proof.
  rewrite <- length_zero_iff_nil, listenerSends_length.
  destruct (ListenTo listener) as [|t ts] eqn:E.
  - split; [now left | discriminate].
  - rewrite (count_occ_In ClientEventType_eq_dec). split.
    + intros H. right. lia.
    + intros [H|H]; [discriminate | lia].
Qed.

Lemma fanOut_spec listeners ce id e :
  In (id, e) (fanOut listeners ce)
  <-> e = ce /\ exists l, In l listeners /\ ID l = id
                          /\ (ListenTo l = [] \/ In (Type_ ce) (ListenTo l)).
Proof.
  unfold fanOut. rewrite in_flat_map. split.
  - intros (l & Hl & H). apply in_map_iff in H as (e' & [= <- <-] & He).
    split; [eapply listenerSends_all_event; eauto|].
    exists l. repeat split; auto. apply listenerSends_nonempty.
    intros E. now rewrite E in He.
  - intros (-> & l & Hl & <- & H). exists l. split; auto.
    apply in_map. apply listenerSends_nonempty in H.
    destruct (listenerSends l ce) as [|e0 r] eqn:E; [congruence|].
    assert (e0 = ce) as -> by (eapply listenerSends_all_event; rewrite E; now left).
    now left.
Qed.

(** C2, as the code has it: an envelope reaches the listeners exactly when
    it is a [PluginEvent] whose payload is an object, whose extension id is
    empty or the plugin's, and whose type is not one of the two tray
    render types; a listener is then sent the event once if its filter
    list is empty and once per occurrence of the event's type in the list
    otherwise, so it receives the event exactly when its list is empty or
    holds the type. *)
Theorem client_event_fan_out :
  forall (extID : string) (ev : WSEvent) (ce : ClientPluginEvent),
    (route extID ev = ToListeners ce
     <-> wsType ev = PluginEvent
         /\ wsPayload ev = PayloadObject ce
         /\ (ExtensionID ce = "" \/ ExtensionID ce = extID)
         /\ Type_ ce <> ClientRenderTraysEvent
         /\ Type_ ce <> ClientRenderTrayEvent)
    /\ (forall listener,
           List.length (listenerSends listener ce)
           = match ListenTo listener with
             | [] => 1
             | _ => count_occ ClientEventType_eq_dec (ListenTo listener) (Type_ ce)
             end)
    /\ (forall listeners id e,
           In (id, e) (fanOut listeners ce)
           <-> e = ce /\ exists l, In l listeners /\ ID l = id
                                   /\ (ListenTo l = [] \/ In (Type_ ce) (ListenTo l))).
Proof.
  intros extID ev ce. split; [apply route_ToListeners|].
  split; [intros; apply listenerSends_length | intros; apply fanOut_spec].
Qed.

(** C2: the sentence of the specification fails on a tray render event:
    its extension id is empty, and yet no listener is sent it, not even one
    without a filter. *)
Lemma tray_render_event_reaches_no_listener :
  let ce := mkClientEvent "" ClientRenderTraysEvent VNil in
  let ev := mkWSEvent PluginEvent (PayloadObject ce) in
  let c := exec (RegisterEventListener []) NewContext in
  ExtensionID ce = ""
  /\ eventListeners c = [mkEventListener "0" [] None]
  /\ route "my-plugin" ev = ToTrayManager
  /\ (forall ce', route "my-plugin" ev <> ToListeners ce')
  /\ exec (handleWSEvent "my-plugin" ev) c = setTrayRenders 1 c.
Proof.
  cbv zeta. repeat split. intros ce'. discriminate.
Qed.

(** ** Listener channels *)

Lemma chanSend_Blocked ch e :
  chanSend ch e = Blocked <-> capacity ch <= List.length (buffer ch).
Proof.
  unfold chanSend.
  destruct (Nat.ltb_spec (List.length (buffer ch)) (capacity ch)); split;
    intros; try discriminate; try lia; reflexivity.
Qed.

Lemma chanSend_Sent ch e ch' :
  chanSend ch e = Sent ch'
  <-> List.length (buffer ch) < capacity ch
      /\ ch' = {| capacity := capacity ch; buffer := buffer ch ++ [e] |}.
Proof.
  unfold chanSend.
  destruct (Nat.ltb_spec (List.length (buffer ch)) (capacity ch)); split.
  - intros [= <-]. auto.
  - intros [_ ->]. reflexivity.
  - discriminate.
  - intros [? _]. lia.
Qed.

Lemma linkStep_inTransit s l : inTransit (linkStep s l) = inTransit l.
Proof.
  unfold inTransit. destruct s; simpl.
  - destruct (toSend l) as [|e rest] eqn:E; [now rewrite E|].
    destruct (chanSend (chan l) e) as [ch|] eqn:S; [|now rewrite E].
    apply chanSend_Sent in S as [_ ->]. simpl.
    now rewrite <- !app_assoc.
  - unfold chanRecv. destruct (buffer (chan l)) as [|e rest] eqn:E; simpl.
    + now rewrite E.
    + now rewrite <- !app_assoc.
Qed.

Lemma linkStep_capacity s l : capacity (chan (linkStep s l)) = capacity (chan l).
Proof.
  destruct s; simpl.
  - destruct (toSend l) as [|e rest]; [reflexivity|].
    destruct (chanSend (chan l) e) as [ch|] eqn:S; [|reflexivity].
    apply chanSend_Sent in S as [_ ->]. reflexivity.
  - unfold chanRecv. destruct (buffer (chan l)); reflexivity.
Qed.

Lemma linkStep_bound s l :
  List.length (buffer (chan (linkStep s l)))
  <= Nat.max (List.length (buffer (chan l))) (capacity (chan l)).
Proof.
  destruct s; cbn [linkStep].
  - destruct (toSend l) as [|e rest]; [lia|].
    destruct (chanSend (chan l) e) as [ch|] eqn:S; [|lia].
    apply chanSend_Sent in S as [Hlt ->]. cbn [buffer chan capacity].
    rewrite length_app. cbn [List.length]. lia.
  - unfold chanRecv. destruct (buffer (chan l)) as [|e rest] eqn:E;
      cbn [buffer chan capacity List.length]; rewrite ?E; cbn [List.length]; lia.
Qed.

Lemma linkRun_invariant steps : forall l,
  inTransit (linkRun steps l) = inTransit l
  /\ capacity (chan (linkRun steps l)) = capacity (chan l)
  /\ List.length (buffer (chan (linkRun steps l)))
     <= Nat.max (List.length (buffer (chan l))) (capacity (chan l)).
Proof.
  induction steps as [|s steps IH]; intros l; simpl.
  - repeat split; lia.
  - destruct (IH (linkStep s l)) as (H1 & H2 & H3).
    rewrite H1, H2, linkStep_inTransit, linkStep_capacity.
    repeat split. rewrite linkStep_capacity in H3.
    pose proof (linkStep_bound s l). lia.
Qed.

(** C6, as the code has it: the send on a listener's channel is a plain
    channel send.  It blocks exactly when the channel is full and queues
    the event behind the others when it is not; however sender and
    listener take turns, no event is dropped or reordered (what the
    listener received, what the channel holds and what is still to be sent
    are, in this order, always the events given to the sender), and the
    channel holds no more than its capacity (or than it held at first). *)
Theorem listener_channel_send_blocks_when_full :
  forall (steps : list LinkStep) (l : Link),
    (forall ch e, chanSend ch e = Blocked <-> capacity ch <= List.length (buffer ch))
    /\ (forall ch e ch',
           chanSend ch e = Sent ch'
           <-> List.length (buffer ch) < capacity ch
               /\ ch' = {| capacity := capacity ch; buffer := buffer ch ++ [e] |})
    /\ received (linkRun steps l) ++ buffer (chan (linkRun steps l))
         ++ toSend (linkRun steps l)
       = received l ++ buffer (chan l) ++ toSend l
    /\ capacity (chan (linkRun steps l)) = capacity (chan l)
    /\ List.length (buffer (chan (linkRun steps l)))
       <= Nat.max (List.length (buffer (chan l))) (capacity (chan l)).
Proof.
  intros steps l.
  split; [intros; apply chanSend_Blocked|].
  split; [intros; apply chanSend_Sent|].
  apply (linkRun_invariant steps l).
Qed.

(** C6: the sentence of the specification fails on a full channel: with
    one event queued in a channel of capacity one, the send of a second
    event blocks and the first event stays queued, where the specification
    has the first dropped, the second queued and the sender free to go
    on. *)
Lemma full_channel_send_drops_nothing :
  let e1 := mkClientEvent "" ClientDOMReadyEvent (VNumber 1) in
  let e2 := mkClientEvent "" ClientDOMReadyEvent (VNumber 2) in
  let full := {| capacity := 1; buffer := [e1] |} in
  let l := {| toSend := [e2]; chan := full; received := [] |} in
  chanSend full e2 = Blocked
  /\ specDropOldestSend full e2 = Sent {| capacity := 1; buffer := [e2] |}
  /\ chanSend full e2 <> specDropOldestSend full e2
  /\ linkStep SenderStep l = l
  /\ received (linkRun [SenderStep; ReceiverStep; SenderStep; ReceiverStep] l) = [e1; e2].
Proof.
  cbv zeta. repeat split. discriminate.
Qed.

(** ** The effect budget *)

Lemma effectRuns_app (a b : list EffectEvent) : forall c,
  effectRuns (a ++ b) c
  = (fst (effectRuns a c) + fst (effectRuns b (snd (effectRuns a c))),
     snd (effectRuns b (snd (effectRuns a c)))).
Proof.
  induction a as [|e a IH]; intros c; simpl.
  - now destruct (effectRuns b c).
  - destruct (effectStep e c) as [ran c1]. rewrite IH.
    destruct (effectRuns a c1) as [n c2]. simpl.
    destruct (effectRuns b c2). simpl. f_equal. lia.
Qed.

Lemma effectRuns_interrupted n : forall c,
  interrupted c = true -> effectRuns (repeat EffectRun n) c = (0, c).
Proof.
  induction n as [|n IH]; intros c Hc; simpl; [reflexivity|].
  rewrite Hc. now rewrite IH.
Qed.

(** From a context that is not interrupted and has counted [k] effects,
    [n] effects that are due run until the budget is used up; the next one
    interrupts the VM. *)
Lemma effectRuns_window n : forall c,
  interrupted c = false ->
  fst (effectRuns (repeat EffectRun n) c)
  = Nat.min n (MAX_EFFECT_CALLBACKS - effectCalls c)
  /\ interrupted (snd (effectRuns (repeat EffectRun n) c))
     = Nat.ltb (MAX_EFFECT_CALLBACKS - effectCalls c) n.
Proof.
  induction n as [|n IH]; intros c Hc.
  - simpl. rewrite Hc. split; [lia|reflexivity].
  - cbn [repeat effectRuns effectStep]. rewrite Hc.
    destruct (Nat.ltb_spec (effectCalls c) MAX_EFFECT_CALLBACKS) as [Hlt|Hge].
    + destruct (IH (setEffectCalls (S (effectCalls c)) c) Hc) as [H1 H2].
      destruct (effectRuns (repeat EffectRun n) (setEffectCalls (S (effectCalls c)) c))
        as [m c'] eqn:E.
      cbn [fst snd] in *. cbn [effectCalls setEffectCalls] in *. split.
      * rewrite H1. lia.
      * rewrite H2.
        destruct (Nat.ltb_spec (MAX_EFFECT_CALLBACKS - S (effectCalls c)) n);
          destruct (Nat.ltb_spec (MAX_EFFECT_CALLBACKS - effectCalls c) (S n));
          try reflexivity; lia.
    + rewrite effectRuns_interrupted by reflexivity.
      cbn [fst snd interrupted setInterrupted]. split.
      * lia.
      * symmetry. apply Nat.ltb_lt. lia.
Qed.

(** C3: in a reset window, that is after any events that end with a reset,
    [n] effects that are due lead to [min n MAX_EFFECT_CALLBACKS]
    executions (none if the VM is interrupted already), so to at most 100,
    and the VM is interrupted at the end exactly if it was before or more
    than [MAX_EFFECT_CALLBACKS] effects were due. *)
Theorem effect_budget_per_reset_window :
  forall (before : list EffectEvent) (n : nat) (c : Context),
    let opened := snd (effectRuns (before ++ [EffectReset]) c) in
    let window := effectRuns (repeat EffectRun n) opened in
    MAX_EFFECT_CALLBACKS = 100
    /\ RESET_EFFECT_CALLBACK_INTERVAL = 1000000000%Z
    /\ fst window <= MAX_EFFECT_CALLBACKS
    /\ fst window = (if interrupted opened then 0 else Nat.min n MAX_EFFECT_CALLBACKS)
    /\ interrupted (snd window)
       = (interrupted opened || Nat.ltb MAX_EFFECT_CALLBACKS n)%bool.
Proof.
  intros before n c opened window.
  assert (Hcalls : effectCalls opened = 0).
  { unfold opened. rewrite effectRuns_app. reflexivity. }
  split; [reflexivity|]. split; [reflexivity|].
  destruct (interrupted opened) eqn:Hi.
  - unfold window. rewrite effectRuns_interrupted by assumption.
    cbn [fst snd]. rewrite Hi. repeat split. lia.
  - destruct (effectRuns_window n opened Hi) as [H1 H2].
    fold window in H1, H2. rewrite Hcalls, Nat.sub_0_r in H1, H2.
    rewrite H1, H2. repeat split. apply Nat.le_min_r.
Qed.

(** ** The exception budget *)

Lemma handleException_spec c :
  exceptionCount (exec handleException c) = S (exceptionCount c)
  /\ (if Nat.ltb MAX_EXCEPTIONS (S (exceptionCount c))
      then interrupted (exec handleException c) = true
           /\ outbox (exec handleException c) = outbox c ++ [ServerPluginErrorEvent]
      else interrupted (exec handleException c) = interrupted c
           /\ outbox (exec handleException c) = outbox c).
Proof.
  unfold handleException, exec, bind, modify, gets, SendEventToClient, ret.
  cbn [fst snd exceptionCount setExceptionCount].
  destruct (Nat.ltb MAX_EXCEPTIONS (S (exceptionCount c))); cbn; auto.
Qed.

Lemma exceptions_spec n :
  exceptionCount (exceptions n NewContext) = n
  /\ interrupted (exceptions n NewContext) = Nat.ltb MAX_EXCEPTIONS n
  /\ count isPluginError (outbox (exceptions n NewContext)) = n - MAX_EXCEPTIONS.
Proof.
  induction n as [|n (IH1 & IH2 & IH3)]; [repeat split|].
  cbn [exceptions].
  destruct (handleException_spec (exceptions n NewContext)) as [H1 H2].
  rewrite IH1 in H1, H2. split; [exact H1|].
  destruct (Nat.ltb_spec MAX_EXCEPTIONS (S n)) as [Hlt|Hge].
  - destruct H2 as [-> ->]. split; [reflexivity|].
    unfold count in *. rewrite filter_app, length_app, IH3.
    cbn [filter isPluginError List.length]. unfold MAX_EXCEPTIONS in *. lia.
  - destruct H2 as [-> ->]. rewrite IH2, IH3.
    split; [|unfold MAX_EXCEPTIONS in *; lia].
    apply Nat.ltb_ge. unfold MAX_EXCEPTIONS in *. lia.
Qed.

(** C4: every exception adds one to the counter; the exception that takes
    the counter above [MAX_EXCEPTIONS] (the sixth) interrupts the VM and
    sends a plugin error event, the ones before change neither; and an
    exception of the script function that a scheduled task calls (a ready
    handler, the callback of an observer) is counted this way. *)
Theorem exception_budget :
  MAX_EXCEPTIONS = 5
  /\ (forall c,
         exceptionCount (exec handleException c) = S (exceptionCount c)
         /\ (if Nat.ltb MAX_EXCEPTIONS (S (exceptionCount c))
             then interrupted (exec handleException c) = true
                  /\ outbox (exec handleException c)
                     = outbox c ++ [ServerPluginErrorEvent]
             else interrupted (exec handleException c) = interrupted c
                  /\ outbox (exec handleException c) = outbox c))
  /\ (forall n,
         exceptionCount (exceptions n NewContext) = n
         /\ interrupted (exceptions n NewContext) = Nat.ltb MAX_EXCEPTIONS n
         /\ count isPluginError (outbox (exceptions n NewContext)) = n - MAX_EXCEPTIONS)
  /\ (forall fn payload c,
         exec (runTask (OnReadyTask fn payload) true) c
         = exec handleException (exec (vmCall (CallOnReady fn payload)) c))
  /\ (forall observerID elements observer c,
         mapGet obsID observerID (elementObservers c) = Some observer ->
         exec (runTask (ObserverTask observerID elements) true) c
         = exec handleException
             (exec (vmCall (CallObserver observerID (obsCallback observer)
                                         (elementObjects elements))) c)).
Proof.
  split; [reflexivity|].
  split; [apply handleException_spec|].
  split; [apply exceptions_spec|].
  split.
  - intros fn payload c. reflexivity.
  - intros observerID elements observer c H. cbn [runTask].
    unfold exec, bind, gets. cbn [fst snd]. rewrite H. reflexivity.
Qed.

(** ** Runs of a plugin: how to prove an invariant *)

Lemma uuidString_inj a b : uuidString a = uuidString b -> a = b.
Proof.
  unfold uuidString. intros H.
  apply (f_equal NilEmpty.uint_of_string) in H.
  rewrite !NilEmpty.usu in H. injection H as H.
  now apply DecimalNat.Unsigned.to_uint_inj.
Qed.

Lemma exec_bind (A B : Type) (m : M A) (k : A -> M B) c :
  exec (bind m k) c = exec (k (fst (m c))) (snd (m c)).
Proof. unfold exec, bind. now destruct (m c). Qed.

Lemma exec_deliverAll_cons send sends c :
  exec (deliverAll (send :: sends)) c
  = exec (deliverAll sends) (exec (deliver (fst send) (snd send)) c).
Proof. unfold deliverAll. cbn [fold_right]. now rewrite exec_bind. Qed.

Lemma mapGet_Some (V : Type) (key : V -> string) k (m : list V) v :
  mapGet key k m = Some v -> In v m /\ key v = k.
Proof.
  unfold mapGet. intros H. apply find_some in H as [H1 H2].
  split; [assumption | now apply String.eqb_eq].
Qed.

Lemma mapGet_None (V : Type) (key : V -> string) k (m : list V) :
  mapGet key k m = None <-> existsb (fun v => String.eqb (key v) k) m = false.
Proof.
  unfold mapGet. induction m as [|v m IH]; simpl; [tauto|].
  destruct (String.eqb (key v) k); simpl; [split; discriminate | exact IH].
Qed.

Section RunInvariant.
Variable P : Context -> Prop.
Variable extID : string.
Hypothesis P_issue : forall r c, P c -> P (exec (issue r) c).
Hypothesis P_observe : forall sel cb c, P c -> P (exec (jsObserve sel cb) c).
Hypothesis P_onReady : forall cb c, P c -> P (exec (jsOnReady cb) c).
Hypothesis P_setter : forall e a p c, P c -> P (exec (elementSetter e a p) c).
Hypothesis P_cancel : forall f c, P c -> P (exec (runCancelFn f) c).
Hypothesis P_refetch : forall f c, P c -> P (exec (runRefetchFn f) c).
Hypothesis P_tray : forall c, P c -> P (setTrayRenders (S (trayRenders c)) c).
Hypothesis P_callback : forall l cb ev c,
  P c -> In l (eventListeners c) -> callback l = Some cb ->
  P (exec (runListenerCallback cb ev) c).
Hypothesis P_task : forall t rest throws c,
  P c -> interrupted c = false -> scheduled c = t :: rest ->
  P (exec (runTask t throws) (setScheduled rest c)).
Hypothesis P_cleared : forall c, P c -> P (setOnCleanup [] c).

Lemma deliver_invariant id ev c : P c -> P (exec (deliver id ev) c).
Proof.
  intros Hc. unfold deliver. rewrite exec_bind. unfold gets. cbn [fst snd].
  destruct (mapGet ID id (eventListeners c)) as [l|] eqn:E; [|exact Hc].
  apply mapGet_Some in E as [Hin _].
  destruct (callback l) as [cb|] eqn:Ecb; [|exact Hc].
  now apply P_callback with l.
Qed.

Lemma deliverAll_invariant sends : forall c, P c -> P (exec (deliverAll sends) c).
Proof.
  induction sends as [|s sends IH]; intros c Hc; [exact Hc|].
  rewrite exec_deliverAll_cons. apply IH. now apply deliver_invariant.
Qed.

Lemma cancelAll_invariant fs : forall c,
  P c -> P (exec (fold_right (fun f k => runCancelFn f ;; k) (ret tt) fs) c).
Proof.
  induction fs as [|f fs IH]; intros c Hc; [exact Hc|].
  cbn [fold_right]. rewrite exec_bind. apply IH. now apply P_cancel.
Qed.

Lemma step_invariant a c : P c -> P (step extID a c).
Proof.
  intros Hc. destruct a; cbn [step]; auto.
  - (* a client event *)
    unfold handleWSEvent. destruct (route extID event); [exact Hc | now apply P_tray |].
    rewrite exec_bind. unfold gets. cbn [fst snd].
    now apply deliverAll_invariant.
  - (* the scheduler *)
    unfold runNextTask. rewrite !exec_bind. unfold gets. cbn [fst snd].
    destruct (interrupted c) eqn:Ei; [exact Hc|].
    destruct (scheduled c) as [|t rest] eqn:Es; [exact Hc|].
    rewrite exec_bind. unfold modify. cbn [fst snd].
    now apply P_task.
  - (* cleanup *)
    unfold runCleanup. rewrite !exec_bind. unfold gets, modify.
    cbn [fst snd]. apply cancelAll_invariant. cbn [onCleanup setOnCleanup].
    now apply P_cleared.
Qed.

Lemma run_invariant actions : forall c, P c -> P (run extID actions c).
Proof.
  induction actions as [|a actions IH]; intros c Hc; [exact Hc|].
  cbn [run fold_left]. apply IH. now apply step_invariant.
Qed.

End RunInvariant.

(** ** Registration with fresh ids *)

Lemma mapDelete_fresh (V : Type) (key : V -> string) k (m : list V) :
  existsb (fun v => String.eqb (key v) k) m = false -> mapDelete key k m = m.
Proof.
  unfold mapDelete. induction m as [|v m IH]; simpl; [reflexivity|].
  destruct (String.eqb (key v) k); simpl; [discriminate|].
  intros H. now rewrite IH.
Qed.

Lemma listen_fresh (L : list EventListener) id evs cb :
  existsb (fun l => String.eqb (ID l) id) L = false ->
  map (fun l => if String.eqb (ID l) id
                then {| ID := ID l; ListenTo := ListenTo l; callback := Some cb |}
                else l)
      (mapSet ID {| ID := id; ListenTo := evs; callback := None |} L)
  = L ++ [{| ID := id; ListenTo := evs; callback := Some cb |}].
Proof.
  intros H. unfold mapSet. cbn [ID]. rewrite mapDelete_fresh by assumption.
  rewrite map_app. cbn [map ID ListenTo]. rewrite String.eqb_refl. f_equal.
  induction L as [|l L IH]; [reflexivity|].
  simpl in H. apply orb_false_iff in H as [H1 H2].
  cbn [map]. rewrite H1. f_equal. now apply IH.
Qed.

Lemma generated_mono id c c' : uuids c <= uuids c' -> generated id c -> generated id c'.
Proof. intros Hle (k & Hk & ->). exists k. split; [lia | reflexivity]. Qed.

Lemma fresh_above (L : list EventListener) c n :
  Forall (fun l => generated (ID l) c) L -> uuids c <= n ->
  existsb (fun l => String.eqb (ID l) (uuidString n)) L = false.
Proof.
  intros HL Hn. induction HL as [|l L (k & Hk & Hl) _ IH]; [reflexivity|].
  simpl. rewrite IH, orb_false_r. apply String.eqb_neq. rewrite Hl.
  intros E. apply uuidString_inj in E. lia.
Qed.

Lemma issue_exec r c :
  idsGenerated c -> issue r c = (promises c, afterRequest r c).
Proof.
  intros Hc. pose proof (@fresh_above _ c (S (uuids c)) Hc (Nat.le_succ_diag_r _)) as Hf.
  destruct r; ctx_simpl; rewrite (@listen_fresh _ _ _ _ Hf); reflexivity.
Qed.

Lemma jsObserve_exec selector callback c :
  idsGenerated c ->
  jsObserve selector callback c
  = ((observeCancelFn c, mkRefetchFn selector (uuidString (uuids c))),
     afterObserve selector callback c).
Proof.
  intros Hc.
  pose proof (@fresh_above _ c (S (uuids c)) Hc (Nat.le_succ_diag_r _)) as Hf1.
  assert (Hf2 : existsb (fun l => String.eqb (ID l) (uuidString (S (S (uuids c)))))
                        (eventListeners c
                         ++ [{| ID := uuidString (S (uuids c));
                                ListenTo := [ClientDOMObserveResultEvent];
                                callback := Some (ObserveCallback (uuidString (uuids c))) |}])
                = false).
  { rewrite existsb_app, (@fresh_above _ c (S (S (uuids c))) Hc) by lia.
    cbn [existsb ID orb]. rewrite orb_false_r. apply String.eqb_neq.
    intros E. apply uuidString_inj in E. lia. }
  ctx_simpl. rewrite (@listen_fresh _ _ _ _ Hf1), (@listen_fresh _ _ _ _ Hf2).
  unfold afterObserve, observeCancelFn, observeListeners. ctx_cbn.
  rewrite <- app_assoc. reflexivity.
Qed.

Lemma jsOnReady_exec callback c :
  idsGenerated c -> jsOnReady callback c = (tt, afterOnReady callback c).
Proof.
  intros Hc. pose proof (@fresh_above _ c (uuids c) Hc (Nat.le_refl _)) as Hf.
  ctx_simpl. rewrite (@listen_fresh _ _ _ _ Hf). reflexivity.
Qed.

(** ** What a callback does with an event *)

Lemma context_eta c :
  mkContext (uuids c) (promises c) (eventListeners c) (elementObservers c)
            (scheduled c) (outbox c) (vmCalls c) (onCleanup c) (wsSubscriber c)
            (trayRenders c) (exceptionCount c) (effectCalls c) (interrupted c) = c.
Proof. now destruct c. Qed.

Lemma applyEffect_nothing cb c : applyEffect cb false [] [] c = c.
Proof.
  unfold applyEffect. ctx_cbn. unfold setEventListeners. ctx_cbn.
  rewrite !app_nil_r. apply context_eta.
Qed.

(** A callback leaves the context as it is, or unregisters its own
    listener, schedules at most one task and sends at most one event; the
    callback of a request does so for a matching reply only, and a task
    that resolves a promise is scheduled by the callback that holds its
    resolving function, which unregisters its listener then. *)
Lemma runListenerCallback_effect cb ev c :
  exists unregisters tasks sent,
    exec (runListenerCallback cb ev) c = applyEffect cb unregisters tasks sent c
    /\ List.length tasks <= 1
    /\ (unregisters = false -> isRequestCallback cb = true -> tasks = [] /\ sent = [])
    /\ (unregisters = true -> isRequestCallback cb = true -> replyMatches cb ev)
    /\ (unregisters = true -> callbackListenerID cb <> None)
    /\ (forall t resolve v, In t tasks -> t = ResolveTask resolve v ->
          callbackSettle cb = Some resolve /\ unregisters = true)
    /\ (forall t, In t tasks -> isRequestCallback cb = true ->
          exists resolve v, t = ResolveTask resolve v).
Proof.
  assert (Hskip : exists unregisters tasks sent,
             exec (ret tt) c = applyEffect cb unregisters tasks sent c
             /\ List.length tasks <= 1
             /\ (unregisters = false -> isRequestCallback cb = true -> tasks = [] /\ sent = [])
             /\ (unregisters = true -> isRequestCallback cb = true -> replyMatches cb ev)
             /\ (unregisters = true -> callbackListenerID cb <> None)
             /\ (forall t resolve v, In t tasks -> t = ResolveTask resolve v ->
                   callbackSettle cb = Some resolve /\ unregisters = true)
             /\ (forall t, In t tasks -> isRequestCallback cb = true ->
                   exists resolve v, t = ResolveTask resolve v)).
  { exists false, [], []. split; [now rewrite applyEffect_nothing|].
    effect_rest. }
  destruct cb; cbn [runListenerCallback].
  - exists true, [OnReadyTask callback0 (Payload ev)], [].
    split; [effect_shape|]. effect_rest.
  - destruct (ParsePayloadAsQueryResult ev) as [payload|] eqn:E; [|exact Hskip].
    destruct (String.eqb (qr_RequestID payload) requestId) eqn:Er; [|exact Hskip].
    eexists true, [_], []. split; [effect_shape|]. effect_rest.
    exists payload. split; [assumption | now apply String.eqb_eq].
  - destruct (ParsePayloadAsQueryOneResult ev) as [payload|] eqn:E; [|exact Hskip].
    destruct (String.eqb (qo_RequestID payload) requestId) eqn:Er; [|exact Hskip].
    eexists true, [_], []. split; [effect_shape|]. effect_rest.
    exists payload. split; [assumption | now apply String.eqb_eq].
  - destruct (ParsePayloadAsObserveResult ev) as [payload|] eqn:E; [|exact Hskip].
    destruct (String.eqb (ob_ObserverID payload) observerID) eqn:Er; [|exact Hskip].
    exists false, [ObserverTask observerID (ob_Elements payload)], [].
    split; [effect_shape|]. effect_rest.
  - exists true, [], [ServerDOMObserveEvent selector observerID].
    split; [effect_shape|]. effect_rest.
  - destruct (ParsePayloadAsCreateResult ev) as [payload|] eqn:E; [|exact Hskip].
    destruct (String.eqb (cr_RequestID payload) requestId) eqn:Er; [|exact Hskip].
    destruct (assertMap (cr_Element payload)) as [elemData|] eqn:Em.
    + eexists true, [_], []. split; [effect_shape|]. effect_rest.
      exists payload. split; [assumption | now apply String.eqb_eq].
    + exists true, [], []. split; [effect_shape|]. effect_rest.
      exists payload. split; [assumption | now apply String.eqb_eq].
  - destruct (ParsePayloadAsElementUpdated ev) as [payload|] eqn:E; [|exact Hskip].
    destruct (getterAccepts g elementId requestId payload) eqn:Ea; [|exact Hskip].
    eexists true, [_], []. split; [effect_shape|]. effect_rest.
    exists payload. unfold getterAccepts in Ea.
    apply andb_true_iff in Ea as [Ea _].
    apply andb_true_iff in Ea as [Ea E3].
    apply andb_true_iff in Ea as [E1 E2].
    apply String.eqb_eq in E1, E2, E3. auto.
Qed.

(** ** Every run keeps the context well formed *)

Lemma count_app (A : Type) (p : A -> bool) l1 l2 :
  count p (l1 ++ l2) = count p l1 + count p l2.
Proof. unfold count. now rewrite filter_app, length_app. Qed.

Lemma count_cons (A : Type) (p : A -> bool) x l :
  count p (x :: l) = (if p x then 1 else 0) + count p l.
Proof. unfold count. cbn [filter]. now destruct (p x). Qed.

Lemma count_nil (A : Type) (p : A -> bool) : count p [] = 0.
Proof. reflexivity. Qed.

Lemma count_filter_le (A : Type) (p q : A -> bool) l :
  count p (filter q l) <= count p l.
Proof.
  unfold count. induction l as [|x l IH]; simpl; [lia|].
  destruct (q x) eqn:Q, (p x) eqn:Px; simpl; rewrite ?Px; simpl; lia.
Qed.

(** Removing a listener that holds [f] from the map leaves one holder
    less. *)
Lemma count_mapDelete_holder f (L : list EventListener) l :
  In l L -> listenerHolds f l = true ->
  count (listenerHolds f) (mapDelete ID (ID l) L) + 1 <= count (listenerHolds f) L.
Proof.
  unfold count, mapDelete. induction L as [|x L IH]; simpl; [contradiction|].
  intros [->|Hin] Hl.
  - rewrite String.eqb_refl, Hl. simpl.
    pose proof (count_filter_le (listenerHolds f)
                  (fun v => negb (String.eqb (ID v) (ID l))) L) as H.
    unfold count in H. lia.
  - specialize (IH Hin Hl).
    destruct (String.eqb (ID x) (ID l)), (listenerHolds f x) eqn:Hx; simpl;
      rewrite ?Hx; simpl; lia.
Qed.

Lemma settleEqb_eq f g : settleEqb f g = true <-> f = g.
Proof.
  destruct f, g; simpl; rewrite ?Nat.eqb_eq; split; congruence.
Qed.

Lemma listenerOk_mono c c' l : uuids c <= uuids c' -> listenerOk c l -> listenerOk c' l.
Proof.
  intros Hle [H1 H2]. split; [now apply generated_mono with c | exact H2].
Qed.

Lemma settleBound_mono f c c' :
  promises c <= promises c' -> settleBound f c <= settleBound f c'.
Proof.
  intros Hle. destruct f; simpl; [|lia].
  destruct (Nat.ltb_spec promise (promises c)), (Nat.ltb_spec promise (promises c')); lia.
Qed.

Lemma WellFormed_idsGenerated c : WellFormed c -> idsGenerated c.
Proof.
  intros [H _]. unfold idsGenerated. eapply Forall_impl; [|exact H].
  now intros l [Hg _].
Qed.

(** A step that gives out ids and promises, adds listeners that are in
    order and adds no holder of a resolving function keeps the context
    well formed. *)
Lemma WellFormed_intro c c' :
  WellFormed c ->
  uuids c <= uuids c' ->
  promises c <= promises c' ->
  (forall l, In l (eventListeners c') -> In l (eventListeners c) \/ listenerOk c' l) ->
  (forall f, holders f c' <= holders f c) ->
  WellFormed c'.
Proof.
  intros [HL HH] Hu Hp Hin Hh. split.
  - apply Forall_forall. intros l Hl. destruct (Hin l Hl) as [H|H]; [|exact H].
    rewrite Forall_forall in HL. apply listenerOk_mono with c; auto.
  - intros f. specialize (Hh f). specialize (HH f).
    pose proof (@settleBound_mono f c c' Hp). lia.
Qed.

Lemma WellFormed_NewContext : WellFormed NewContext.
Proof.
  split; [constructor|]. intros f. unfold holders, waiting, pending, called, count.
  simpl. lia.
Qed.

Lemma requestCallback_settle r rid resolve lid :
  callbackSettle (requestCallback r rid resolve lid) = Some resolve.
Proof. now destruct r. Qed.

Lemma requestCallback_listenerID r rid resolve lid :
  callbackListenerID (requestCallback r rid resolve lid) = Some lid.
Proof. now destruct r. Qed.

Lemma holders_afterRequest r c f :
  holders f (afterRequest r c)
  = holders f c + (if settleEqb f (Resolve (promises c)) then 1 else 0).
Proof.
  unfold holders, waiting, pending, called, afterRequest. ctx_cbn.
  rewrite count_app. unfold count at 2. cbn [filter].
  unfold listenerHolds at 2, requestListener. cbn [callback].
  rewrite requestCallback_settle.
  destruct (settleEqb f (Resolve (promises c))); cbn [List.length]; lia.
Qed.

Lemma WellFormed_issue r c : WellFormed c -> WellFormed (exec (issue r) c).
Proof.
  intros Hc. unfold exec. rewrite issue_exec by now apply WellFormed_idsGenerated.
  cbn [snd]. destruct Hc as [HL HH]. split.
  - unfold afterRequest. ctx_cbn. apply Forall_app. split.
    + eapply Forall_impl; [|exact HL]. intros l. apply listenerOk_mono. ctx_cbn. lia.
    + constructor; [|constructor]. split.
      * exists (S (uuids c)). ctx_cbn. split; [lia|reflexivity].
      * unfold requestListener. cbn [callback ID]. intros cb lid [= <-].
        rewrite requestCallback_listenerID. now intros [= <-].
  - intros f. rewrite holders_afterRequest. specialize (HH f).
    destruct (settleEqb f (Resolve (promises c))) eqn:E.
    + apply settleEqb_eq in E as ->. cbn [settleBound] in *.
      rewrite Nat.ltb_irrefl in HH.
      unfold afterRequest. ctx_cbn.
      assert (Nat.ltb (promises c) (S (promises c)) = true) as ->
          by (apply Nat.ltb_lt; lia).
      lia.
    + pose proof (@settleBound_mono f c (afterRequest r c)) as Hm.
      unfold afterRequest in Hm at 1. ctx_cbn. specialize (Hm (Nat.le_succ_diag_r _)).
      lia.
Qed.

Lemma WellFormed_observe selector fn c :
  WellFormed c -> WellFormed (exec (jsObserve selector fn) c).
Proof.
  intros Hc. unfold exec. rewrite jsObserve_exec by now apply WellFormed_idsGenerated.
  cbn [snd]. apply WellFormed_intro with c; auto; unfold afterObserve; ctx_cbn;
    try lia.
  - intros l Hl. apply in_app_or in Hl as [Hl|Hl]; [now left|right].
    unfold observeListeners in Hl.
    destruct Hl as [<-|[<-|[]]]; split; cbn [ID callback].
    + exists (S (uuids c)). ctx_cbn. split; [lia|reflexivity].
    + intros cb lid [= <-]. discriminate.
    + exists (S (S (uuids c))). ctx_cbn. split; [lia|reflexivity].
    + intros cb lid [= <-] [= <-]. reflexivity.
  - intros f. unfold holders, waiting, pending, called. ctx_cbn.
    rewrite count_app. unfold observeListeners, count at 2. cbn. lia.
Qed.

Lemma WellFormed_onReady fn c :
  WellFormed c -> WellFormed (exec (jsOnReady fn) c).
Proof.
  intros Hc. unfold exec. rewrite jsOnReady_exec by now apply WellFormed_idsGenerated.
  cbn [snd]. apply WellFormed_intro with c; auto; unfold afterOnReady; ctx_cbn;
    try lia.
  - intros l Hl. apply in_app_or in Hl as [Hl|Hl]; [now left|right].
    destruct Hl as [<-|[]]; split; cbn [ID callback].
    + exists (uuids c). ctx_cbn. split; [lia|reflexivity].
    + intros cb lid [= <-] [= <-]. reflexivity.
  - intros f. unfold holders, waiting, pending, called. ctx_cbn.
    rewrite count_app. unfold count at 2. cbn. lia.
Qed.

Lemma In_mapDelete (V : Type) (key : V -> string) k (m : list V) v :
  In v (mapDelete key k m) -> In v m.
Proof. unfold mapDelete. intros H. now apply filter_In in H. Qed.

Lemma WellFormed_cancel f c : WellFormed c -> WellFormed (exec (runCancelFn f) c).
Proof.
  intros Hc. destruct f as [l1 l2 o]. ctx_simpl.
  apply WellFormed_intro with c; auto; ctx_cbn; try lia.
  - intros l Hl. left. now apply In_mapDelete, In_mapDelete in Hl.
  - intros g. unfold holders, waiting, pending, called. ctx_cbn.
    pose proof (count_filter_le (listenerHolds g)
                  (fun v => negb (String.eqb (ID v) l2))
                  (mapDelete ID l1 (eventListeners c))).
    pose proof (count_filter_le (listenerHolds g)
                  (fun v => negb (String.eqb (ID v) l1)) (eventListeners c)).
    unfold mapDelete at 1. unfold mapDelete in *. lia.
Qed.

Lemma WellFormed_callback l cb ev c :
  WellFormed c -> In l (eventListeners c) -> callback l = Some cb ->
  WellFormed (exec (runListenerCallback cb ev) c).
Proof.
  intros Hc Hin Hcb.
  destruct (runListenerCallback_effect cb ev c)
    as (unreg & tasks & sent & -> & Hlen & _ & _ & Hid & Htask & _).
  assert (Hown : forall lid, callbackListenerID cb = Some lid -> lid = ID l).
  { destruct Hc as [HL _]. rewrite Forall_forall in HL.
    destruct (HL l Hin) as [_ H]. intros lid. now apply H. }
  apply WellFormed_intro with c; auto; unfold applyEffect; ctx_cbn; try lia.
  - intros x Hx. left. destruct unreg, (callbackListenerID cb); auto.
    now apply In_mapDelete in Hx.
  - intros f. unfold holders, waiting, pending, called. ctx_cbn.
    rewrite count_app.
    destruct tasks as [|t [|t' tasks]]; [| |cbn in Hlen; lia].
    + unfold count at 3. cbn [filter List.length].
      destruct unreg, (callbackListenerID cb); try lia.
      pose proof (count_filter_le (listenerHolds f)
                    (fun v => negb (String.eqb (ID v) s)) (eventListeners c)).
      unfold mapDelete. lia.
    + unfold count at 3. cbn [filter].
      destruct (taskHolds f t) eqn:Et; cbn [List.length].
      * destruct t as [resolve v| |]; try discriminate. cbn [taskHolds] in Et.
        destruct (Htask _ resolve v (or_introl eq_refl) eq_refl) as [Hs ->].
        destruct (callbackListenerID cb) as [lid|] eqn:El;
          [|now exfalso; apply Hid].
        rewrite (Hown lid eq_refl).
        assert (listenerHolds f l = true) as Hl
            by (unfold listenerHolds; now rewrite Hcb, Hs).
        pose proof (count_mapDelete_holder f _ _ Hin Hl). lia.
      * destruct unreg, (callbackListenerID cb); try lia.
        pose proof (count_filter_le (listenerHolds f)
                      (fun v => negb (String.eqb (ID v) s)) (eventListeners c)).
        unfold mapDelete. lia.
Qed.

Lemma WellFormed_handleException c :
  WellFormed c -> WellFormed (exec handleException c).
Proof.
  intros Hc. ctx_simpl.
  destruct (Nat.ltb MAX_EXCEPTIONS (S (exceptionCount c))); ctx_cbn;
    (apply WellFormed_intro with c; auto; ctx_cbn; try lia; auto).
Qed.

Lemma WellFormed_task t rest throws c :
  WellFormed c -> scheduled c = t :: rest ->
  WellFormed (exec (runTask t throws) (setScheduled rest c)).
Proof.
  intros Hc Hs.
  assert (Hpop : forall call,
             (forall f, callHolds f call = taskHolds f t) ->
             WellFormed (exec (vmCall call) (setScheduled rest c))).
  { intros call Hcall. ctx_simpl.
    apply WellFormed_intro with c; auto; ctx_cbn; try lia; auto.
    intros f. unfold holders, waiting, pending, called. ctx_cbn.
    rewrite count_app, Hs, !count_cons, count_nil, Hcall.
    destruct (taskHolds f t); lia. }
  assert (Hdrop : (forall f, taskHolds f t = false) ->
                  WellFormed (setScheduled rest c)).
  { intros Hno. apply WellFormed_intro with c; auto; ctx_cbn; try lia; auto.
    intros f. unfold holders, waiting, pending, called. ctx_cbn.
    rewrite Hs, count_cons, Hno. lia. }
  destruct t as [resolve v | fn payload | observerID elements];
    cbn [runTask].
  - apply Hpop. reflexivity.
  - rewrite exec_bind.
    assert (WellFormed (exec (vmCall (CallOnReady fn payload))
                             (setScheduled rest c))) as H
        by (apply Hpop; reflexivity).
    destruct throws; [now apply WellFormed_handleException | exact H].
  - rewrite exec_bind. unfold gets. cbn [fst snd].
    destruct (mapGet obsID observerID (elementObservers (setScheduled rest c)))
      as [observer|]; [|apply Hdrop; reflexivity].
    rewrite exec_bind.
    assert (WellFormed (exec (vmCall (CallObserver observerID (obsCallback observer)
                                                   (elementObjects elements)))
                             (setScheduled rest c))) as H
        by (apply Hpop; reflexivity).
    destruct throws; [now apply WellFormed_handleException | exact H].
Qed.

Theorem WellFormed_run extID actions c :
  WellFormed c -> WellFormed (run extID actions c).
Proof.
  apply run_invariant.
  - apply WellFormed_issue.
  - apply WellFormed_observe.
  - apply WellFormed_onReady.
  - intros e a p c0 H. ctx_simpl.
    apply WellFormed_intro with c0; auto; ctx_cbn; try lia; auto.
  - apply WellFormed_cancel.
  - intros [selector observerID] c0 H. ctx_simpl.
    apply WellFormed_intro with c0; auto; ctx_cbn; try lia; auto.
  - intros c0 H. apply WellFormed_intro with c0; auto; ctx_cbn; try lia; auto.
  - apply WellFormed_callback.
  - intros t rest throws c0 H _ Hs. now apply WellFormed_task.
  - intros c0 H. apply WellFormed_intro with c0; auto; ctx_cbn; try lia; auto.
Qed.

(** ** Requests of the DOM proxy *)

Lemma existsb_filter_false (A : Type) (p q : A -> bool) l :
  existsb p l = false -> existsb p (filter q l) = false.
Proof.
  induction l as [|x l IH]; simpl; [auto|].
  intros H. apply orb_false_iff in H as [H1 H2].
  destruct (q x); simpl; [rewrite H1|]; auto.
Qed.

Lemma registered_mapDelete lid c :
  existsb (fun l => String.eqb (ID l) lid) (mapDelete ID lid (eventListeners c)) = false.
Proof.
  unfold mapDelete. induction (eventListeners c) as [|x l IH]; simpl; [reflexivity|].
  destruct (String.eqb (ID x) lid) eqn:E; simpl; [exact IH|].
  now rewrite E.
Qed.

(** A listener that has been unregistered stays so: the ids of later
    listeners are new. *)
Lemma gone_run extID lid actions c : gone lid c -> gone lid (run extID actions c).
Proof.
  apply run_invariant; clear c.
  - intros r c (Hwf & Hg & Hr). split; [now apply WellFormed_issue|].
    unfold exec. rewrite issue_exec by now apply WellFormed_idsGenerated.
    cbn [snd]. unfold afterRequest, registered. ctx_cbn. split.
    + apply generated_mono with c; [ctx_cbn; lia | exact Hg].
    + rewrite existsb_app. unfold registered in Hr. rewrite Hr.
      cbn [existsb requestListener ID orb]. rewrite orb_false_r.
      destruct Hg as (k & Hk & ->). apply String.eqb_neq.
      intros E. apply uuidString_inj in E. lia.
  - intros sel fn c (Hwf & Hg & Hr). split; [now apply WellFormed_observe|].
    unfold exec. rewrite jsObserve_exec by now apply WellFormed_idsGenerated.
    cbn [snd]. unfold afterObserve, registered. ctx_cbn. split.
    + apply generated_mono with c; [ctx_cbn; lia | exact Hg].
    + rewrite existsb_app. unfold registered in Hr. rewrite Hr.
      cbn [existsb observeListeners ID orb]. rewrite orb_false_r.
      destruct Hg as (k & Hk & ->). apply orb_false_iff.
      split; apply String.eqb_neq; intros E; apply uuidString_inj in E; lia.
  - intros fn c (Hwf & Hg & Hr). split; [now apply WellFormed_onReady|].
    unfold exec. rewrite jsOnReady_exec by now apply WellFormed_idsGenerated.
    cbn [snd]. unfold afterOnReady, registered. ctx_cbn. split.
    + apply generated_mono with c; [ctx_cbn; lia | exact Hg].
    + rewrite existsb_app. unfold registered in Hr. rewrite Hr.
      cbn [existsb ID orb]. rewrite orb_false_r.
      destruct Hg as (k & Hk & ->). apply String.eqb_neq.
      intros E. apply uuidString_inj in E. lia.
  - intros e a p c (Hwf & Hg & Hr). split; [|split; [exact Hg|exact Hr]].
    ctx_simpl. apply WellFormed_intro with c; auto; ctx_cbn; try lia; auto.
  - intros f c (Hwf & Hg & Hr). split; [now apply WellFormed_cancel|].
    destruct f as [l1 l2 o]. ctx_simpl. split; [exact Hg|].
    unfold registered, mapDelete in *. ctx_cbn.
    now apply existsb_filter_false, existsb_filter_false.
  - intros [sel o] c (Hwf & Hg & Hr). split; [|split; [exact Hg|exact Hr]].
    ctx_simpl. apply WellFormed_intro with c; auto; ctx_cbn; try lia; auto.
  - intros c (Hwf & Hg & Hr). split; [|split; [exact Hg|exact Hr]].
    apply WellFormed_intro with c; auto; ctx_cbn; try lia; auto.
  - intros l cb ev c (Hwf & Hg & Hr) Hin Hcb.
    split; [now apply WellFormed_callback with l|].
    destruct (runListenerCallback_effect cb ev c)
      as (unreg & tasks & sent & -> & _).
    unfold applyEffect, registered in *. ctx_cbn. split; [exact Hg|].
    destruct unreg, (callbackListenerID cb); auto.
    now apply existsb_filter_false.
  - intros t rest throws c (Hwf & Hg & Hr) _ Hs.
    split; [now apply WellFormed_task|].
    destruct t as [resolve v | fn payload | observerID elements];
      cbn [runTask]; ctx_simpl.
    + split; [exact Hg|exact Hr].
    + destruct throws; ctx_simpl;
        [destruct (Nat.ltb MAX_EXCEPTIONS (S (exceptionCount c)))|];
        ctx_cbn; (split; [exact Hg|exact Hr]).
    + destruct (mapGet obsID observerID (elementObservers c)); ctx_cbn;
        [|split; [exact Hg|exact Hr]].
      destruct throws; ctx_simpl;
        [destruct (Nat.ltb MAX_EXCEPTIONS (S (exceptionCount c)))|];
        ctx_cbn; (split; [exact Hg|exact Hr]).
  - intros c (Hwf & Hg & Hr). split; [|split; [exact Hg|exact Hr]].
    apply WellFormed_intro with c; auto; ctx_cbn; try lia; auto.
Qed.

Lemma deliver_unregistered lid ev c :
  registered lid c = false -> exec (deliver lid ev) c = c.
Proof.
  intros H. unfold deliver. rewrite exec_bind. unfold gets. cbn [fst snd].
  apply mapGet_None in H. now rewrite H.
Qed.

(** What a request callback does with one event, in a context that is
    well formed. *)
Lemma request_callback_once c l cb ev :
  WellFormed c -> In l (eventListeners c) -> callback l = Some cb ->
  isRequestCallback cb = true ->
  exec (runListenerCallback cb ev) c = c
  \/ (replyMatches cb ev
      /\ registered (ID l) (exec (runListenerCallback cb ev) c) = false
      /\ exists tasks,
          scheduled (exec (runListenerCallback cb ev) c) = scheduled c ++ tasks
          /\ List.length tasks <= 1
          /\ forall t, In t tasks ->
                       exists f v, t = ResolveTask f v /\ callbackSettle cb = Some f).
Proof.
  intros Hwf Hin Hcb Hreq.
  destruct (runListenerCallback_effect cb ev c)
    as (unreg & tasks & sent & -> & Hlen & Hno & Hyes & Hid & Htask & Hres).
  destruct unreg.
  - right. split; [now apply Hyes|].
    destruct (callbackListenerID cb) as [lid|] eqn:El; [|now exfalso; apply Hid].
    assert (lid = ID l) as ->.
    { destruct Hwf as [HL _]. rewrite Forall_forall in HL.
      destruct (HL l Hin) as [_ H]. now apply H with cb. }
    split.
    + unfold applyEffect, registered. rewrite El. ctx_cbn.
      apply registered_mapDelete.
    + exists tasks. unfold applyEffect. ctx_cbn. repeat split; auto.
      intros t Ht. destruct (Hres t Ht Hreq) as (f & v & ->).
      exists f, v. split; [reflexivity|].
      now destruct (Htask _ f v Ht eq_refl).
  - left. destruct (Hno eq_refl Hreq) as [-> ->]. apply applyEffect_nothing.
Qed.

Lemma WellFormed_reachable extID actions : WellFormed (run extID actions NewContext).
Proof. apply WellFormed_run, WellFormed_NewContext. Qed.

Lemma run_app extID a b c : run extID (a ++ b) c = run extID b (run extID a c).
Proof. unfold run. apply fold_left_app. Qed.

Lemma holders_fresh_promise c : WellFormed c -> holders (Resolve (promises c)) c = 0.
Proof.
  intros [_ H]. specialize (H (Resolve (promises c))). cbn [settleBound] in H.
  rewrite Nat.ltb_irrefl in H. lia.
Qed.

(** C1: a request made at any moment of a run leaves exactly one listener
    that holds the promise's resolving function, and nothing pending or
    called; whatever happens afterwards, listeners holding it, tasks
    scheduled to call it and calls made of it are at most one in all.  A
    callback of a request leaves the context untouched unless the reply
    matches (request id and, for a manipulation, element id and action);
    when it takes a reply its listener is unregistered at once and at most
    one task, a call of its resolving function, is scheduled.  A listener
    that is unregistered is never registered again, and an event sent to
    it changes nothing. *)
Theorem dom_request_takes_at_most_one_reply :
  forall (extID : string) (before : list Action) (r : Request) (after : list Action),
    let c0 := run extID before NewContext in
    let promise := fst (issue r c0) in
    let c1 := snd (issue r c0) in
    let c2 := run extID after c1 in
    (waiting (Resolve promise) c1 = 1
     /\ pending (Resolve promise) c1 = 0
     /\ called (Resolve promise) c1 = 0)
    /\ waiting (Resolve promise) c2 + pending (Resolve promise) c2
       + called (Resolve promise) c2 <= 1
    /\ (forall l cb ev,
           In l (eventListeners c2) -> callback l = Some cb ->
           isRequestCallback cb = true ->
           exec (runListenerCallback cb ev) c2 = c2
           \/ (replyMatches cb ev
               /\ registered (ID l) (exec (runListenerCallback cb ev) c2) = false
               /\ exists tasks,
                   scheduled (exec (runListenerCallback cb ev) c2)
                   = scheduled c2 ++ tasks
                   /\ List.length tasks <= 1
                   /\ forall t, In t tasks ->
                                exists f v, t = ResolveTask f v
                                            /\ callbackSettle cb = Some f))
    /\ (forall lid more ev,
           generated lid c2 -> registered lid c2 = false ->
           registered lid (run extID more c2) = false
           /\ exec (deliver lid ev) (run extID more c2) = run extID more c2).
Proof.
  intros extID before r after c0 promise c1 c2.
  assert (H0 : WellFormed c0) by apply WellFormed_reachable.
  assert (E : issue r c0 = (promises c0, afterRequest r c0))
    by (apply issue_exec; now apply WellFormed_idsGenerated).
  assert (H1 : WellFormed c1)
    by (unfold c1; change (snd (issue r c0)) with (exec (issue r) c0);
        now apply WellFormed_issue).
  assert (H2 : WellFormed c2) by now apply WellFormed_run.
  assert (Hp : promise = promises c0) by (unfold promise; now rewrite E).
  split; [|split; [|split]].
  - pose proof (holders_afterRequest r c0 (Resolve promise)) as Ha.
    pose proof (holders_fresh_promise H0) as Hf.
    rewrite Hp in *. unfold c1. rewrite E. cbn [snd].
    unfold holders, waiting, pending, called, afterRequest in *. ctx_cbn.
    rewrite count_app in *. rewrite count_cons, count_nil in *.
    unfold listenerHolds at 2, requestListener in Ha. cbn [callback] in Ha.
    unfold listenerHolds at 2, requestListener. cbn [callback].
    rewrite requestCallback_settle in *. cbn [settleEqb] in *.
    rewrite Nat.eqb_refl in *. lia.
  - destruct H2 as [_ H2]. specialize (H2 (Resolve promise)).
    unfold holders in H2. cbn [settleBound] in H2.
    destruct (Nat.ltb promise (promises c2)); lia.
  - intros l cb ev Hin Hcb Hreq. now apply request_callback_once.
  - intros lid more ev Hg Hr.
    destruct (@gone_run extID lid more c2) as (_ & _ & Hgone);
      [split; [exact H2 | split; assumption]|].
    split; [exact Hgone | now apply deliver_unregistered].
Qed.

(** The same reply twice, then a reply to another request: the promise
    of [getText] is resolved once. *)
Example get_text_reply_twice :
  let reply requestId text :=
    DoClientEvent
      (mkWSEvent PluginEvent
         (PayloadObject
            (mkClientEvent "my-plugin" ClientDOMElementUpdatedEvent
               (VObject [("elementId", VString "card-1"); ("action", VString "getText");
                         ("result", VString text); ("requestId", VString requestId)])))) in
  let c := run "my-plugin"
               [DoRequest (ReqGetter GetText "card-1" "");
                reply "5" "other"; reply "0" "first"; reply "0" "second";
                DoRunTask false; DoRunTask false]
               NewContext in
  vmCalls c = [CallSettle (Resolve 0) (JSToValue (VString "first"))]
  /\ eventListeners c = []
  /\ scheduled c = [].
Proof. cbv zeta. repeat split. Qed.

(** ** The getters of an element *)

(** The getters of dom.go are requests of the DOM proxy. *)
Lemma getters_are_requests (e a : string) :
  getElementText e = issue (ReqGetter GetText e "")
  /\ getElementAttribute e a = issue (ReqGetter GetAttribute e a)
  /\ hasElementClass e a = issue (ReqGetter HasClass e a)
  /\ getElementStyle e a = issue (ReqGetter GetStyle e a)
  /\ getElementComputedStyle e a = issue (ReqGetter GetComputedStyle e a)
  /\ getElementParent e = issue (ReqGetter GetParent e "")
  /\ getElementChildren e = issue (ReqGetter GetChildren e "")
  /\ getElementAttributes e = issue (ReqGetter GetAttributes e "")
  /\ hasElementAttribute e a = issue (ReqGetter HasAttribute e a)
  /\ getElementProperty e a = issue (ReqGetter GetProperty e a)
  /\ getElementStyles e = issue (ReqGetter GetStyles e "")
  /\ hasElementStyle e a = issue (ReqGetter HasStyle e a)
  /\ getElementDataAttribute e a = issue (ReqGetter GetDataAttribute e a)
  /\ getElementDataAttributes e = issue (ReqGetter GetDataAttributes e "")
  /\ hasElementDataAttribute e a = issue (ReqGetter HasDataAttribute e a).
Proof. repeat split. Qed.

Lemma stringGetter_result g result :
  stringGetter g = true ->
  getterResult g result
  = match result with
    | VString s => JSToValue (VString s)
    | _ => JSToValue (VString "")
    end.
Proof. destruct g; try discriminate; intros _; now destruct result. Qed.

Lemma boolGetter_result g result :
  boolGetter g = true ->
  getterResult g result
  = match result with
    | VBool b => JSToValue (VBool b)
    | _ => JSToValue (VBool false)
    end.
Proof. destruct g; try discriminate; intros _; now destruct result. Qed.

(** C10: the callback of a getter that takes a reply schedules one task,
    the call of [resolve] on the converted result, and unregisters its
    listener; a string getter ([getText], [getStyle], [getComputedStyle])
    converts a result that is not a string into the empty string, a
    boolean getter ([hasClass], [hasAttribute], [hasStyle],
    [hasDataAttribute]) one that is not a bool into false, the client's
    element-not-found object included; and in no run is a reject function
    held by a listener, scheduled in a task or called, as on the reply
    below, where [getText] resolves with the empty string. *)
Theorem getters_resolve_with_defaults_and_never_reject :
  (forall g elementId requestId resolve listenerID ev payload c,
      ParsePayloadAsElementUpdated ev = Some payload ->
      getterAccepts g elementId requestId payload = true ->
      exec (runListenerCallback
              (ElementUpdatedCallback g elementId requestId resolve listenerID) ev) c
      = exec (UnregisterEventListener listenerID)
             (exec (ScheduleAsync (ResolveTask resolve (getterResult g (eu_Result payload))))
                   c))
  /\ (forall g result,
         stringGetter g = true ->
         getterResult g result
         = match result with
           | VString s => JSToValue (VString s)
           | _ => JSToValue (VString "")
           end)
  /\ (forall g result,
         boolGetter g = true ->
         getterResult g result
         = match result with
           | VBool b => JSToValue (VBool b)
           | _ => JSToValue (VBool false)
           end)
  /\ (forall g, stringGetter g = true ->
                getterResult g elementNotFound = JSToValue (VString ""))
  /\ (forall g, boolGetter g = true ->
                getterResult g elementNotFound = JSToValue (VBool false))
  /\ (forall extID actions p,
         waiting (Reject p) (run extID actions NewContext) = 0
         /\ pending (Reject p) (run extID actions NewContext) = 0
         /\ called (Reject p) (run extID actions NewContext) = 0)
  /\ (let reply :=
        mkWSEvent PluginEvent
          (PayloadObject
             (mkClientEvent "my-plugin" ClientDOMElementUpdatedEvent
                (VObject [("elementId", VString "card-1"); ("action", VString "getText");
                          ("result", elementNotFound); ("requestId", VString "0")]))) in
      vmCalls (run "my-plugin"
                   [DoRequest (ReqGetter GetText "card-1" "");
                    DoClientEvent reply; DoRunTask false]
                   NewContext)
      = [CallSettle (Resolve 0) (JSToValue (VString ""))]).
Proof.
  split; [|split; [|split; [|split; [|split; [|split]]]]].
  - intros g elementId requestId resolve listenerID ev payload c Hp Ha.
    cbn [runListenerCallback]. rewrite Hp, Ha. now rewrite exec_bind.
  - apply stringGetter_result.
  - apply boolGetter_result.
  - intros g Hg. now rewrite stringGetter_result.
  - intros g Hg. now rewrite boolGetter_result.
  - intros extID actions p.
    destruct (WellFormed_reachable extID actions) as [_ H].
    specialize (H (Reject p)). unfold holders in H. cbn [settleBound] in H. lia.
  - reflexivity.
Qed.

(** ** Observers *)

Lemma existsb_mapDelete (V : Type) (key : V -> string) k (m : list V) :
  existsb (fun v => String.eqb (key v) k) (mapDelete key k m) = false.
Proof.
  unfold mapDelete. induction m as [|x l IH]; simpl; [reflexivity|].
  destruct (String.eqb (key x) k) eqn:E; simpl; [exact IH|].
  now rewrite E.
Qed.

Lemma observed_mapSet_other o new (m : list ElementObserver) :
  String.eqb (obsID new) o = false ->
  existsb (fun v => String.eqb (obsID v) o) m = false ->
  existsb (fun v => String.eqb (obsID v) o) (mapSet obsID new m) = false.
Proof.
  intros Hn Hm. unfold mapSet, mapDelete. rewrite existsb_app.
  rewrite existsb_filter_false by assumption. simpl. now rewrite Hn.
Qed.

Lemma observerCalls_app o c calls :
  count (isObserverCall o) (vmCalls c ++ calls)
  = observerCalls o c + count (isObserverCall o) calls.
Proof. unfold observerCalls. apply count_app. Qed.

(** Once an observer is cancelled, nothing brings it back and no task
    calls its callback. *)
Lemma stopped_run extID o n actions c : stopped o n c -> stopped o n (run extID actions c).
Proof.
  apply run_invariant; clear c; unfold stopped, observed, observerCalls.
  - intros r c (Ho & Hg & Hn).
    destruct r; ctx_simpl; (split; [exact Ho|split; [|exact Hn]]);
      (apply generated_mono with c; [ctx_cbn; lia | exact Hg]).
  - intros sel fn c (Ho & Hg & Hn). ctx_simpl. split; [|split; [|exact Hn]].
    + apply observed_mapSet_other; [|exact Ho]. cbn [obsID].
      destruct Hg as (k & Hk & ->). apply String.eqb_neq.
      intros E. apply uuidString_inj in E. lia.
    + apply generated_mono with c; [ctx_cbn; lia | exact Hg].
  - intros fn c (Ho & Hg & Hn). ctx_simpl. split; [exact Ho|split; [|exact Hn]].
    apply generated_mono with c; [ctx_cbn; lia | exact Hg].
  - intros e a p c H. ctx_simpl. exact H.
  - intros [l1 l2 o'] c (Ho & Hg & Hn). ctx_simpl. split; [|split; [exact Hg|exact Hn]].
    unfold mapDelete. now apply existsb_filter_false.
  - intros [sel o'] c H. ctx_simpl. exact H.
  - intros c H. exact H.
  - intros l cb ev c H _ _.
    destruct (runListenerCallback_effect cb ev c) as (unreg & tasks & sent & -> & _).
    unfold applyEffect. ctx_cbn. exact H.
  - intros t rest throws c (Ho & Hg & Hn) _ _.
    destruct t as [resolve v | fn payload | observerID elements]; cbn [runTask].
    + ctx_simpl. split; [exact Ho|split; [exact Hg|]].
      rewrite count_app, count_cons, count_nil. cbn [isObserverCall].
      unfold count in *. lia.
    + destruct throws; exception_cases c; (split; [exact Ho|split; [exact Hg|]]);
        rewrite count_app, count_cons, count_nil; cbn [isObserverCall];
        unfold count in *; lia.
    + rewrite exec_bind. unfold gets. cbn [fst snd]. ctx_cbn.
      destruct (mapGet obsID observerID (elementObservers c)) as [observer|] eqn:E.
      * apply mapGet_Some in E as [Hin Hid].
        assert (String.eqb observerID o = false) as Hne.
        { apply String.eqb_neq. intros ->.
          assert (existsb (fun v => String.eqb (obsID v) o) (elementObservers c) = true)
            as Ht by (apply existsb_exists; exists observer;
                      split; [exact Hin | now apply String.eqb_eq]).
          congruence. }
        destruct throws; exception_cases c; (split; [exact Ho|split; [exact Hg|]]);
          rewrite count_app, count_cons, count_nil; cbn [isObserverCall];
          rewrite Hne; unfold count in *; lia.
      * ctx_simpl. auto.
  - intros c H. exact H.
Qed.

Lemma uuids_run extID n actions c : n <= uuids c -> n <= uuids (run extID actions c).
Proof.
  apply run_invariant with (P := fun c => n <= uuids c); clear c.
  - intros r c H. destruct r; ctx_simpl; lia.
  - intros sel fn c H. ctx_simpl. lia.
  - intros fn c H. ctx_simpl. lia.
  - intros e a p c H. ctx_simpl. exact H.
  - intros [l1 l2 o'] c H. ctx_simpl. exact H.
  - intros [sel o'] c H. ctx_simpl. exact H.
  - intros c H. exact H.
  - intros l cb ev c H _ _.
    destruct (runListenerCallback_effect cb ev c) as (unreg & tasks & sent & -> & _).
    unfold applyEffect. ctx_cbn. exact H.
  - intros t rest throws c H _ _.
    destruct t as [resolve v | fn payload | observerID elements]; cbn [runTask].
    + ctx_simpl. exact H.
    + destruct throws; exception_cases c; exact H.
    + rewrite exec_bind. unfold gets. cbn [fst snd]. ctx_cbn.
      destruct (mapGet obsID observerID (elementObservers c)); [|exact H].
      destruct throws; exception_cases c; exact H.
  - intros c H. exact H.
Qed.

(** A call of a cancel function stops its observer and tells the client. *)
Lemma runCancelFn_stops f c :
  generated (cancelObserverID f) c ->
  outbox (exec (runCancelFn f) c)
  = outbox c ++ [ServerDOMStopObserveEvent (cancelObserverID f)]
  /\ stopped (cancelObserverID f) (observerCalls (cancelObserverID f) c)
             (exec (runCancelFn f) c).
Proof.
  intros Hg. destruct f as [l1 l2 o]. cbn [cancelObserverID] in *.
  unfold stopped, observed, observerCalls. ctx_simpl.
  split; [reflexivity|]. split; [apply existsb_mapDelete|]. split; [exact Hg|reflexivity].
Qed.

(** The cleanup calls every cancel function that is registered: each of
    their observers is stopped and the client is told. *)
Lemma cancelAll_stops fs : forall c,
  let c' := exec (fold_right (fun f k => runCancelFn f ;; k) (ret tt) fs) c in
  uuids c' = uuids c
  /\ vmCalls c' = vmCalls c
  /\ (forall o, observed o c = false -> observed o c' = false)
  /\ exists sent,
      outbox c' = outbox c ++ sent
      /\ forall f, In f fs ->
                   In (ServerDOMStopObserveEvent (cancelObserverID f)) sent
                   /\ observed (cancelObserverID f) c' = false.
Proof.
  induction fs as [|g fs IH]; intros c; cbn [fold_right].
  - cbv zeta. repeat split; auto. exists []. now rewrite app_nil_r.
  - cbv zeta. rewrite exec_bind.
    change (snd (runCancelFn g c)) with (exec (runCancelFn g) c).
    specialize (IH (exec (runCancelFn g) c)). cbv zeta in IH.
    destruct IH as (Hu & Hv & Ho & sent & Hs & Hf).
    assert (Hg : uuids (exec (runCancelFn g) c) = uuids c
                 /\ vmCalls (exec (runCancelFn g) c) = vmCalls c
                 /\ outbox (exec (runCancelFn g) c)
                    = outbox c ++ [ServerDOMStopObserveEvent (cancelObserverID g)]
                 /\ observed (cancelObserverID g) (exec (runCancelFn g) c) = false
                 /\ forall o, observed o c = false ->
                              observed o (exec (runCancelFn g) c) = false).
    { destruct g as [l1 l2 o]. unfold observed. ctx_simpl. repeat split.
      - apply existsb_mapDelete.
      - intros o' H. unfold mapDelete. now apply existsb_filter_false. }
    destruct Hg as (Hgu & Hgv & Hgo & Hgs & Hgk).
    rewrite Hu, Hv, Hs, Hgu, Hgv, Hgo. repeat split; auto.
    exists (ServerDOMStopObserveEvent (cancelObserverID g) :: sent).
    split; [now rewrite <- app_assoc|].
    intros f [<-|Hin].
    + split; [now left | now apply Ho].
    + destruct (Hf f Hin) as [H1 H2]. split; [now right | exact H2].
Qed.

Lemma runCleanup_stops f c :
  In f (onCleanup c) -> generated (cancelObserverID f) c ->
  (exists sent, outbox (exec runCleanup c) = outbox c ++ sent
                /\ In (ServerDOMStopObserveEvent (cancelObserverID f)) sent)
  /\ stopped (cancelObserverID f) (observerCalls (cancelObserverID f) c)
             (exec runCleanup c).
Proof.
  intros Hin Hg. unfold runCleanup. rewrite !exec_bind. unfold gets, modify.
  cbn [fst snd].
  pose proof (cancelAll_stops (onCleanup c) (setOnCleanup [] c)) as H.
  cbv zeta in H. destruct H as (Hu & Hv & _ & sent & Hs & Hf).
  destruct (Hf f Hin) as [H1 H2]. split.
  - exists sent. split; [exact Hs | exact H1].
  - unfold stopped. split; [exact H2|]. split.
    + destruct Hg as (k & Hk & ->). exists k. split; [|reflexivity].
      rewrite Hu. exact Hk.
    + unfold observerCalls. now rewrite Hv.
Qed.

(** C7: the cancel function that [jsObserve] returns is registered for the
    cleanup of the context; when the script calls it, at any later
    moment, a [dom:stopObserve] event with the observer's id is sent and,
    whatever happens afterwards, the observer's callback is called no more;
    the same holds when the cleanup of the context calls it. *)
Theorem observer_cancel_stops_callback :
  forall (extID selector : string) (fn : Callable) (c0 : Context)
         (between after : list Action),
    let cancelFn := fst (fst (jsObserve selector fn c0)) in
    let observerID := cancelObserverID cancelFn in
    let c1 := snd (jsObserve selector fn c0) in
    let c2 := run extID between c1 in
    observerID = uuidString (uuids c0)
    /\ observed observerID c1 = true
    /\ In cancelFn (onCleanup c1)
    /\ (let c3 := exec (runCancelFn cancelFn) c2 in
        outbox c3 = outbox c2 ++ [ServerDOMStopObserveEvent observerID]
        /\ observerCalls observerID (run extID after c3) = observerCalls observerID c3)
    /\ (In cancelFn (onCleanup c2) ->
        let c3 := exec runCleanup c2 in
        (exists sent, outbox c3 = outbox c2 ++ sent
                      /\ In (ServerDOMStopObserveEvent observerID) sent)
        /\ observerCalls observerID (run extID after c3) = observerCalls observerID c3).
Proof.
  intros extID selector fn c0 between after cancelFn observerID c1 c2.
  assert (Hid : observerID = uuidString (uuids c0)) by reflexivity.
  assert (Hu1 : S (uuids c0) <= uuids c1) by (unfold c1; ctx_simpl; lia).
  assert (Hg : generated observerID c2).
  { exists (uuids c0). split; [|exact Hid].
    apply (@uuids_run extID (S (uuids c0)) between c1 Hu1). }
  split; [exact Hid|]. split; [|split; [|split]].
  - unfold c1, observed. rewrite Hid. ctx_simpl. unfold mapSet.
    rewrite existsb_app. cbn [existsb obsID]. rewrite String.eqb_refl.
    now rewrite orb_true_r.
  - unfold c1, cancelFn. ctx_simpl. apply in_or_app. right. now left.
  - cbv zeta. destruct (@runCancelFn_stops cancelFn c2 Hg) as [Ho Hs].
    split; [exact Ho|].
    destruct (@stopped_run extID _ _ after _ Hs) as (_ & _ & H).
    destruct Hs as (_ & _ & Hs). unfold observerID. congruence.
  - intros Hin. cbv zeta.
    destruct (@runCleanup_stops cancelFn c2 Hin Hg) as [Ho Hs].
    split; [exact Ho|].
    destruct (@stopped_run extID _ _ after _ Hs) as (_ & _ & H).
    destruct Hs as (_ & _ & Hs). unfold observerID. congruence.
Qed.

(** C7 at the unload of a plugin: an observer whose callback has run once
    and has a second update queued when the context is cleaned up is not
    called again, neither by the queued task nor on a later update. *)
Lemma observer_cancel_stops_callback_at_unload :
  let update :=
    mkWSEvent PluginEvent
      (PayloadObject
         (mkClientEvent "my-plugin" ClientDOMObserveResultEvent
            (VObject [("observerId", VString "0");
                      ("elements", VArray [VObject [("id", VString "card-1")]])]))) in
  let c2 := run "my-plugin" [DoClientEvent update; DoRunTask false; DoClientEvent update]
                (snd (jsObserve ".card" (mkCallable 7) NewContext)) in
  let c3 := exec runCleanup c2 in
  observerCalls "0" c2 = 1
  /\ scheduled c3 = [ObserverTask "0" [VObject [("id", VString "card-1")]]]
  /\ (exists sent, outbox c3 = outbox c2 ++ sent
                   /\ In (ServerDOMStopObserveEvent "0") sent)
  /\ observerCalls "0"
       (run "my-plugin" [DoRunTask false; DoClientEvent update; DoRunTask false] c3)
     = observerCalls "0" c3.
Proof.
  cbv zeta. split; [reflexivity|]. split; [reflexivity|].
  apply (observer_cancel_stops_callback "my-plugin" ".card" (mkCallable 7) NewContext).
  cbn. now left.
Defined.

(** ** Observers and the ready event *)

(** C5, on the code: an observer is registered, and the client announces a
    ready DOM twice.  The first announcement re-issues the observe request;
    the listener that did so has unregistered itself, so the second
    announcement re-issues nothing, while the observer is still active and
    its listener for results still registered. *)
Theorem observe_request_reissued_on_first_ready_only :
  forall (extID selector : string) (fn : Callable),
    let c1 := step extID (DoObserve selector fn) NewContext in
    let c2 := step extID (DoClientEvent domReady) c1 in
    let c3 := step extID (DoClientEvent domReady) c2 in
    outbox c1 = [ServerDOMObserveEvent selector "0"]
    /\ outbox c2 = [ServerDOMObserveEvent selector "0"; ServerDOMObserveEvent selector "0"]
    /\ outbox c3 = outbox c2
    /\ observed "0" c3 = true
    /\ eventListeners c3
       = [mkEventListener "1" [ClientDOMObserveResultEvent] (Some (ObserveCallback "0"))].
Proof.
  intros extID selector fn. cbv zeta. repeat split.
Qed.

(** ** Register *)

Lemma setup_step extID a c :
  WellFormed c -> isSetupCall a = true ->
  WellFormed (step extID a c)
  /\ wsSubscriber (step extID a c) = wsSubscriber c
  /\ scheduled (step extID a c) = scheduled c
  /\ vmCalls (step extID a c) = vmCalls c
  /\ exists added, eventListeners (step extID a c) = eventListeners c ++ added.
Proof.
  intros Hwf Ha. destruct a; try discriminate; cbn [step].
  - split; [now apply WellFormed_issue|].
    unfold exec. rewrite issue_exec by now apply WellFormed_idsGenerated.
    cbn [snd]. unfold afterRequest. ctx_cbn. repeat split. eauto.
  - split; [now apply WellFormed_observe|].
    unfold exec. rewrite jsObserve_exec by now apply WellFormed_idsGenerated.
    cbn [snd]. unfold afterObserve. ctx_cbn. repeat split. eauto.
  - split; [now apply WellFormed_onReady|].
    unfold exec. rewrite jsOnReady_exec by now apply WellFormed_idsGenerated.
    cbn [snd]. unfold afterOnReady. ctx_cbn. repeat split. eauto.
  - ctx_simpl. split.
    + apply WellFormed_intro with c; auto; ctx_cbn; try lia; auto.
    + repeat split. exists []. now rewrite app_nil_r.
  - destruct f as [sel o]. ctx_simpl. split.
    + apply WellFormed_intro with c; auto; ctx_cbn; try lia; auto.
    + repeat split. exists []. now rewrite app_nil_r.
Qed.

Lemma setup_run extID script : forall c,
  WellFormed c -> forallb isSetupCall script = true ->
  WellFormed (run extID script c)
  /\ wsSubscriber (run extID script c) = wsSubscriber c
  /\ scheduled (run extID script c) = scheduled c
  /\ vmCalls (run extID script c) = vmCalls c
  /\ exists added, eventListeners (run extID script c) = eventListeners c ++ added.
Proof.
  induction script as [|a script IH]; intros c Hwf Hs.
  - cbn [run fold_left]. split; [exact Hwf|]. repeat split.
    exists []. now rewrite app_nil_r.
  - cbn [forallb] in Hs. apply andb_true_iff in Hs as [Ha Hs].
    destruct (setup_step extID a Hwf Ha) as (H1 & H2 & H3 & H4 & added1 & H5).
    destruct (IH _ H1 Hs) as (K1 & K2 & K3 & K4 & added2 & K5).
    change (run extID (a :: script) c) with (run extID script (step extID a c)).
    rewrite K2, K3, K4, K5, H2, H3, H4, H5. split; [exact K1|]. repeat split.
    exists (added1 ++ added2). now rewrite app_assoc.
Qed.

(** C8, as the code has it: [Register] works on the context that [NewUI]
    created.  A call whose callback makes setup calls stores a new
    subscriber in that context and starts one more goroutine; the event
    listeners registered before the call are all still registered after
    it, in front of those the callback adds, and the tasks scheduled and
    the calls made are what they were. *)
Theorem Register_keeps_the_context :
  forall (u : UI) (script : list Action),
    WellFormed (context u) ->
    forallb isSetupCall script = true ->
    extensionID (Register u script) = extensionID u
    /\ wsSubscriber (context (Register u script)) = Some (subscriptions u)
    /\ dispatchers (Register u script) = dispatchers u ++ [subscriptions u]
    /\ scheduled (context (Register u script)) = scheduled (context u)
    /\ vmCalls (context (Register u script)) = vmCalls (context u)
    /\ WellFormed (context (Register u script))
    /\ exists added,
        eventListeners (context (Register u script))
        = eventListeners (context u) ++ added.
Proof.
  intros u script Hwf Hs. unfold Register. cbn [extensionID context dispatchers].
  assert (Hwf' : WellFormed (setWsSubscriber (Some (subscriptions u)) (context u)))
    by (apply WellFormed_intro with (context u); auto; ctx_cbn; try lia; auto).
  destruct (setup_run (extensionID u) script Hwf' Hs) as (H1 & H2 & H3 & H4 & H5).
  split; [reflexivity|]. split; [exact H2|]. split; [reflexivity|].
  split; [exact H3|]. split; [exact H4|]. split; [exact H1 | exact H5].
Qed.

(** The second registration of a plugin whose callback registers a ready
    handler each time. *)
Lemma Register_keeps_the_context_twice :
  let u1 := Register (NewUI "my-plugin") [DoOnReady (mkCallable 1)] in
  let u2 := Register u1 [DoOnReady (mkCallable 2)] in
  extensionID u2 = extensionID u1
  /\ wsSubscriber (context u2) = Some (subscriptions u1)
  /\ dispatchers u2 = dispatchers u1 ++ [subscriptions u1]
  /\ scheduled (context u2) = scheduled (context u1)
  /\ vmCalls (context u2) = vmCalls (context u1)
  /\ WellFormed (context u2)
  /\ exists added, eventListeners (context u2) = eventListeners (context u1) ++ added.
Proof.
  cbv zeta.
  apply (Register_keeps_the_context
           (Register (NewUI "my-plugin") [DoOnReady (mkCallable 1)])
           [DoOnReady (mkCallable 2)]).
  - unfold Register. cbn [context NewUI extensionID subscriptions].
    apply WellFormed_run.
    apply WellFormed_intro with NewContext;
      [apply WellFormed_NewContext | | | | ]; ctx_cbn; auto.
  - reflexivity.
Defined.

(** C8: the sentence of the specification fails: after a second
    [Register] the listener of the first call is still in the context,
    next to the one of the second call, and one ready event from the
    client schedules the callbacks of both. *)
Lemma second_Register_keeps_first_listeners :
  let u1 := Register (NewUI "my-plugin") [DoOnReady (mkCallable 1)] in
  let u2 := Register u1 [DoOnReady (mkCallable 2)] in
  eventListeners (context u1)
  = [mkEventListener "0" [ClientDOMReadyEvent]
       (Some (OnReadyCallback (mkCallable 1) "0"))]
  /\ eventListeners (context u2)
     = [mkEventListener "0" [ClientDOMReadyEvent]
          (Some (OnReadyCallback (mkCallable 1) "0"));
        mkEventListener "1" [ClientDOMReadyEvent]
          (Some (OnReadyCallback (mkCallable 2) "1"))]
  /\ eventListeners (context u2)
     <> eventListeners (context (Register (NewUI "my-plugin") [DoOnReady (mkCallable 2)]))
  /\ scheduled (context (clientEvent u2 domReady))
     = [OnReadyTask (mkCallable 1) VNil; OnReadyTask (mkCallable 2) VNil].
Proof.
  cbv zeta. repeat split. discriminate.
Qed.

(* ================================================================== *)
(** * AppContext: several calls of SetModulesPartial *)
(* ================================================================== *)

Section AppContextCalls.
Import AppCtx AppCtxCalls.

Lemma setIfNotNil_twice (A : Type) (m1 m2 field : option A) :
  setIfNotNil m2 (setIfNotNil m1 field) = setIfNotNil (setIfNotNil m2 m1) field.
Proof. destruct m2, m1; reflexivity. Qed.

Lemma setIfNotNil_same (A : Type) (m field : option A) :
  setIfNotNil m (setIfNotNil m field) = setIfNotNil m field.
Proof. destruct m; reflexivity. Qed.

Lemma setIfNotNil_isSet (A : Type) (m field : option A) :
  isSet field -> isSet (setIfNotNil m field).
Proof. unfold isSet. destruct m; simpl; [discriminate | auto]. Qed.

Lemma appContext_eta a :
  mkAppContext (animeLibraryPaths a) (wsEventManager a) (database a)
               (playbackManager a) (mediaplayerRepo a) (anilistPlatform a)
               (onRefreshAnilistAnimeCollection a)
               (onRefreshAnilistMangaCollection a) = a.
Proof. destruct a; reflexivity. Qed.

(** X1. Two calls of [SetModulesPartial] give the context that one call
    gives for the modules taken together, where each field of the later
    call wins unless it is nil; in particular giving the same modules a
    second time changes nothing. *)
Theorem SetModulesPartial_twice :
  forall a earlier later,
    SetModulesPartial (SetModulesPartial a earlier) later
    = SetModulesPartial a (laterModules earlier later)
    /\ SetModulesPartial (SetModulesPartial a later) later
       = SetModulesPartial a later.
Proof.
  intros a earlier later. split.
  - unfold SetModulesPartial, laterModules.
    cbn [database animeLibraryPaths playbackManager anilistPlatform
         onRefreshAnilistAnimeCollection onRefreshAnilistMangaCollection
         wsEventManager mediaplayerRepo Database AnimeLibraryPaths
         AnilistPlatform PlaybackManager MediaPlayerRepository WSEventManager
         OnRefreshAnilistAnimeCollection OnRefreshAnilistMangaCollection].
    rewrite !setIfNotNil_twice. reflexivity.
  - unfold SetModulesPartial.
    cbn [database animeLibraryPaths playbackManager anilistPlatform
         onRefreshAnilistAnimeCollection onRefreshAnilistMangaCollection
         wsEventManager mediaplayerRepo].
    rewrite !setIfNotNil_same. reflexivity.
Qed.

(** X2. [SetModulesPartial] never unsets a handle: whatever modules are
    given, a handle that was set is still set afterwards, and with no
    module given the context is left as it was. *)
Theorem SetModulesPartial_never_unsets :
  forall a modules,
    (isSet (database a) -> isSet (database (SetModulesPartial a modules)))
    /\ (isSet (animeLibraryPaths a)
        -> isSet (animeLibraryPaths (SetModulesPartial a modules)))
    /\ (isSet (playbackManager a)
        -> isSet (playbackManager (SetModulesPartial a modules)))
    /\ (isSet (mediaplayerRepo a)
        -> isSet (mediaplayerRepo (SetModulesPartial a modules)))
    /\ (isSet (anilistPlatform a)
        -> isSet (anilistPlatform (SetModulesPartial a modules)))
    /\ (isSet (wsEventManager a)
        -> isSet (wsEventManager (SetModulesPartial a modules)))
    /\ (isSet (onRefreshAnilistAnimeCollection a)
        -> isSet (onRefreshAnilistAnimeCollection (SetModulesPartial a modules)))
    /\ (isSet (onRefreshAnilistMangaCollection a)
        -> isSet (onRefreshAnilistMangaCollection (SetModulesPartial a modules)))
    /\ SetModulesPartial a noModules = a.
Proof.
  intros a modules.
  repeat (split; [now (try apply setIfNotNil_isSet) |]).
  apply appContext_eta.
Qed.

End AppContextCalls.

(* ================================================================== *)
(** * Observers: cancelling more than once *)
(* ================================================================== *)

Lemma filter_all (A : Type) (p : A -> bool) (l : list A) :
  (forall x, In x l -> p x = true) -> filter p l = l.
Proof.
  induction l as [|x l IH]; intros H; [reflexivity|].
  simpl. rewrite (H x (or_introl eq_refl)). f_equal. apply IH.
  intros y Hy. apply H. now right.
Qed.

Lemma mapDelete_again (V : Type) (key : V -> string) a b (m : list V) :
  mapDelete key a (mapDelete key b (mapDelete key a m))
  = mapDelete key b (mapDelete key a m).
Proof.
  unfold mapDelete. apply filter_all. intros x Hx.
  apply filter_In in Hx. destruct Hx as [Hx _].
  apply filter_In in Hx. now destruct Hx.
Qed.

Lemma mapDelete_twice (V : Type) (key : V -> string) k (m : list V) :
  mapDelete key k (mapDelete key k m) = mapDelete key k m.
Proof.
  unfold mapDelete. apply filter_all. intros x Hx.
  apply filter_In in Hx. now destruct Hx.
Qed.

Lemma mapDelete_comm (V : Type) (key : V -> string) a b (m : list V) :
  mapDelete key a (mapDelete key b m) = mapDelete key b (mapDelete key a m).
Proof.
  unfold mapDelete. induction m as [|x m IH]; [reflexivity|].
  simpl. destruct (negb (key x =? b)%string) eqn:Eb, (negb (key x =? a)%string) eqn:Ea;
    simpl; rewrite ?Ea, ?Eb, IH; reflexivity.
Qed.

Lemma context_ext c c' :
  uuids c = uuids c' -> promises c = promises c' ->
  eventListeners c = eventListeners c' ->
  elementObservers c = elementObservers c' ->
  scheduled c = scheduled c' -> outbox c = outbox c' ->
  vmCalls c = vmCalls c' -> onCleanup c = onCleanup c' ->
  wsSubscriber c = wsSubscriber c' -> trayRenders c = trayRenders c' ->
  exceptionCount c = exceptionCount c' -> effectCalls c = effectCalls c' ->
  interrupted c = interrupted c' -> c = c'.
Proof. destruct c, c'. cbn. intros. subst. reflexivity. Qed.

Lemma runCancelFn_again f c :
  exec (runCancelFn f) (exec (runCancelFn f) c)
  = setOutbox (outbox (exec (runCancelFn f) c)
               ++ [ServerDOMStopObserveEvent (cancelObserverID f)])
              (exec (runCancelFn f) c).
Proof.
  destruct f as [l1 l2 o]. cbn [cancelObserverID].
  apply context_ext; ctx_simpl; try reflexivity.
  - rewrite (@mapDelete_comm _ ID l1 l2 (mapDelete ID l1 (eventListeners c))).
    now rewrite !mapDelete_twice.
  - apply mapDelete_twice.
Qed.

(** X3. A cancel function of [jsObserve] that is called again changes
    nothing in the context but sends [dom:stopObserve] once more; and
    since a call does not take the function off the cleanup list, the
    cleanup at unload sends [dom:stopObserve] again for an observer that
    the script has cancelled itself. *)
Theorem cancel_again_only_sends_stopObserve :
  forall (f : CancelFn) (c : Context),
    let stop := ServerDOMStopObserveEvent (cancelObserverID f) in
    let c1 := exec (runCancelFn f) c in
    outbox c1 = outbox c ++ [stop]
    /\ onCleanup c1 = onCleanup c
    /\ exec (runCancelFn f) c1 = setOutbox (outbox c1 ++ [stop]) c1
    /\ (In f (onCleanup c) ->
        exists sent, outbox (exec runCleanup c1) = outbox c ++ [stop] ++ sent
                     /\ In stop sent).
Proof.
  intros f c stop c1. split; [|split; [|split]].
  - unfold c1, stop. destruct f as [l1 l2 o]. now ctx_simpl.
  - unfold c1. destruct f as [l1 l2 o]. now ctx_simpl.
  - apply runCancelFn_again.
  - intros Hin.
    assert (Hin1 : In f (onCleanup c1)).
    { unfold c1. destruct f as [l1 l2 o]. ctx_simpl. exact Hin. }
    unfold runCleanup. rewrite !exec_bind. unfold gets, modify. cbn [fst snd].
    pose proof (cancelAll_stops (onCleanup c1) (setOnCleanup [] c1)) as H.
    cbv zeta in H. destruct H as (_ & _ & _ & sent & Hs & Hf).
    destruct (Hf f Hin1) as [H1 _].
    exists sent. split; [|exact H1].
    rewrite Hs. ctx_cbn. rewrite app_assoc.
    f_equal. unfold c1, stop. destruct f as [l1 l2 o]. now ctx_simpl.
Qed.

(* ================================================================== *)
(** * Listeners of DOM events *)
(* ================================================================== *)


Lemma mapDelete_last (V : Type) (key : V -> string) v (m : list V) :
  existsb (fun x => String.eqb (key x) (key v)) m = false ->
  mapDelete key (key v) (m ++ [v]) = m.
Proof.
  intros H. unfold mapDelete. rewrite filter_app. simpl.
  rewrite String.eqb_refl. simpl. rewrite app_nil_r.
  now apply mapDelete_fresh.
Qed.




(* ================================================================== *)
(** * Events that are for nobody *)
(* ================================================================== *)

Lemma route_Ignored extID ev :
  route extID ev = Ignored
  <-> wsType ev <> PluginEvent
      \/ (exists v, wsPayload ev = PayloadOther v)
      \/ (exists ce, wsPayload ev = PayloadObject ce
                     /\ ExtensionID ce <> "" /\ ExtensionID ce <> extID).
Proof.
  unfold route. destruct ev as [t p]. cbn [wsType wsPayload].
  destruct t as [|name].
  - destruct p as [ce|v].
    + destruct (String.eqb_spec (ExtensionID ce) "") as [E1|E1];
        destruct (String.eqb_spec (ExtensionID ce) extID) as [E2|E2]; cbn [orb].
      1-3: split;
        [ intros H; destruct (Type_ ce); discriminate H
        | intros [H|[(v & H)|(ce' & H & H1 & H2)]];
          [ now elim H | discriminate H
          | injection H as <-; congruence ] ].
      split; [|reflexivity]. intros _. right. right. now exists ce.
    + split; [|reflexivity]. intros _. right. left. now exists v.
  - split; [|reflexivity]. intros _. left. discriminate.
Qed.

Lemma deliverAll_unchanged sends c :
  (forall send, In send sends -> exec (deliver (fst send) (snd send)) c = c) ->
  exec (deliverAll sends) c = c.
Proof.
  induction sends as [|send sends IH]; intros H; [reflexivity|].
  rewrite exec_deliverAll_cons, (H send (or_introl eq_refl)).
  apply IH. intros s Hs. apply H. now right.
Qed.

Lemma deliver_no_callback id ev c :
  (forall l, In l (eventListeners c) -> callback l = None) ->
  exec (deliver id ev) c = c.
Proof.
  intros H. unfold deliver. rewrite exec_bind. unfold gets. cbn [fst snd].
  destruct (mapGet ID id (eventListeners c)) as [l|] eqn:E; [|reflexivity].
  apply mapGet_Some in E. destruct E as [Hin _]. now rewrite (H l Hin).
Qed.

(** X5. An envelope that is not a plugin event, whose payload is not an
    object, or that is addressed to another plugin is ignored: the context
    stays as it is.  So does it on an event of the plugin that no listener
    listens to, and while no listener has a callback. *)
Theorem event_for_nobody_changes_nothing :
  forall (extID : string) (ev : WSEvent) (c : Context),
    (route extID ev = Ignored
     <-> wsType ev <> PluginEvent
         \/ (exists v, wsPayload ev = PayloadOther v)
         \/ (exists ce, wsPayload ev = PayloadObject ce
                        /\ ExtensionID ce <> "" /\ ExtensionID ce <> extID))
    /\ (route extID ev = Ignored -> step extID (DoClientEvent ev) c = c)
    /\ (forall ce,
           route extID ev = ToListeners ce ->
           (forall l, In l (eventListeners c) ->
                      ListenTo l <> [] /\ ~ In (Type_ ce) (ListenTo l)) ->
           step extID (DoClientEvent ev) c = c)
    /\ (forall ce,
           route extID ev = ToListeners ce ->
           (forall l, In l (eventListeners c) -> callback l = None) ->
           step extID (DoClientEvent ev) c = c).
Proof.
  intros extID ev c. split; [apply route_Ignored|]. split; [|split].
  - intros H. cbn [step]. unfold handleWSEvent. now rewrite H.
  - intros ce H Hl. cbn [step]. unfold handleWSEvent. rewrite H.
    rewrite exec_bind. unfold gets. cbn [fst snd].
    assert (E : fanOut (eventListeners c) ce = []).
    { destruct (fanOut (eventListeners c) ce) as [|[id e] rest] eqn:E; [reflexivity|].
      assert (Hin : In (id, e) (fanOut (eventListeners c) ce)) by (rewrite E; now left).
      apply fanOut_spec in Hin. destruct Hin as (_ & l & Hin & _ & [H1|H1]).
      - now destruct (Hl l Hin).
      - now destruct (Hl l Hin). }
    now rewrite E.
  - intros ce H Hl. cbn [step]. unfold handleWSEvent. rewrite H.
    rewrite exec_bind. unfold gets. cbn [fst snd].
    apply deliverAll_unchanged. intros send _. now apply deliver_no_callback.
Qed.

(* ================================================================== *)
(** * Ready handlers *)
(* ================================================================== *)

Lemma count_mapDelete_in (p : EventListener -> bool) (L : list EventListener) l :
  In l L -> p l = true ->
  count p (mapDelete ID (ID l) L) + 1 <= count p L.
Proof.
  unfold count, mapDelete. induction L as [|x L IH]; simpl; [contradiction|].
  intros [->|Hin] Hl.
  - rewrite String.eqb_refl, Hl. simpl.
    pose proof (count_filter_le p (fun v => negb (String.eqb (ID v) (ID l))) L) as H.
    unfold count in H. lia.
  - specialize (IH Hin Hl).
    destruct (String.eqb (ID x) (ID l)), (p x) eqn:Hx; simpl;
      rewrite ?Hx; simpl; lia.
Qed.

Lemma count_mapDelete_le (p : EventListener -> bool) (L : list EventListener) id :
  count p (mapDelete ID id L) <= count p L.
Proof. apply count_filter_le. Qed.

(** The holders of a ready handler: listeners, tasks and calls. *)
Lemma ready_callback fn l cb ev c :
  WellFormed c -> In l (eventListeners c) -> callback l = Some cb ->
  readyWaiting fn (exec (runListenerCallback cb ev) c)
  + readyPending fn (exec (runListenerCallback cb ev) c)
  + readyCalled fn (exec (runListenerCallback cb ev) c)
  <= readyWaiting fn c + readyPending fn c + readyCalled fn c.
Proof.
  intros Hc Hin Hcb.
  assert (Hown : forall lid, callbackListenerID cb = Some lid -> lid = ID l).
  { destruct Hc as [HL _]. rewrite Forall_forall in HL.
    destruct (HL l Hin) as [_ H]. intros lid. now apply H. }
  unfold readyWaiting, readyPending, readyCalled.
  destruct cb; cbn [runListenerCallback].
  - rewrite (Hown listenerID eq_refl). ctx_simpl.
    rewrite count_app, count_cons, count_nil. cbn [readyTask].
    destruct (callableEqb fn callback0) eqn:E.
    + assert (Hl : readyListener fn l = true) by (unfold readyListener; now rewrite Hcb).
      pose proof (count_mapDelete_in (readyListener fn) _ _ Hin Hl). lia.
    + pose proof (count_mapDelete_le (readyListener fn) (eventListeners c) (ID l)). lia.
  - destruct (ParsePayloadAsQueryResult ev) as [payload|]; [|reflexivity].
    destruct (String.eqb (qr_RequestID payload) requestId); [|reflexivity].
    ctx_simpl. rewrite count_app, count_cons, count_nil. cbn [readyTask].
    pose proof (count_mapDelete_le (readyListener fn) (eventListeners c) listenerID). lia.
  - destruct (ParsePayloadAsQueryOneResult ev) as [payload|]; [|reflexivity].
    destruct (String.eqb (qo_RequestID payload) requestId); [|reflexivity].
    ctx_simpl. rewrite count_app, count_cons, count_nil. cbn [readyTask].
    pose proof (count_mapDelete_le (readyListener fn) (eventListeners c) listenerID). lia.
  - destruct (ParsePayloadAsObserveResult ev) as [payload|]; [|reflexivity].
    destruct (String.eqb (ob_ObserverID payload) observerID); [|reflexivity].
    ctx_simpl. rewrite count_app, count_cons, count_nil. cbn [readyTask]. lia.
  - ctx_simpl.
    pose proof (count_mapDelete_le (readyListener fn) (eventListeners c) listenerID). lia.
  - destruct (ParsePayloadAsCreateResult ev) as [payload|]; [|reflexivity].
    destruct (String.eqb (cr_RequestID payload) requestId); [|reflexivity].
    pose proof (count_mapDelete_le (readyListener fn) (eventListeners c) listenerID).
    destruct (assertMap (cr_Element payload)); ctx_simpl;
      rewrite ?count_app, ?count_cons, ?count_nil; cbn [readyTask]; lia.
  - destruct (ParsePayloadAsElementUpdated ev) as [payload|]; [|reflexivity].
    destruct (getterAccepts g elementId requestId payload); [|reflexivity].
    ctx_simpl. rewrite count_app, count_cons, count_nil. cbn [readyTask].
    pose proof (count_mapDelete_le (readyListener fn) (eventListeners c) listenerID). lia.
Qed.

Lemma ready_handleException fn c :
  readyWaiting fn (exec handleException c) = readyWaiting fn c
  /\ readyPending fn (exec handleException c) = readyPending fn c
  /\ readyCalled fn (exec handleException c) = readyCalled fn c.
Proof.
  unfold readyWaiting, readyPending, readyCalled. ctx_simpl.
  destruct (Nat.ltb MAX_EXCEPTIONS (S (exceptionCount c))); ctx_cbn; auto.
Qed.

Lemma ready_cancel fn f c :
  readyWaiting fn (exec (runCancelFn f) c) + readyPending fn (exec (runCancelFn f) c)
  + readyCalled fn (exec (runCancelFn f) c)
  <= readyWaiting fn c + readyPending fn c + readyCalled fn c.
Proof.
  unfold readyWaiting, readyPending, readyCalled. destruct f as [l1 l2 o]. ctx_simpl.
  pose proof (count_mapDelete_le (readyListener fn) (eventListeners c) l1).
  pose proof (count_mapDelete_le (readyListener fn) (mapDelete ID l1 (eventListeners c)) l2).
  lia.
Qed.

Lemma ready_task fn t rest throws c :
  scheduled c = t :: rest ->
  readyWaiting fn (exec (runTask t throws) (setScheduled rest c))
  + readyPending fn (exec (runTask t throws) (setScheduled rest c))
  + readyCalled fn (exec (runTask t throws) (setScheduled rest c))
  <= readyWaiting fn c + readyPending fn c + readyCalled fn c.
Proof.
  intros Hs.
  assert (Hpop : forall call,
             readyCall fn call = readyTask fn t ->
             readyWaiting fn (exec (vmCall call) (setScheduled rest c))
             + readyPending fn (exec (vmCall call) (setScheduled rest c))
             + readyCalled fn (exec (vmCall call) (setScheduled rest c))
             <= readyWaiting fn c + readyPending fn c + readyCalled fn c).
  { intros call Hcall. unfold readyWaiting, readyPending, readyCalled. ctx_simpl.
    rewrite Hs, count_app, !count_cons, count_nil, Hcall.
    destruct (readyTask fn t); lia. }
  assert (Hthrow : forall call,
             readyCall fn call = readyTask fn t ->
             readyWaiting fn (exec handleException (exec (vmCall call) (setScheduled rest c)))
             + readyPending fn (exec handleException (exec (vmCall call) (setScheduled rest c)))
             + readyCalled fn (exec handleException (exec (vmCall call) (setScheduled rest c)))
             <= readyWaiting fn c + readyPending fn c + readyCalled fn c).
  { intros call Hcall.
    destruct (ready_handleException fn (exec (vmCall call) (setScheduled rest c)))
      as (-> & -> & ->).
    now apply Hpop. }
  destruct t as [resolve v | cb payload | observerID elements]; cbn [runTask].
  - now apply Hpop.
  - rewrite exec_bind. destruct throws; [now apply Hthrow | now apply Hpop].
  - rewrite exec_bind. unfold gets. cbn [fst snd].
    destruct (mapGet obsID observerID (elementObservers (setScheduled rest c)))
      as [observer|].
    + rewrite exec_bind. destruct throws; [now apply Hthrow | now apply Hpop].
    + unfold readyWaiting, readyPending, readyCalled. ctx_simpl.
      rewrite Hs, count_cons. cbn [readyTask]. lia.
Qed.

Lemma WellFormed_step extID a c : WellFormed c -> WellFormed (step extID a c).
Proof. intros H. exact (@WellFormed_run extID [a] c H). Qed.

Lemma ready_step extID fn a c :
  WellFormed c ->
  readyWaiting fn (step extID a c) + readyPending fn (step extID a c)
  + readyCalled fn (step extID a c)
  <= readyWaiting fn c + readyPending fn c + readyCalled fn c
     + (if isOnReadyOf fn a then 1 else 0).
Proof.
  intros Hc. pose proof (WellFormed_idsGenerated Hc) as Hg.
  set (n := readyWaiting fn c + readyPending fn c + readyCalled fn c).
  pose (P := fun c' => WellFormed c'
                       /\ readyWaiting fn c' + readyPending fn c' + readyCalled fn c' <= n).
  assert (HP : P c) by (split; [exact Hc | unfold n; lia]).
  assert (Hcb : forall l cb ev c',
             P c' -> In l (eventListeners c') -> callback l = Some cb ->
             P (exec (runListenerCallback cb ev) c')).
  { intros l cb ev c' [Hw Hn] Hin Hl. split.
    - now apply WellFormed_callback with l.
    - pose proof (@ready_callback fn l cb ev c' Hw Hin Hl). lia. }
  assert (Hcancel : forall f c', P c' -> P (exec (runCancelFn f) c')).
  { intros f c' [Hw Hn]. split.
    - now apply WellFormed_cancel.
    - pose proof (ready_cancel fn f c'). lia. }
  destruct a; cbn [step isOnReadyOf].
  - unfold exec. rewrite (issue_exec r Hg). cbn [snd].
    unfold n, readyWaiting, readyPending, readyCalled, afterRequest. ctx_cbn.
    rewrite count_app, count_cons, count_nil.
    destruct r; cbn [readyListener requestListener requestCallback callback]; lia.
  - unfold exec. rewrite (jsObserve_exec selector callback0 Hg). cbn [snd].
    unfold n, readyWaiting, readyPending, readyCalled, afterObserve, observeListeners.
    ctx_cbn. rewrite count_app, !count_cons, count_nil.
    cbn [readyListener callback]. lia.
  - unfold exec. rewrite (jsOnReady_exec callback0 Hg). cbn [snd].
    unfold n, readyWaiting, readyPending, readyCalled, afterOnReady. ctx_cbn.
    rewrite count_app, count_cons, count_nil. cbn [readyListener callback].
    destruct (callableEqb fn callback0); lia.
  - unfold n, readyWaiting, readyPending, readyCalled. ctx_simpl. lia.
  - pose proof (ready_cancel fn f c). fold n in H. lia.
  - unfold n, readyWaiting, readyPending, readyCalled. destruct f. ctx_simpl. lia.
  - unfold handleWSEvent. destruct (route extID event).
    + cbn. lia.
    + unfold n, readyWaiting, readyPending, readyCalled. ctx_simpl. lia.
    + rewrite exec_bind. unfold gets. cbn [fst snd].
      destruct (@deliverAll_invariant P Hcb (fanOut (eventListeners c) clientEvent0) c HP)
        as [_ H]. lia.
  - unfold runNextTask. rewrite !exec_bind. unfold gets. cbn [fst snd].
    destruct (interrupted c); [cbn; lia|].
    destruct (scheduled c) as [|t rest] eqn:Es; [cbn; lia|].
    rewrite exec_bind. unfold modify. cbn [fst snd].
    pose proof (@ready_task fn t rest throws c Es). fold n in H. lia.
  - unfold runCleanup. rewrite !exec_bind. unfold gets, modify. cbn [fst snd].
    assert (HP' : P (setOnCleanup [] c)).
    { split.
      - apply WellFormed_intro with c; auto; ctx_cbn; try lia; auto.
      - unfold readyWaiting, readyPending, readyCalled. ctx_cbn.
        unfold n, readyWaiting, readyPending, readyCalled. lia. }
    destruct (@cancelAll_invariant P Hcancel (onCleanup c) (setOnCleanup [] c) HP')
      as [_ H]. lia.
Qed.

Lemma ready_run extID fn actions : forall c,
  WellFormed c ->
  readyWaiting fn (run extID actions c) + readyPending fn (run extID actions c)
  + readyCalled fn (run extID actions c)
  <= readyWaiting fn c + readyPending fn c + readyCalled fn c
     + readyRegistrations fn actions.
Proof.
  induction actions as [|a actions IH]; intros c Hc.
  - cbn. lia.
  - cbn [run fold_left]. fold (run extID actions (step extID a c)).
    pose proof (IH _ (@WellFormed_step extID a c Hc)) as H1.
    pose proof (@ready_step extID fn a c Hc) as H2.
    unfold readyRegistrations in *. rewrite count_cons. lia.
Qed.

(** X6. A function given to [onReady] is called at most once for every
    call of [onReady] with it: in every run of a plugin, the listeners
    that still hold it, the tasks scheduled for it and the calls made are
    together no more than the registrations; without a registration it is
    never called. *)
Theorem ready_handler_runs_at_most_once_per_registration :
  forall (extID : string) (fn : Callable) (actions : list Action),
    let c := run extID actions NewContext in
    readyWaiting fn c + readyPending fn c + readyCalled fn c
    <= readyRegistrations fn actions
    /\ readyCalled fn c <= readyRegistrations fn actions
    /\ (readyRegistrations fn actions = 0 ->
        forall payload, ~ In (CallOnReady fn payload) (vmCalls c)).
Proof.
  intros extID fn actions c.
  pose proof (@ready_run extID fn actions NewContext WellFormed_NewContext) as H.
  fold c in H. change (readyWaiting fn NewContext) with 0 in H.
  change (readyPending fn NewContext) with 0 in H.
  change (readyCalled fn NewContext) with 0 in H.
  split; [lia|]. split; [lia|].
  intros H0 payload Hin.
  assert (Hc : readyCalled fn c = 0) by lia.
  unfold readyCalled, count in Hc.
  assert (Hf : In (CallOnReady fn payload) (filter (readyCall fn) (vmCalls c))).
  { apply filter_In. split; [exact Hin|]. cbn. destruct fn. apply Nat.eqb_refl. }
  destruct (filter (readyCall fn) (vmCalls c)); [destruct Hf | discriminate Hc].
Qed.

(* ================================================================== *)
(** * Every run keeps the listeners consistent *)
(* ================================================================== *)

Lemma listenerConsistent_mono c c' l :
  uuids c <= uuids c' -> listenerConsistent c l -> listenerConsistent c' l.
Proof.
  intros Hle (cb & H1 & H2 & H3). exists cb. split; [exact H1|]. split; [exact H2|].
  intros rid Hr. apply generated_mono with c; auto.
Qed.

Lemma NoDup_map_filter (A B : Type) (f : A -> B) (q : A -> bool) (l : list A) :
  NoDup (map f l) -> NoDup (map f (filter q l)).
Proof.
  induction l as [|x l IH]; intros H; [constructor|].
  cbn [map] in H. inversion H as [|? ? Hn Hd]; subst. cbn [filter].
  destruct (q x); [|now apply IH].
  cbn [map]. constructor; [|now apply IH].
  intros Hin. apply Hn. apply in_map_iff in Hin. destruct Hin as (y & Hy & Hin).
  apply filter_In in Hin. destruct Hin as [Hin _].
  apply in_map_iff. now exists y.
Qed.

Lemma Consistent_filter c c' q :
  Consistent c -> uuids c <= uuids c' ->
  eventListeners c' = filter q (eventListeners c) ->
  Consistent c'.
Proof.
  intros [HL HN] Hle E. split; rewrite E.
  - rewrite Forall_forall in *. intros l Hl. apply filter_In in Hl.
    destruct Hl as [Hl _]. apply listenerConsistent_mono with c; auto.
  - now apply NoDup_map_filter.
Qed.

Lemma Consistent_same c c' :
  Consistent c -> uuids c <= uuids c' ->
  eventListeners c' = eventListeners c ->
  Consistent c'.
Proof.
  intros Hc Hle E. apply Consistent_filter with (c := c) (q := fun _ => true); auto.
  rewrite E. symmetry. now apply filter_all.
Qed.

Lemma existsb_ID_false (L : list EventListener) id :
  existsb (fun l => String.eqb (ID l) id) L = false -> ~ In id (map ID L).
Proof.
  intros H Hin. apply in_map_iff in Hin. destruct Hin as (l & <- & Hin).
  assert (existsb (fun x => String.eqb (ID x) (ID l)) L = true) as E.
  { apply existsb_exists. exists l. split; [exact Hin | apply String.eqb_refl]. }
  congruence.
Qed.

Lemma NoDup_snoc (A : Type) (l : list A) x : NoDup l -> ~ In x l -> NoDup (l ++ [x]).
Proof.
  intros Hl Hx. induction Hl as [|y l Hy Hl IH]; cbn.
  - constructor; [intros []|constructor].
  - constructor.
    + intros Hin. apply in_app_or in Hin. destruct Hin as [Hin|[->|[]]]; auto.
      apply Hx. now left.
    + apply IH. intros Hin. apply Hx. now right.
Qed.

(** New listeners with fresh ids, one after the other. *)
Lemma Consistent_added c c' l :
  WellFormed c -> Consistent c -> uuids c <= uuids c' ->
  eventListeners c' = eventListeners c ++ [l] ->
  (exists n, uuids c <= n /\ ID l = uuidString n) ->
  listenerConsistent c' l ->
  Consistent c'.
Proof.
  intros Hw [HL HN] Hle E (n & Hn & Hid) Hl. split; rewrite E.
  - apply Forall_app. split; [|now repeat constructor].
    rewrite Forall_forall in *. intros x Hx.
    apply listenerConsistent_mono with c; auto.
  - rewrite map_app. cbn [map]. apply NoDup_snoc; [exact HN|].
    rewrite Hid. apply existsb_ID_false.
    apply fresh_above with c; [now apply WellFormed_idsGenerated | exact Hn].
Qed.

Lemma requestCallback_event r rid resolve lid :
  callbackEvent (requestCallback r rid resolve lid) = requestListenTo r.
Proof. now destruct r. Qed.

Lemma requestCallback_requestID r rid resolve lid :
  callbackRequestID (requestCallback r rid resolve lid) = Some rid.
Proof. now destruct r. Qed.

Lemma Consistent_issue r c :
  WellFormed c -> Consistent c -> Consistent (exec (issue r) c).
Proof.
  intros Hw Hc. unfold exec. rewrite (issue_exec r (WellFormed_idsGenerated Hw)).
  cbn [snd]. apply Consistent_added with (c := c) (l := requestListener r c); auto.
  - unfold afterRequest. ctx_cbn. lia.
  - exists (S (uuids c)). split; [lia | reflexivity].
  - eexists. split; [reflexivity|]. cbn [requestListener ListenTo].
    rewrite requestCallback_event. split; [reflexivity|].
    intros rid Hr. rewrite requestCallback_requestID in Hr. injection Hr as <-.
    exists (uuids c). unfold afterRequest. ctx_cbn. split; [lia | reflexivity].
Qed.

Lemma WellFormed_listeners c c' :
  WellFormed c -> uuids c <= uuids c' -> promises c <= promises c' ->
  scheduled c' = scheduled c -> vmCalls c' = vmCalls c ->
  (forall l, In l (eventListeners c') -> In l (eventListeners c) \/
             (listenerOk c' l /\ forall f, listenerHolds f l = false)) ->
  (forall f, count (listenerHolds f) (eventListeners c')
             <= count (listenerHolds f) (eventListeners c)) ->
  WellFormed c'.
Proof.
  intros Hw Hu Hp Hs Hv Hl Hcount.
  apply WellFormed_intro with c; auto.
  - intros l Hin. destruct (Hl l Hin) as [H|[H _]]; auto.
  - intros f. unfold holders, waiting, pending, called. rewrite Hs, Hv.
    specialize (Hcount f). lia.
Qed.

Lemma Consistent_observe selector fn c :
  WellFormed c -> Consistent c -> Consistent (exec (jsObserve selector fn) c).
Proof.
  intros Hw Hc. unfold exec. rewrite (jsObserve_exec selector fn (WellFormed_idsGenerated Hw)).
  cbn [snd].
  set (l1 := {| ID := uuidString (S (uuids c));
                ListenTo := [ClientDOMObserveResultEvent];
                callback := Some (ObserveCallback (uuidString (uuids c))) |}).
  set (c1 := setEventListeners (eventListeners c ++ [l1]) (setUuids (S (S (uuids c))) c)).
  assert (Hw1 : WellFormed c1).
  { apply WellFormed_listeners with c; auto; unfold c1; ctx_cbn; try lia.
    - intros l Hin. apply in_app_or in Hin. destruct Hin as [Hin|[<-|[]]]; auto.
      right. split; [|reflexivity]. split.
      + exists (S (uuids c)). ctx_cbn. split; [lia|reflexivity].
      + intros cb lid Hcb. cbn in Hcb. injection Hcb as <-. discriminate.
    - intros f. rewrite count_app, count_cons, count_nil. cbn. lia. }
  assert (Hc1 : Consistent c1).
  { apply Consistent_added with (c := c) (l := l1); auto; unfold c1; ctx_cbn; try lia.
    - exists (S (uuids c)). split; [lia | reflexivity].
    - eexists. split; [reflexivity|]. split; [reflexivity|].
      intros rid Hr. injection Hr as <-. exists (uuids c). ctx_cbn.
      split; [lia | reflexivity]. }
  apply Consistent_added
    with (c := c1)
         (l := {| ID := uuidString (S (S (uuids c)));
                  ListenTo := [ClientDOMReadyEvent];
                  callback := Some (ObserveDOMReadyCallback selector (uuidString (uuids c))
                                      (uuidString (S (S (uuids c))))) |}); auto.
  - unfold afterObserve, c1. ctx_cbn. lia.
  - unfold afterObserve, observeListeners, c1. ctx_cbn. now rewrite <- app_assoc.
  - exists (S (S (uuids c))). unfold c1. ctx_cbn. split; [lia | reflexivity].
  - eexists. split; [reflexivity|]. split; [reflexivity|]. discriminate.
Qed.

Lemma Consistent_onReady fn c :
  WellFormed c -> Consistent c -> Consistent (exec (jsOnReady fn) c).
Proof.
  intros Hw Hc. unfold exec. rewrite (jsOnReady_exec fn (WellFormed_idsGenerated Hw)).
  cbn [snd].
  apply Consistent_added
    with (c := c)
         (l := {| ID := uuidString (uuids c); ListenTo := [ClientDOMReadyEvent];
                  callback := Some (OnReadyCallback fn (uuidString (uuids c))) |}); auto.
  - unfold afterOnReady. ctx_cbn. lia.
  - exists (uuids c). split; [lia | reflexivity].
  - eexists. split; [reflexivity|]. split; [reflexivity|]. discriminate.
Qed.

Lemma Consistent_cancel f c : Consistent c -> Consistent (exec (runCancelFn f) c).
Proof.
  intros Hc. destruct f as [l1 l2 o].
  assert (H1 : Consistent (setEventListeners (mapDelete ID l1 (eventListeners c)) c)).
  { apply Consistent_filter
      with (c := c) (q := fun v => negb (String.eqb (ID v) l1)); auto. }
  apply Consistent_filter
    with (c := setEventListeners (mapDelete ID l1 (eventListeners c)) c)
         (q := fun v => negb (String.eqb (ID v) l2)); auto; now ctx_simpl.
Qed.

Lemma Consistent_callback cb ev c :
  Consistent c -> Consistent (exec (runListenerCallback cb ev) c).
Proof.
  intros Hc.
  destruct (runListenerCallback_effect cb ev c) as (unreg & tasks & sent & -> & _).
  unfold applyEffect.
  destruct unreg, (callbackListenerID cb) as [lid|].
  - apply Consistent_filter
      with (c := c) (q := fun v => negb (String.eqb (ID v) lid)); auto.
  - apply Consistent_same with c; auto.
  - apply Consistent_same with c; auto.
  - apply Consistent_same with c; auto.
Qed.

Lemma runTask_listeners t throws c :
  uuids (exec (runTask t throws) c) = uuids c
  /\ eventListeners (exec (runTask t throws) c) = eventListeners c.
Proof.
  destruct t as [resolve v | fn payload | observerID elements]; cbn [runTask].
  - now ctx_simpl.
  - destruct throws; ctx_simpl;
      try destruct (Nat.ltb MAX_EXCEPTIONS (S (exceptionCount c))); now ctx_cbn.
  - rewrite exec_bind. unfold gets. cbn [fst snd].
    destruct (mapGet obsID observerID (elementObservers c)); [|now cbn].
    destruct throws; ctx_simpl;
      try destruct (Nat.ltb MAX_EXCEPTIONS (S (exceptionCount c))); now ctx_cbn.
Qed.

Lemma Consistent_run extID actions c :
  WellFormed c -> Consistent c ->
  WellFormed (run extID actions c) /\ Consistent (run extID actions c).
Proof.
  intros Hw Hc.
  apply run_invariant with (P := fun c => WellFormed c /\ Consistent c); auto.
  - intros r c0 [H1 H2]. split; [now apply WellFormed_issue | now apply Consistent_issue].
  - intros s f c0 [H1 H2].
    split; [now apply WellFormed_observe | now apply Consistent_observe].
  - intros f c0 [H1 H2].
    split; [now apply WellFormed_onReady | now apply Consistent_onReady].
  - intros e a p c0 [H1 H2].
    split; [exact (@WellFormed_step extID (DoSetter e a p) c0 H1)|].
    apply Consistent_same with c0; auto.
  - intros f c0 [H1 H2]. split; [now apply WellFormed_cancel | now apply Consistent_cancel].
  - intros f c0 [H1 H2].
    split; [exact (@WellFormed_step extID (DoRefetch f) c0 H1)|].
    destruct f. apply Consistent_same with c0; auto.
  - intros c0 [H1 H2]. split.
    + apply WellFormed_intro with c0; auto; ctx_cbn; try lia; auto.
    + apply Consistent_same with c0; auto.
  - intros l cb ev c0 [H1 H2] Hin Hcb.
    split; [now apply WellFormed_callback with l | now apply Consistent_callback].
  - intros t rest throws c0 [H1 H2] _ Hs. split; [now apply WellFormed_task|].
    destruct (runTask_listeners t throws (setScheduled rest c0)) as [Hu Hl].
    apply Consistent_same with c0; auto. rewrite Hu. ctx_cbn. lia.
  - intros c0 [H1 H2]. split.
    + apply WellFormed_intro with c0; auto; ctx_cbn; try lia; auto.
    + apply Consistent_same with c0; auto.
Qed.

Lemma Consistent_NewContext : Consistent NewContext.
Proof. split; cbn; constructor. Qed.

Lemma Consistent_reachable extID actions : Consistent (run extID actions NewContext).
Proof.
  now apply Consistent_run; [apply WellFormed_NewContext | apply Consistent_NewContext].
Qed.

(* ================================================================== *)
(** * Replies and the listeners that wait for them *)
(* ================================================================== *)

Lemma mapGet_NoDup (V : Type) (key : V -> string) (m : list V) v :
  NoDup (map key m) -> In v m -> mapGet key (key v) m = Some v.
Proof.
  unfold mapGet. induction m as [|x m IH]; intros Hn Hin; [destruct Hin|].
  cbn [map] in Hn. inversion Hn as [|? ? Hx Hm]; subst. cbn [find].
  destruct Hin as [->|Hin]; [now rewrite String.eqb_refl|].
  destruct (String.eqb_spec (key x) (key v)) as [E|E]; [|now apply IH].
  exfalso. apply Hx. rewrite E. now apply in_map.
Qed.

Lemma deliver_listener c l ev :
  Consistent c -> In l (eventListeners c) ->
  exec (deliver (ID l) ev) c
  = match callback l with
    | Some cb => exec (runListenerCallback cb ev) c
    | None => c
    end.
Proof.
  intros [_ Hn] Hin. unfold deliver. rewrite exec_bind. unfold gets. cbn [fst snd].
  rewrite (mapGet_NoDup ID _ l Hn Hin). now destruct (callback l).
Qed.

Lemma exec_deliverAll_app a b c :
  exec (deliverAll (a ++ b)) c = exec (deliverAll b) (exec (deliverAll a) c).
Proof.
  revert c. induction a as [|x a IH]; intros c; [reflexivity|].
  cbn [app]. now rewrite !exec_deliverAll_cons, IH.
Qed.

Lemma fanOut_app l1 l2 ce : fanOut (l1 ++ l2) ce = fanOut l1 ce ++ fanOut l2 ce.
Proof. unfold fanOut. apply flat_map_app. Qed.

(** A callback that waits for another request id leaves a reply alone. *)
Lemma callback_ignores cb ce c :
  callbackEvent cb = Type_ ce -> isReply (Type_ ce) = true ->
  (forall rid, callbackRequestID cb = Some rid -> replyRequestID ce <> Some rid) ->
  exec (runListenerCallback cb ce) c = c.
Proof.
  intros Ht Hr Hid. unfold replyRequestID in Hid. rewrite <- Ht in Hid, Hr.
  destruct cb; cbn [callbackEvent isReply] in *; try discriminate Hr;
    cbn [runListenerCallback].
  - destruct (ParsePayloadAsQueryResult ce) as [payload|]; [|reflexivity].
    destruct (String.eqb_spec (qr_RequestID payload) requestId) as [E|E]; [|reflexivity].
    exfalso. apply (Hid requestId eq_refl). cbn. now rewrite E.
  - destruct (ParsePayloadAsQueryOneResult ce) as [payload|]; [|reflexivity].
    destruct (String.eqb_spec (qo_RequestID payload) requestId) as [E|E]; [|reflexivity].
    exfalso. apply (Hid requestId eq_refl). cbn. now rewrite E.
  - destruct (ParsePayloadAsObserveResult ce) as [payload|]; [|reflexivity].
    destruct (String.eqb_spec (ob_ObserverID payload) observerID) as [E|E]; [|reflexivity].
    exfalso. apply (Hid observerID eq_refl). cbn. now rewrite E.
  - destruct (ParsePayloadAsCreateResult ce) as [payload|]; [|reflexivity].
    destruct (String.eqb_spec (cr_RequestID payload) requestId) as [E|E]; [|reflexivity].
    exfalso. apply (Hid requestId eq_refl). cbn. now rewrite E.
  - destruct (ParsePayloadAsElementUpdated ce) as [payload|]; [|reflexivity].
    unfold getterAccepts.
    destruct (String.eqb_spec (eu_RequestID payload) requestId) as [E|E].
    + exfalso. apply (Hid requestId eq_refl). cbn. now rewrite E.
    + now rewrite andb_false_r.
Qed.

(** The sends of a fan-out that go to listeners which wait for something
    else change nothing. *)
Lemma deliverAll_ignored (L : list EventListener) ce c :
  Consistent c -> isReply (Type_ ce) = true ->
  (forall l, In l L -> In l (eventListeners c)) ->
  (forall l cb rid, In l L -> callback l = Some cb ->
                    callbackRequestID cb = Some rid -> replyRequestID ce <> Some rid) ->
  exec (deliverAll (fanOut L ce)) c = c.
Proof.
  intros Hc Hr Hsub Hid. apply deliverAll_unchanged. intros [id e] Hin.
  apply fanOut_spec in Hin. destruct Hin as (-> & l & Hl & <- & Hlisten).
  cbn [fst snd]. rewrite (@deliver_listener c l ce Hc (Hsub l Hl)).
  destruct Hc as [HL _]. rewrite Forall_forall in HL.
  destruct (HL l (Hsub l Hl)) as (cb & Hcb & Hto & _). rewrite Hcb.
  apply callback_ignores; auto.
  - rewrite Hto in Hlisten. destruct Hlisten as [H|[H|[]]]; [discriminate H | exact H].
  - intros rid Hrid. now apply (Hid l cb rid).
Qed.

(** X7. A reply of the client (to a request or to an observer) that
    carries an id no listener waits for (the id of a request that has been
    answered already, or an id the server never gave out) leaves the
    context of every run as it is. *)
Theorem reply_nobody_awaits_changes_nothing :
  forall (extID : string) (actions : list Action) (ev : WSEvent) (ce : ClientPluginEvent),
    let c := run extID actions NewContext in
    route extID ev = ToListeners ce ->
    isReply (Type_ ce) = true ->
    (forall requestId, replyRequestID ce = Some requestId -> ~ awaited requestId c) ->
    step extID (DoClientEvent ev) c = c.
Proof.
  intros extID actions ev ce c Hroute Hr Hid. cbn [step]. unfold handleWSEvent.
  rewrite Hroute, exec_bind. unfold gets. cbn [fst snd].
  apply deliverAll_ignored; auto.
  - apply Consistent_reachable.
  - intros l cb rid Hl Hcb Hrid E. apply (Hid rid E). now exists l, cb.
Qed.

(** X7 on a run with one request pending: a reply with an id that was
    never given out. *)
Lemma reply_nobody_awaits_changes_nothing_unknown_id :
  let ce := mkClientEvent "my-plugin" ClientDOMElementUpdatedEvent
              (VObject [("elementId", VString "card-1"); ("action", VString "getText");
                        ("result", VString "text"); ("requestId", VString "5")]) in
  let c := run "my-plugin" [DoRequest (ReqGetter GetText "card-1" "")] NewContext in
  step "my-plugin" (DoClientEvent (mkWSEvent PluginEvent (PayloadObject ce))) c = c.
Proof.
  intros ce c.
  apply (@reply_nobody_awaits_changes_nothing
           "my-plugin" [DoRequest (ReqGetter GetText "card-1" "")]
           (mkWSEvent PluginEvent (PayloadObject ce)) ce).
  - reflexivity.
  - reflexivity.
  - intros rid E. injection E as <-. intros (l & cb & Hin & Hcb & Hrid).
    destruct Hin as [<-|[]]. injection Hcb as <-. discriminate Hrid.
Defined.

(* ================================================================== *)
(** * Requests answered by the client *)
(* ================================================================== *)



Lemma generated_fresh id c n : generated id c -> uuids c <= n -> id <> uuidString n.
Proof. intros (k & Hk & ->) Hn E. apply uuidString_inj in E. lia. Qed.

Lemma elementObjects_page elements :
  elementObjects (map elementToDOMElement elements) = map pageElementObject elements.
Proof.
  unfold elementObjects. induction elements as [|e es IH]; [reflexivity|].
  cbn [map flat_map]. rewrite IH. reflexivity.
Qed.

Lemma lookupField_refSet k v (m : list (string * Value)) :
  lookupField k (refSet k v m) = Some v.
Proof.
  induction m as [|[k' v'] m IH]; cbn [refSet lookupField].
  - now rewrite String.eqb_refl.
  - destruct (String.eqb_spec k' k) as [->|E]; cbn [lookupField].
    + now rewrite String.eqb_refl.
    + destruct (String.eqb_spec k k') as [E'|_]; [now elim E | exact IH].
Qed.

Lemma pageElementObject_id element : elemId (pageElementObject element) = peId element.
Proof.
  unfold pageElementObject, createDOMElementObject, domElementFields.
  cbn [elemId lookupField String.eqb Ascii.eqb Bool.eqb]. unfold fieldAny.
  now rewrite lookupField_refSet.
Qed.

Lemma receive_one extID m c :
  receive extID [m] c = exec (handleWSEvent extID (envelope m)) c.
Proof. reflexivity. Qed.

Lemma route_own extID type payload :
  isReply type = true ->
  route extID (envelope (mkClientEvent extID type payload))
  = ToListeners (mkClientEvent extID type payload).
Proof.
  intros H. unfold route, envelope.
  cbn [wsType wsPayload ExtensionID Type_]. rewrite String.eqb_refl, orb_true_r.
  now destruct type.
Qed.

Lemma requestListenTo_isReply r : isReply (requestListenTo r) = true.
Proof. now destruct r. Qed.

(** The reply to the request made last reaches the callback of that
    request, and no other listener does anything with it. *)
Lemma reply_reaches_listener extID ev ce r c :
  WellFormed c -> Consistent c ->
  route extID ev = ToListeners ce ->
  Type_ ce = requestListenTo r ->
  replyRequestID ce = Some (uuidString (uuids c)) ->
  exec (handleWSEvent extID ev) (afterRequest r c)
  = exec (runListenerCallback
            (requestCallback r (uuidString (uuids c)) (Resolve (promises c))
                             (uuidString (S (uuids c)))) ce)
         (afterRequest r c).
Proof.
  intros Hw Hc Hroute Ht Hid.
  assert (Hc1 : Consistent (afterRequest r c)).
  { pose proof (Consistent_issue r Hw Hc) as H. unfold exec in H.
    now rewrite (issue_exec r (WellFormed_idsGenerated Hw)) in H. }
  unfold handleWSEvent. rewrite Hroute, exec_bind. unfold gets. cbn [fst snd].
  unfold afterRequest at 1. ctx_cbn. rewrite fanOut_app, exec_deliverAll_app.
  rewrite (@deliverAll_ignored (eventListeners c) ce (afterRequest r c)); auto.
  - assert (E : fanOut [requestListener r c] ce = [(ID (requestListener r c), ce)]).
    { unfold fanOut, listenerSends, requestListener.
      cbn [flat_map ListenTo ID List.length Nat.ltb Nat.leb map app].
      rewrite <- Ht. unfold eventTypeEqb.
      destruct (ClientEventType_eq_dec (Type_ ce) (Type_ ce)) as [_|N]; [reflexivity|].
      now elim N. }
    rewrite E, exec_deliverAll_cons. cbn [fst snd deliverAll fold_right].
    rewrite (@deliver_listener (afterRequest r c) (requestListener r c) ce Hc1).
    + reflexivity.
    + unfold afterRequest. ctx_cbn. apply in_or_app. right. now left.
  - rewrite Ht. apply requestListenTo_isReply.
  - intros l Hl. unfold afterRequest. ctx_cbn. apply in_or_app. now left.
  - intros l cb rid Hl Hcb Hrid. rewrite Hid. intros E. injection E as E.
    destruct Hc as [HL _]. rewrite Forall_forall in HL.
    destruct (HL l Hl) as (cb' & Hcb' & _ & Hgen).
    rewrite Hcb in Hcb'. injection Hcb' as <-.
    apply (@generated_fresh rid c (uuids c) (Hgen rid Hrid) (Nat.le_refl _)).
    now symmetry.
Qed.

Lemma request_taken r c v :
  WellFormed c ->
  exec (UnregisterEventListener (uuidString (S (uuids c))))
       (exec (ScheduleAsync (ResolveTask (Resolve (promises c)) v)) (afterRequest r c))
  = setScheduled (scheduled (afterRequest r c) ++ [ResolveTask (Resolve (promises c)) v])
                 (setEventListeners (eventListeners c) (afterRequest r c)).
Proof.
  intros Hw. apply context_ext; unfold afterRequest; ctx_simpl; try reflexivity.
  apply (@mapDelete_last _ ID (requestListener r c)).
  apply fresh_above with c; [now apply WellFormed_idsGenerated | lia].
Qed.




Lemma updated_reply_taken extID g elementId rid resolve lid result c :
  (g = GetStyles -> isNil result = false) ->
  exec (runListenerCallback (ElementUpdatedCallback g elementId rid resolve lid)
          (mkClientEvent extID ClientDOMElementUpdatedEvent
             (VObject [("elementId", VString elementId);
                       ("action", VString (getterAction g));
                       ("result", result);
                       ("requestId", VString rid)]))) c
  = exec (UnregisterEventListener lid)
         (exec (ScheduleAsync (ResolveTask resolve (getterResult g result))) c).
Proof.
  intros Hnil. cbn [runListenerCallback]. unfold ParsePayloadAsElementUpdated.
  cbn [Payload payloadFields fieldString fieldAny lookupField String.eqb Ascii.eqb
       Bool.eqb].
  unfold getterAccepts. cbn [eu_Action eu_ElementID eu_RequestID eu_Result].
  rewrite !String.eqb_refl. cbn [andb].
  destruct g; try reflexivity. now rewrite (Hnil eq_refl).
Qed.






(* ================================================================== *)
(** * The client: what it sends, and when *)
(* ================================================================== *)

Lemma clientRun_cons document call rest cl :
  clientRun ((document, call) :: rest) cl
  = (fst (clientStep document call cl)
       ++ fst (clientRun rest (snd (clientStep document call cl))),
     snd (clientRun rest (snd (clientStep document call cl)))).
Proof.
  cbn [clientRun]. destruct (clientStep document call cl) as [sent cl'].
  cbn [fst snd]. now destruct (clientRun rest cl').
Qed.

Lemma clientRun_app a b : forall cl,
  fst (clientRun (a ++ b) cl)
  = fst (clientRun a cl) ++ fst (clientRun b (snd (clientRun a cl)))
  /\ snd (clientRun (a ++ b) cl) = snd (clientRun b (snd (clientRun a cl))).
Proof.
  induction a as [|[document call] a IH]; intros cl; [now split|].
  cbn [app]. rewrite !clientRun_cons. cbn [fst snd].
  destruct (IH (snd (clientStep document call cl))) as [-> ->].
  now rewrite app_assoc.
Qed.

(** The messages of the [MutationObserver] are observe results for
    observers of the list, with the id of the client. *)
Lemma mutationCallbackEach_sent cl document observers : forall observed m,
  In m (fst (mutationCallbackEach cl document observers observed)) ->
  ExtensionID m = clExtensionId cl
  /\ Type_ m = ClientDOMObserveResultEvent
  /\ exists observerId elements,
       In observerId (map fst observers)
       /\ Payload m = VObject [("observerId", VString observerId);
                               ("elements", VArray elements)].
Proof.
  induction observers as [|[observerId selector] observers IH]; intros observed m Hm;
    [destruct Hm|].
  cbn [mutationCallbackEach] in Hm.
  set (observedSet := match refGet observerId observed with
                      | Some ids => ids
                      | None => []
                      end) in *.
  destruct (Nat.ltb 0 (List.length (matchedElements document selector observedSet))).
  - destruct (mutationCallbackEach cl document observers
                (refSet observerId
                   (observedSet
                    ++ map peId (matchedElements document selector observedSet))
                   observed)) as [sent observed'] eqn:E.
    cbn [fst] in Hm. apply in_app_or in Hm. destruct Hm as [Hm|Hm].
    + unfold safeSendPluginMessage in Hm.
      destruct (disposedRef cl); [destruct Hm|]. destruct Hm as [<-|[]].
      split; [reflexivity|]. split; [reflexivity|].
      eexists _, _. split; [now left | reflexivity].
    + assert (Hin : In m (fst (mutationCallbackEach cl document observers
                (refSet observerId
                   (observedSet
                    ++ map peId (matchedElements document selector observedSet))
                   observed)))) by now rewrite E.
      destruct (IH _ m Hin) as (H1 & H2 & o & es & Ho & Hp).
      split; [exact H1|]. split; [exact H2|]. exists o, es. split; [now right | exact Hp].
  - destruct (IH _ m Hm) as (H1 & H2 & o & es & Ho & Hp).
    split; [exact H1|]. split; [exact H2|]. exists o, es. split; [now right | exact Hp].
Qed.

(** One call: what is sent carries the extension id of the client, and
    the extension id and the disposal of the client stay. *)
Lemma clientStep_sent document call cl :
  clExtensionId (snd (clientStep document call cl)) = clExtensionId cl
  /\ (disposedRef cl = true ->
      fst (clientStep document call cl) = []
      /\ disposedRef (snd (clientStep document call cl)) = true)
  /\ forall m, In m (fst (clientStep document call cl)) ->
               ExtensionID m = clExtensionId cl.
Proof.
  destruct call as [|event| |]; cbn [clientStep].
  - unfold sendDOMReadyEvent, safeSendPluginMessage.
    destruct (disposedRef cl) eqn:Ed; cbn [orb fst snd].
    + repeat split; auto. intros m [].
    + destruct (domReadySentRef cl); cbn [fst snd clExtensionId disposedRef].
      * repeat split; try discriminate. intros m [].
      * repeat split; try discriminate. now intros m [<-|[]].
  - destruct event as [sel rid|sel rid|sel oid|oid|tag rid|el act params rid|];
      cbn [clientTakes fst snd];
      unfold handleDOMQuery, handleDOMQueryOne, handleDOMObserve, handleDOMCreate,
        handleDOMManipulate, handleDOMStopObserve, safeSendPluginMessage;
      destruct (disposedRef cl) eqn:Ed; cbn [fst snd clExtensionId disposedRef];
      repeat split; try discriminate; auto; try (now intros m []);
      try (now intros m [<-|[]]).
    + destruct (Nat.ltb 0 (List.length (querySelectorAll document sel)));
        [now intros m [<-|[]] | now intros m []].
    + cbn [optElementId optAction]. intros m.
      destruct (getElementById document el);
        [destruct (String.eqb act "query"); [|destruct (String.eqb act "queryOne")]|];
        now intros [<-|[]].
  - unfold mutationCallback. destruct (disposedRef cl) eqn:Ed; cbn [fst snd].
    + repeat split; auto. intros m [].
    + destruct (mutationCallbackEach cl document (elementObserversRef cl)
                  (observedElementsRef cl)) as [sent observed] eqn:E.
      cbn [fst snd clExtensionId disposedRef]. repeat split; try discriminate.
      intros m Hm.
      assert (Hin : In m (fst (mutationCallbackEach cl document (elementObserversRef cl)
                                 (observedElementsRef cl)))) by now rewrite E.
      now destruct (mutationCallbackEach_sent _ _ _ _ _ Hin).
  - cbn [fst snd cleanup clExtensionId disposedRef]. repeat split; auto. intros m [].
Qed.

Lemma clientRun_disposed calls : forall cl,
  disposedRef cl = true -> fst (clientRun calls cl) = [].
Proof.
  induction calls as [|[document call] calls IH]; intros cl Hd; [reflexivity|].
  rewrite clientRun_cons. cbn [fst].
  destruct (clientStep_sent document call cl) as (_ & H & _).
  destruct (H Hd) as [-> Hd']. now rewrite (IH _ Hd').
Qed.

Lemma clientRun_extensionId calls : forall cl m,
  In m (fst (clientRun calls cl)) -> ExtensionID m = clExtensionId cl.
Proof.
  induction calls as [|[document call] calls IH]; intros cl m Hm; [destruct Hm|].
  rewrite clientRun_cons in Hm. cbn [fst] in Hm.
  destruct (clientStep_sent document call cl) as (He & _ & Hs).
  apply in_app_or in Hm. destruct Hm as [Hm|Hm]; [now apply Hs|].
  rewrite <- He. now apply IH.
Qed.

(** The [dom:ready] messages the client may still send. *)
Lemma clientStep_ready document call cl :
  count (isOfType ClientDOMReadyEvent) (fst (clientStep document call cl))
  + (if disposedRef (snd (clientStep document call cl))
        || domReadySentRef (snd (clientStep document call cl)) then 0 else 1)
  <= (if disposedRef cl || domReadySentRef cl then 0 else 1).
Proof.
  assert (Hother : forall sent,
             (forall m, In m sent -> Type_ m <> ClientDOMReadyEvent) ->
             count (isOfType ClientDOMReadyEvent) sent = 0).
  { intros sent H. induction sent as [|m sent IH]; [reflexivity|].
    rewrite count_cons, IH by (intros x Hx; apply H; now right).
    unfold isOfType. destruct (eventTypeEqb (Type_ m) ClientDOMReadyEvent) eqn:E;
      [|reflexivity].
    apply eventTypeEqb_true in E. now elim (H m (or_introl eq_refl)). }
  destruct call as [|event| |]; cbn [clientStep].
  - unfold sendDOMReadyEvent, safeSendPluginMessage.
    destruct (disposedRef cl) eqn:Ed; cbn [orb fst snd]; [rewrite ?Ed; cbn; lia|].
    destruct (domReadySentRef cl) eqn:Er; cbn [fst snd disposedRef domReadySentRef].
    + rewrite ?Ed, ?Er. cbn. lia.
    + rewrite ?Ed. cbn. lia.
  - destruct event as [sel rid|sel rid|sel oid|oid|tag rid|el act params rid|];
      cbn [clientTakes fst snd];
      unfold handleDOMQuery, handleDOMQueryOne, handleDOMObserve, handleDOMCreate,
        handleDOMManipulate, handleDOMStopObserve, safeSendPluginMessage;
      destruct (disposedRef cl) eqn:Ed;
      cbn [fst snd disposedRef domReadySentRef orb]; rewrite ?Ed; cbn [orb];
      try (cbn; lia).
    + destruct (Nat.ltb 0 (List.length (querySelectorAll document sel))); cbn;
        destruct (domReadySentRef cl); lia.
    + cbn [optElementId optAction].
      destruct (getElementById document el);
        [destruct (String.eqb act "query"); [|destruct (String.eqb act "queryOne")]|];
        cbn; destruct (domReadySentRef cl); lia.
  - unfold mutationCallback. destruct (disposedRef cl) eqn:Ed; cbn [fst snd].
    + rewrite ?Ed. cbn. lia.
    + destruct (mutationCallbackEach cl document (elementObserversRef cl)
                  (observedElementsRef cl)) as [sent observed] eqn:E.
      cbn [fst snd disposedRef domReadySentRef]. rewrite ?Ed. cbn [orb].
      rewrite Hother; [lia|]. intros m Hm.
      assert (Hin : In m (fst (mutationCallbackEach cl document (elementObserversRef cl)
                                 (observedElementsRef cl)))) by now rewrite E.
      destruct (mutationCallbackEach_sent _ _ _ _ _ Hin) as (_ & -> & _). discriminate.
  - cbn. lia.
Qed.

Lemma clientRun_ready calls : forall cl,
  count (isOfType ClientDOMReadyEvent) (fst (clientRun calls cl))
  <= (if disposedRef cl || domReadySentRef cl then 0 else 1).
Proof.
  induction calls as [|[document call] calls IH]; intros cl; [cbn; lia|].
  rewrite clientRun_cons. cbn [fst]. rewrite count_app.
  pose proof (clientStep_ready document call cl).
  pose proof (IH (snd (clientStep document call cl))). lia.
Qed.

(** X10. Whatever is called on the hook, in whatever order and on
    whatever documents: [dom:ready] is sent at most once; every message
    carries the extension id of the hook; and once [cleanup] has run,
    nothing is sent any more. *)
Theorem client_sends_ready_once_and_nothing_after_cleanup :
  forall (extensionId : string) (calls : list (Document * ClientCall)),
    let sent := fst (clientRun calls (NewClient extensionId)) in
    count (isOfType ClientDOMReadyEvent) sent <= 1
    /\ (forall m, In m sent -> ExtensionID m = extensionId)
    /\ (forall before document after,
           calls = before ++ (document, OnCleanup) :: after ->
           sent = fst (clientRun before (NewClient extensionId))).
Proof.
  intros extensionId calls sent. split; [|split].
  - exact (clientRun_ready calls (NewClient extensionId)).
  - intros m Hm. exact (clientRun_extensionId calls (NewClient extensionId) m Hm).
  - intros before document after ->. unfold sent.
    destruct (clientRun_app before ((document, OnCleanup) :: after)
                            (NewClient extensionId)) as [-> _].
    rewrite clientRun_cons. cbn [clientStep fst snd app].
    rewrite (@clientRun_disposed after
               (cleanup (snd (clientRun before (NewClient extensionId)))))
      by reflexivity.
    now rewrite app_nil_r.
Qed.

(** ** Observers on the client *)

Lemma count_none (A : Type) (p : A -> bool) (l : list A) :
  (forall x, In x l -> p x = false) -> count p l = 0.
Proof.
  induction l as [|x l IH]; intros H; [reflexivity|].
  rewrite count_cons, (H x (or_introl eq_refl)), IH; [reflexivity|].
  intros y Hy. apply H. now right.
Qed.

Lemma refDelete_keys (V : Type) k k' (m : list (string * V)) :
  In k (map fst (refDelete k' m)) -> k <> k' /\ In k (map fst m).
Proof.
  induction m as [|[k0 v] m IH]; cbn [refDelete map fst]; [intros []|].
  destruct (String.eqb_spec k0 k') as [->|E].
  - intros H. destruct (IH H) as [H1 H2]. split; [exact H1 | now right].
  - cbn [map fst]. intros [<-|H]; [split; [exact E | now left]|].
    destruct (IH H) as [H1 H2]. split; [exact H1 | now right].
Qed.

Lemma refSet_keys (V : Type) k k' (v : V) (m : list (string * V)) :
  In k (map fst (refSet k' v m)) -> k = k' \/ In k (map fst m).
Proof.
  induction m as [|[k0 v0] m IH]; cbn [refSet map fst].
  - intros [<-|[]]. now left.
  - destruct (String.eqb_spec k0 k') as [->|E]; cbn [map fst].
    + intros [<-|H]; [now left | right; now right].
    + intros [<-|H]; [right; now left|].
      destruct (IH H) as [->|H']; [now left | right; now right].
Qed.

Lemma observeResult_for o elements extensionId observerId :
  isObserveResultFor observerId
    (mkClientEvent extensionId ClientDOMObserveResultEvent
       (VObject [("observerId", VString o); ("elements", VArray elements)]))
  = String.eqb o observerId.
Proof. reflexivity. Qed.

(** One call on a client that does not observe for an id: it sends no
    observe result for that id and does not observe for it afterwards,
    unless the call is a [dom:observe] for that id. *)
Lemma clientStep_not_observing document call cl observerId :
  ~ In observerId (map fst (elementObserversRef cl)) ->
  observesFor observerId (document, call) = false ->
  count (isObserveResultFor observerId) (fst (clientStep document call cl)) = 0
  /\ ~ In observerId (map fst (elementObserversRef (snd (clientStep document call cl)))).
Proof.
  intros Hnot Hcall. destruct call as [|event| |]; cbn [clientStep].
  - unfold sendDOMReadyEvent, safeSendPluginMessage.
    destruct (disposedRef cl || domReadySentRef cl); cbn [fst snd]; [now split|].
    destruct (disposedRef cl); cbn [elementObserversRef]; now split.
  - destruct event as [sel rid|sel rid|sel oid|oid|tag rid|el act params rid|];
      cbn [clientTakes fst snd];
      unfold handleDOMQuery, handleDOMQueryOne, handleDOMObserve, handleDOMCreate,
        handleDOMManipulate, handleDOMStopObserve, safeSendPluginMessage;
      destruct (disposedRef cl) eqn:Ed; cbn [fst snd elementObserversRef];
      try (now split).
    + cbn [observesFor snd] in Hcall. split.
      * destruct (Nat.ltb 0 (List.length (querySelectorAll document sel)));
          [|reflexivity].
        rewrite count_cons, count_nil, observeResult_for, Hcall. reflexivity.
      * intros H. apply refSet_keys in H. destruct H as [->|H]; [|now apply Hnot].
        now rewrite String.eqb_refl in Hcall.
    + split; [reflexivity|]. intros H. apply refDelete_keys in H. now apply Hnot.
    + split; [reflexivity|]. intros H. apply refDelete_keys in H. now apply Hnot.
    + split; [|exact Hnot]. cbn [optElementId optAction].
      destruct (getElementById document el);
        [destruct (String.eqb act "query"); [|destruct (String.eqb act "queryOne")]|];
        reflexivity.
  - unfold mutationCallback. destruct (disposedRef cl) eqn:Ed; cbn [fst snd];
      [now split|].
    destruct (mutationCallbackEach cl document (elementObserversRef cl)
                (observedElementsRef cl)) as [sent observed] eqn:E.
    cbn [fst snd elementObserversRef]. split; [|exact Hnot].
    apply count_none. intros m Hm.
    assert (Hin : In m (fst (mutationCallbackEach cl document (elementObserversRef cl)
                               (observedElementsRef cl)))) by now rewrite E.
    destruct (mutationCallbackEach_sent _ _ _ _ _ Hin) as (_ & Ht & o & es & Ho & Hp).
    destruct m as [ext type payload]. cbn [Type_ Payload] in Ht, Hp. subst type payload.
    rewrite observeResult_for. apply String.eqb_neq. intros ->. now apply Hnot.
  - cbn [fst snd cleanup elementObserversRef]. split; [reflexivity | intros []].
Qed.

Lemma clientRun_not_observing calls observerId : forall cl,
  ~ In observerId (map fst (elementObserversRef cl)) ->
  existsb (observesFor observerId) calls = false ->
  count (isObserveResultFor observerId) (fst (clientRun calls cl)) = 0.
Proof.
  induction calls as [|[document call] calls IH]; intros cl Hnot Hcalls; [reflexivity|].
  cbn [existsb] in Hcalls. apply orb_false_iff in Hcalls. destruct Hcalls as [H1 H2].
  rewrite clientRun_cons. cbn [fst]. rewrite count_app.
  destruct (@clientStep_not_observing document call cl observerId Hnot H1) as [-> Hnot'].
  now rewrite (IH _ Hnot' H2).
Qed.

(** X11. The client stops observing when it is told to: after
    [handleDOMStopObserve] for an observer id, whatever is called on the
    hook and however the page changes, no observe result with that
    observer id is sent, until the server asks to observe for that id
    again; while a [dom:observe] that finds elements is answered at once
    with one observe result for its observer id. *)
Theorem client_observer_stopped :
  forall (cl : Client) (observerId : string) (calls : list (Document * ClientCall)),
    existsb (observesFor observerId) calls = false ->
    count (isObserveResultFor observerId)
          (fst (clientRun calls (handleDOMStopObserve cl observerId))) = 0
    /\ forall document selector,
         disposedRef cl = false -> querySelectorAll document selector <> [] ->
         count (isObserveResultFor observerId)
               (fst (handleDOMObserve cl document selector observerId)) = 1.
Proof.
  intros cl observerId calls Hcalls. split.
  - apply clientRun_not_observing; [|exact Hcalls].
    cbn [handleDOMStopObserve elementObserversRef]. intros H.
    apply refDelete_keys in H. now destruct H.
  - intros document selector Hd Hne. unfold handleDOMObserve, safeSendPluginMessage.
    rewrite Hd. cbn [fst].
    destruct (querySelectorAll document selector) as [|e es]; [now elim Hne|].
    cbn [List.length Nat.ltb Nat.leb].
    rewrite count_cons, count_nil, observeResult_for, String.eqb_refl. reflexivity.
Qed.

(** X11 on a page that keeps matching: the observer is stopped, the page
    changes twice and another observer is registered. *)
Lemma client_observer_stopped_while_page_changes :
  let card := mkPageElement "card-1" "div" [] in
  let document :=
    mkDocument (fun _ => [card]) (fun _ => Some card) (fun _ => card)
               (fun _ => None) (fun _ _ => [card]) in
  let cl := snd (handleDOMObserve (NewClient "my-plugin") document ".card" "0") in
  let calls := [(document, OnMutation);
                (document, OnServerEvent (ServerDOMObserveEvent ".card" "1"));
                (document, OnMutation)] in
  count (isObserveResultFor "0") (fst (clientRun calls cl)) = 2
  /\ count (isObserveResultFor "0")
           (fst (clientRun calls (handleDOMStopObserve cl "0"))) = 0.
Proof.
  intros card document cl calls. split; [reflexivity|].
  exact (proj1 (@client_observer_stopped cl "0" calls eq_refl)).
Defined.

(* ================================================================== *)
(** * The parameters of a manipulation, as sent and as read *)
(* ================================================================== *)

Lemma skipn_length_app (A : Type) (l x : list A) : skipn (List.length l) (l ++ x) = x.
Proof. induction l as [|a l IH]; [reflexivity | exact IH]. Qed.

Lemma sentBy_outbox (A : Type) (m : M A) c sent :
  outbox (exec m c) = outbox c ++ sent -> sentBy m c = sent.
Proof. intros H. unfold sentBy. rewrite H. apply skipn_length_app. Qed.

Lemma manipulateResult_params element action p1 p2 :
  (forall k, In k (paramsRead action) -> param k p1 = param k p2) ->
  manipulateResult element action p1 = manipulateResult element action p2.
Proof.
  intros H. unfold manipulateResult.
  repeat match goal with
  | |- context [String.eqb action ?s] =>
      destruct (String.eqb_spec action s) as [->|?];
      [ cbn [paramsRead String.eqb Ascii.eqb Bool.eqb] in H;
        rewrite ?(H _ (or_introl eq_refl)); reflexivity
      | ]
  end.
  reflexivity.
Qed.

(** X12. The parameters of a manipulation on both sides of the socket.
    The result the client computes depends on the parameters only through
    the fields that the case of the action reads.  The getters, the
    nested queries and eleven of the setters of dom.go send only
    parameters that the client's case reads.  [appendElement],
    [insertElementBefore], [insertElementAfter] and the two events of
    [addElementEventListener] do not: they send the other element's id
    and the listener's id as [childID], [siblingID] and [listenerID],
    while the client reads [childId], [siblingId] and [listenerId], which
    are undefined in what it is sent. *)
Theorem manipulation_params_sent_and_read :
  (forall element action p1 p2,
      (forall k, In k (paramsRead action) -> param k p1 = param k p2) ->
      manipulateResult element action p1 = manipulateResult element action p2)
  /\ (forall c g e arg, map unreadParams (sentBy (elementGetter g e arg) c) = [[]])
  /\ (forall c e selector,
         map unreadParams (sentBy (elementQuery e selector) c) = [[]]
         /\ map unreadParams (sentBy (elementQueryOne e selector) c) = [[]])
  /\ (forall c e a b v,
         map unreadParams (sentBy (setElementText e a) c) = [[]]
         /\ map unreadParams (sentBy (setElementAttribute e a b) c) = [[]]
         /\ map unreadParams (sentBy (removeElementAttribute e a) c) = [[]]
         /\ map unreadParams (sentBy (addElementClass e a) c) = [[]]
         /\ map unreadParams (sentBy (removeElementClass e a) c) = [[]]
         /\ map unreadParams (sentBy (setElementStyle e a b) c) = [[]]
         /\ map unreadParams (sentBy (removeElementStyle e a) c) = [[]]
         /\ map unreadParams (sentBy (removeElement e) c) = [[]]
         /\ map unreadParams (sentBy (setElementProperty e a v) c) = [[]]
         /\ map unreadParams (sentBy (setElementDataAttribute e a b) c) = [[]]
         /\ map unreadParams (sentBy (removeElementDataAttribute e a) c) = [[]])
  /\ (forall c e other,
         map unreadParams (sentBy (appendElement e other) c) = [["childID"]]
         /\ map undefinedParams (sentBy (appendElement e other) c) = [["childId"]]
         /\ map unreadParams (sentBy (insertElementBefore e other) c) = [["siblingID"]]
         /\ map undefinedParams (sentBy (insertElementBefore e other) c) = [["siblingId"]]
         /\ map unreadParams (sentBy (insertElementAfter e other) c) = [["siblingID"]]
         /\ map undefinedParams (sentBy (insertElementAfter e other) c) = [["siblingId"]])
  /\ (forall e event fn d,
         let remove := fst (addElementEventListener e event fn d) in
         let d1 := snd (addElementEventListener e event fn d) in
         let d2 := runRemoveListenerFn remove d1 in
         let added := skipn (List.length (outbox (ctx d))) (outbox (ctx d1)) in
         let removed := skipn (List.length (outbox (ctx d1))) (outbox (ctx d2)) in
         map unreadParams added = [["listenerID"]]
         /\ map undefinedParams added = [["listenerId"]]
         /\ map unreadParams removed = [["listenerID"]]
         /\ map undefinedParams removed = [["listenerId"]]).
Proof.
  split; [exact manipulateResult_params|].
  split.
  { intros c g e arg.
    rewrite (@sentBy_outbox _ (elementGetter g e arg) c
               [ServerDOMManipulateEvent e (getterAction g) (getterParams g arg)
                                         (uuidString (uuids c))])
      by now ctx_simpl.
    now destruct g. }
  split.
  { intros c e selector. split.
    - rewrite (@sentBy_outbox _ (elementQuery e selector) c
                 [ServerDOMManipulateEvent e "query"
                    [("selector", VString selector);
                     ("requestId", VString (uuidString (uuids c)))] ""])
        by now ctx_simpl.
      reflexivity.
    - rewrite (@sentBy_outbox _ (elementQueryOne e selector) c
                 [ServerDOMManipulateEvent e "queryOne"
                    [("selector", VString selector);
                     ("requestId", VString (uuidString (uuids c)))] ""])
        by now ctx_simpl.
      reflexivity. }
  assert (Hset : forall c e action params,
             sentBy (elementSetter e action params) c
             = [ServerDOMManipulateEvent e action params ""]).
  { intros c e action params. apply sentBy_outbox. now ctx_simpl. }
  split.
  { intros c e a b v.
    unfold setElementText, setElementAttribute, removeElementAttribute, addElementClass,
      removeElementClass, setElementStyle, removeElementStyle, removeElement,
      setElementProperty, setElementDataAttribute, removeElementDataAttribute.
    rewrite !Hset. repeat split. }
  split.
  { intros c e other.
    unfold appendElement, insertElementBefore, insertElementAfter.
    rewrite !Hset. repeat split. }
  intros e event fn d remove d1 d2 added removed.
  assert (Ha : added = [ServerDOMManipulateEvent e "addEventListener"
                          [("event", VString event);
                           ("listenerID", VString (uuidString (uuids (ctx d))))] ""]).
  { unfold added, d1, addElementEventListener, uuidNew. ctx_simpl.
    apply skipn_length_app. }
  assert (Hr : removed = [ServerDOMManipulateEvent e "removeEventListener"
                            [("event", VString event);
                             ("listenerID", VString (uuidString (uuids (ctx d))))] ""]).
  { unfold removed, d2, remove, d1, addElementEventListener, uuidNew. ctx_simpl.
    apply skipn_length_app. }
  rewrite Ha, Hr. repeat split.
Qed.

(* ================================================================== *)
(** * A promise that nothing holds any more *)
(* ================================================================== *)

Lemma holders_callback f l cb ev c :
  WellFormed c -> In l (eventListeners c) -> callback l = Some cb ->
  holders f (exec (runListenerCallback cb ev) c) <= holders f c.
Proof.
  intros Hc Hin Hcb.
  destruct (runListenerCallback_effect cb ev c)
    as (unreg & tasks & sent & -> & Hlen & _ & _ & Hid & Htask & _).
  assert (Hown : forall lid, callbackListenerID cb = Some lid -> lid = ID l).
  { destruct Hc as [HL _]. rewrite Forall_forall in HL.
    destruct (HL l Hin) as [_ H]. intros lid. now apply H. }
  unfold applyEffect, holders, waiting, pending, called. ctx_cbn.
  rewrite count_app.
  destruct tasks as [|t [|t' tasks]]; [| |cbn in Hlen; lia].
  - rewrite count_nil.
    destruct unreg, (callbackListenerID cb) as [lid|]; try lia.
    pose proof (count_mapDelete_le (listenerHolds f) (eventListeners c) lid). lia.
  - rewrite count_cons, count_nil.
    destruct (taskHolds f t) eqn:Et.
    + destruct t as [resolve v| |]; try discriminate. cbn [taskHolds] in Et.
      destruct (Htask _ resolve v (or_introl eq_refl) eq_refl) as [Hs ->].
      destruct (callbackListenerID cb) as [lid|] eqn:El;
        [|now exfalso; apply Hid].
      rewrite (Hown lid eq_refl).
      assert (listenerHolds f l = true) as Hl
          by (unfold listenerHolds; now rewrite Hcb, Hs).
      pose proof (count_mapDelete_in (listenerHolds f) _ _ Hin Hl). lia.
    + destruct unreg, (callbackListenerID cb) as [lid|]; try lia.
      pose proof (count_mapDelete_le (listenerHolds f) (eventListeners c) lid). lia.
Qed.

Lemma holders_handleException f c : holders f (exec handleException c) = holders f c.
Proof.
  unfold holders, waiting, pending, called. ctx_simpl.
  destruct (Nat.ltb MAX_EXCEPTIONS (S (exceptionCount c))); now ctx_cbn.
Qed.

Lemma holders_task f t rest throws c :
  scheduled c = t :: rest ->
  holders f (exec (runTask t throws) (setScheduled rest c)) <= holders f c.
Proof.
  intros Hs.
  assert (Hpop : forall call,
             callHolds f call = taskHolds f t ->
             holders f (exec (vmCall call) (setScheduled rest c)) <= holders f c).
  { intros call Hcall. unfold holders, waiting, pending, called. ctx_simpl.
    rewrite Hs, count_app, !count_cons, count_nil, Hcall.
    destruct (taskHolds f t); lia. }
  destruct t as [resolve v | fn payload | observerID elements]; cbn [runTask].
  - now apply Hpop.
  - rewrite exec_bind.
    destruct throws; [rewrite holders_handleException|]; now apply Hpop.
  - rewrite exec_bind. unfold gets. cbn [fst snd].
    destruct (mapGet obsID observerID (elementObservers (setScheduled rest c)))
      as [observer|].
    + rewrite exec_bind.
      destruct throws; [rewrite holders_handleException|]; now apply Hpop.
    + unfold holders, waiting, pending, called. ctx_simpl.
      rewrite Hs, count_cons. cbn [taskHolds]. lia.
Qed.

Lemma holders_cancel f g c : holders f (exec (runCancelFn g) c) <= holders f c.
Proof.
  unfold holders, waiting, pending, called. destruct g as [l1 l2 o]. ctx_simpl.
  pose proof (count_mapDelete_le (listenerHolds f) (eventListeners c) l1).
  pose proof (count_mapDelete_le (listenerHolds f) (mapDelete ID l1 (eventListeners c)) l2).
  lia.
Qed.

(** A resolving function that nothing holds is never held again. *)
Lemma unheld_run extID p actions c :
  WellFormed c -> p < promises c -> holders (Resolve p) c = 0 ->
  holders (Resolve p) (run extID actions c) = 0.
Proof.
  intros Hw Hp H0.
  enough (H : WellFormed (run extID actions c) /\ p < promises (run extID actions c)
              /\ holders (Resolve p) (run extID actions c) = 0) by apply H.
  apply (@run_invariant
           (fun c => WellFormed c /\ p < promises c /\ holders (Resolve p) c = 0) extID);
    [ | | | | | | | | | | exact (conj Hw (conj Hp H0)) ].
  - intros r c0 (H1 & H2 & H3). split; [now apply WellFormed_issue|].
    unfold exec. rewrite (issue_exec r (WellFormed_idsGenerated H1)). cbn [snd].
    split; [unfold afterRequest; ctx_cbn; lia|].
    rewrite holders_afterRequest, H3. cbn [settleEqb].
    destruct (Nat.eqb_spec p (promises c0)); [lia | reflexivity].
  - intros s fn c0 (H1 & H2 & H3). split; [now apply WellFormed_observe|].
    unfold exec. rewrite (jsObserve_exec s fn (WellFormed_idsGenerated H1)). cbn [snd].
    split; [unfold afterObserve; ctx_cbn; lia|].
    revert H3. unfold holders, waiting, pending, called, afterObserve, observeListeners.
    ctx_cbn. rewrite count_app, !count_cons, count_nil. cbn [listenerHolds callback
      callbackSettle]. lia.
  - intros fn c0 (H1 & H2 & H3). split; [now apply WellFormed_onReady|].
    unfold exec. rewrite (jsOnReady_exec fn (WellFormed_idsGenerated H1)). cbn [snd].
    split; [unfold afterOnReady; ctx_cbn; lia|].
    revert H3. unfold holders, waiting, pending, called, afterOnReady.
    ctx_cbn. rewrite count_app, !count_cons, count_nil. cbn [listenerHolds callback
      callbackSettle]. lia.
  - intros e a ps c0 (H1 & H2 & H3).
    split; [exact (@WellFormed_step extID (DoSetter e a ps) c0 H1)|].
    split; [now ctx_simpl | revert H3; unfold holders, waiting, pending, called;
                            now ctx_simpl].
  - intros g c0 (H1 & H2 & H3). split; [now apply WellFormed_cancel|].
    split; [destruct g; now ctx_simpl|].
    pose proof (holders_cancel (Resolve p) g c0). lia.
  - intros g c0 (H1 & H2 & H3).
    split; [exact (@WellFormed_step extID (DoRefetch g) c0 H1)|].
    destruct g. split; [now ctx_simpl | revert H3; unfold holders, waiting, pending,
                                                   called; now ctx_simpl].
  - intros c0 (H1 & H2 & H3). split; [|now split].
    apply WellFormed_intro with c0; auto; ctx_cbn; try lia; auto.
  - intros l cb ev c0 (H1 & H2 & H3) Hin Hcb.
    split; [now apply WellFormed_callback with l|]. split.
    + destruct (runListenerCallback_effect cb ev c0) as (u & t & s & -> & _).
      unfold applyEffect. now ctx_cbn.
    + pose proof (@holders_callback (Resolve p) l cb ev c0 H1 Hin Hcb). lia.
  - intros t rest throws c0 (H1 & H2 & H3) _ Hs.
    split; [now apply WellFormed_task|]. split.
    + assert (E : promises (exec (runTask t throws) (setScheduled rest c0)) = promises c0).
      { destruct t as [resolve v | fn payload | observerID elements]; cbn [runTask].
        - now ctx_simpl.
        - destruct throws; ctx_simpl;
            try destruct (Nat.ltb MAX_EXCEPTIONS (S (exceptionCount c0))); now ctx_cbn.
        - rewrite exec_bind. unfold gets. cbn [fst snd].
          destruct (mapGet obsID observerID (elementObservers (setScheduled rest c0)));
            [|now cbn].
          destruct throws; ctx_simpl;
            try destruct (Nat.ltb MAX_EXCEPTIONS (S (exceptionCount c0))); now ctx_cbn. }
      lia.
    + pose proof (@holders_task (Resolve p) t rest throws c0 Hs). lia.
  - intros c0 (H1 & H2 & H3). split; [|now split].
    apply WellFormed_intro with c0; auto; ctx_cbn; try lia; auto.
Qed.

(** X13. A createResult reply whose element is not an object: the
    listener of the request takes the reply (the request id is its own)
    and is unregistered, but nothing is scheduled; from then on, whatever
    happens, no listener and no task holds the resolving function of the
    promise and it is never called: the promise of [createElement] stays
    pending for good. *)
Theorem create_reply_without_element_leaves_promise_pending :
  forall (extID : string) (before : list Action) (tagName : string)
         (element : Value) (after : list Action),
    assertMap element = None ->
    let c0 := run extID before NewContext in
    let promise := fst (issue (ReqCreateElement tagName) c0) in
    let c1 := snd (issue (ReqCreateElement tagName) c0) in
    let reply :=
      envelope (mkClientEvent extID ClientDOMCreateResultEvent
                  (VObject [("requestId", VString (uuidString (uuids c0)));
                            ("element", element)])) in
    let c2 := step extID (DoClientEvent reply) c1 in
    let c3 := run extID after c2 in
    waiting (Resolve promise) c1 = 1
    /\ c2 = setEventListeners (eventListeners c0) c1
    /\ waiting (Resolve promise) c3 = 0
    /\ pending (Resolve promise) c3 = 0
    /\ called (Resolve promise) c3 = 0.
Proof.
  intros extID before tagName element after Hel c0 promise c1 reply c2 c3.
  assert (Hw : WellFormed c0) by apply WellFormed_reachable.
  assert (Hc : Consistent c0) by apply Consistent_reachable.
  assert (Hissue : issue (ReqCreateElement tagName) c0
                   = (promises c0, afterRequest (ReqCreateElement tagName) c0))
    by (apply issue_exec; now apply WellFormed_idsGenerated).
  pose proof (holders_fresh_promise Hw) as Hfresh.
  assert (H1 : waiting (Resolve promise) c1 = 1).
  { unfold promise, c1. rewrite Hissue. cbn [fst snd].
    pose proof (holders_afterRequest (ReqCreateElement tagName) c0
                  (Resolve (promises c0))) as H.
    cbn [settleEqb] in H. rewrite Nat.eqb_refl in H.
    unfold holders in *.
    assert (pending (Resolve (promises c0)) (afterRequest (ReqCreateElement tagName) c0)
            = pending (Resolve (promises c0)) c0) by reflexivity.
    assert (called (Resolve (promises c0)) (afterRequest (ReqCreateElement tagName) c0)
            = called (Resolve (promises c0)) c0) by reflexivity.
    lia. }
  assert (H2 : c2 = setEventListeners (eventListeners c0) c1).
  { unfold c2, c1, reply. rewrite Hissue. cbn [snd step].
    rewrite (@reply_reaches_listener extID _
               (mkClientEvent extID ClientDOMCreateResultEvent
                  (VObject [("requestId", VString (uuidString (uuids c0)));
                            ("element", element)]))
               (ReqCreateElement tagName) c0 Hw Hc
               (route_own extID ClientDOMCreateResultEvent _ eq_refl)
               eq_refl eq_refl).
    cbn [requestCallback runListenerCallback]. unfold ParsePayloadAsCreateResult.
    cbn [Payload payloadFields fieldString fieldAny lookupField String.eqb Ascii.eqb
         Bool.eqb cr_RequestID cr_Element].
    rewrite String.eqb_refl, Hel.
    apply context_ext; unfold afterRequest; ctx_simpl; try reflexivity.
    apply (@mapDelete_last _ ID (requestListener (ReqCreateElement tagName) c0)).
    apply fresh_above with c0; [now apply WellFormed_idsGenerated | lia]. }
  split; [exact H1|]. split; [exact H2|].
  assert (Hw2 : WellFormed c2).
  { unfold c2, c1, c0.
    change (WellFormed (run extID [DoRequest (ReqCreateElement tagName); DoClientEvent reply]
                            (run extID before NewContext))).
    rewrite <- run_app. apply WellFormed_reachable. }
  assert (H0 : holders (Resolve promise) c2 = 0).
  { rewrite H2. unfold promise, c1. rewrite Hissue. cbn [fst snd].
    unfold holders, waiting, pending, called, afterRequest in *. ctx_cbn. exact Hfresh. }
  assert (Hp : promise < promises c2).
  { rewrite H2. unfold promise, c1. rewrite Hissue. cbn [fst snd].
    unfold afterRequest. ctx_cbn. lia. }
  pose proof (@unheld_run extID promise after c2 Hw2 Hp H0) as H.
  fold c3 in H. unfold holders in H. lia.
Qed.

(** X13 for a reply with a null element, followed by a second reply and
    two turns of the scheduler. *)
Lemma create_reply_with_null_element :
  let reply :=
    envelope (mkClientEvent "my-plugin" ClientDOMCreateResultEvent
                (VObject [("requestId", VString "0"); ("element", VNil)])) in
  let c1 := snd (issue (ReqCreateElement "div") NewContext) in
  let c3 := run "my-plugin" [DoClientEvent reply; DoRunTask false; DoRunTask false]
                (step "my-plugin" (DoClientEvent reply) c1) in
  waiting (Resolve 0) c1 = 1
  /\ step "my-plugin" (DoClientEvent reply) c1 = setEventListeners [] c1
  /\ waiting (Resolve 0) c3 = 0
  /\ pending (Resolve 0) c3 = 0
  /\ called (Resolve 0) c3 = 0.
Proof.
  intros reply c1 c3.
  exact (@create_reply_without_element_leaves_promise_pending
           "my-plugin" [] "div" VNil
           [DoClientEvent reply; DoRunTask false; DoRunTask false] eq_refl).
Defined.

(* ================================================================== *)
(** * Observers answered by the client *)
(* ================================================================== *)

Lemma mapGet_mapSet (V : Type) (key : V -> string) v (m : list V) :
  mapGet key (key v) (mapSet key v m) = Some v.
Proof.
  unfold mapGet, mapSet, mapDelete. induction m as [|x m IH]; cbn [filter app find].
  - now rewrite String.eqb_refl.
  - destruct (String.eqb (key x) (key v)) eqn:E; cbn [negb]; [exact IH|].
    cbn [app find]. now rewrite E.
Qed.

(** The observe result for the observer made last reaches the callback
    of that observer, and no other listener does anything with it. *)
Lemma observe_result_reaches_listener extID ev ce selector fn c :
  WellFormed c -> Consistent c ->
  route extID ev = ToListeners ce ->
  Type_ ce = ClientDOMObserveResultEvent ->
  replyRequestID ce = Some (uuidString (uuids c)) ->
  exec (handleWSEvent extID ev) (afterObserve selector fn c)
  = exec (runListenerCallback (ObserveCallback (uuidString (uuids c))) ce)
         (afterObserve selector fn c).
Proof.
  intros Hw Hc Hroute Ht Hid.
  assert (Hc1 : Consistent (afterObserve selector fn c)).
  { pose proof (Consistent_observe selector fn Hw Hc) as H. unfold exec in H.
    now rewrite (jsObserve_exec selector fn (WellFormed_idsGenerated Hw)) in H. }
  unfold handleWSEvent. rewrite Hroute, exec_bind. unfold gets. cbn [fst snd].
  unfold afterObserve at 1. ctx_cbn. rewrite fanOut_app, exec_deliverAll_app.
  rewrite (@deliverAll_ignored (eventListeners c) ce (afterObserve selector fn c)); auto.
  - assert (E : fanOut (observeListeners selector c) ce
                = [(uuidString (S (uuids c)), ce)]).
    { unfold fanOut, listenerSends, observeListeners.
      cbn [flat_map ListenTo ID List.length Nat.ltb Nat.leb map app].
      rewrite Ht. reflexivity. }
    rewrite E, exec_deliverAll_cons. cbn [fst snd deliverAll fold_right].
    assert (Hd : In {| ID := uuidString (S (uuids c));
                       ListenTo := [ClientDOMObserveResultEvent];
                       callback := Some (ObserveCallback (uuidString (uuids c))) |}
                    (eventListeners (afterObserve selector fn c))).
    { unfold afterObserve, observeListeners. ctx_cbn. apply in_or_app. right. now left. }
    pose proof (@deliver_listener (afterObserve selector fn c) _ ce Hc1 Hd) as H.
    cbn [ID callback] in H. rewrite H. reflexivity.
  - now rewrite Ht.
  - intros l Hl. unfold afterObserve. ctx_cbn. apply in_or_app. now left.
  - intros l cb rid Hl Hcb Hrid. rewrite Hid. intros E. injection E as E.
    destruct Hc as [HL _]. rewrite Forall_forall in HL.
    destruct (HL l Hl) as (cb' & Hcb' & _ & Hgen).
    rewrite Hcb in Hcb'. injection Hcb' as <-.
    apply (@generated_fresh rid c (uuids c) (Hgen rid Hrid) (Nat.le_refl _)).
    now symmetry.
Qed.

(** X14. An observer that the client answers: [jsObserve] sends
    [dom:observe] with a fresh observer id; the client, when its document
    has elements for the selector, answers with one observe result, and
    when the server takes it, one task is scheduled for that observer and
    nothing else changes; when the task runs, the callback of the
    observer is called with one object per matched element.  When the
    document has no such element the client sends nothing. *)
Theorem observer_answered_by_client :
  forall (extID : string) (before : list Action) (selector : string) (fn : Callable)
         (document : Document) (cl : Client),
    clExtensionId cl = extID -> disposedRef cl = false ->
    let c0 := run extID before NewContext in
    let observerID := uuidString (uuids c0) in
    let c1 := snd (jsObserve selector fn c0) in
    let elements := querySelectorAll document selector in
    let replies :=
      fst (clientTakes document (ServerDOMObserveEvent selector observerID) cl) in
    let c2 := receive extID replies c1 in
    let task := ObserverTask observerID (map elementToDOMElement elements) in
    outbox c1 = outbox c0 ++ [ServerDOMObserveEvent selector observerID]
    /\ match elements with
       | [] => replies = [] /\ c2 = c1
       | _ :: _ =>
           c2 = setScheduled (scheduled c1 ++ [task]) c1
           /\ vmCalls (exec (runTask task false) c2)
              = vmCalls c2 ++ [CallObserver observerID fn (map pageElementObject elements)]
       end.
Proof.
  intros extID before selector fn document cl Hext Hdisp
         c0 observerID c1 elements replies c2 task.
  assert (Hw : WellFormed c0) by apply WellFormed_reachable.
  assert (Hc : Consistent c0) by apply Consistent_reachable.
  assert (Hobs : jsObserve selector fn c0
                 = ((observeCancelFn c0, mkRefetchFn selector (uuidString (uuids c0))),
                    afterObserve selector fn c0))
    by (apply jsObserve_exec; now apply WellFormed_idsGenerated).
  unfold c2, replies, c1. rewrite Hobs. cbn [snd clientTakes].
  split; [reflexivity|].
  unfold handleDOMObserve, safeSendPluginMessage. rewrite Hdisp, Hext. cbn [fst].
  fold elements. destruct elements as [|e es] eqn:Ee; [now split|].
  cbn [List.length Nat.ltb Nat.leb]. rewrite receive_one.
  assert (E2 : exec (handleWSEvent extID
                 (envelope (mkClientEvent extID ClientDOMObserveResultEvent
                    (VObject [("observerId", VString observerID);
                              ("elements", VArray (map elementToDOMElement (e :: es)))]))))
                 (afterObserve selector fn c0)
               = setScheduled (scheduled (afterObserve selector fn c0) ++ [task])
                              (afterObserve selector fn c0)).
  { rewrite (@observe_result_reaches_listener extID _
               (mkClientEvent extID ClientDOMObserveResultEvent
                  (VObject [("observerId", VString observerID);
                            ("elements", VArray (map elementToDOMElement (e :: es)))]))
               selector fn c0 Hw Hc
               (route_own extID ClientDOMObserveResultEvent _ eq_refl)
               eq_refl eq_refl).
    cbn [runListenerCallback]. unfold ParsePayloadAsObserveResult.
    cbn [Payload payloadFields fieldString fieldSlice lookupField String.eqb Ascii.eqb
         Bool.eqb ob_ObserverID ob_Elements].
    unfold observerID. rewrite String.eqb_refl. reflexivity. }
  split; [exact E2|]. rewrite E2.
  unfold task at 1. cbn [runTask]. rewrite exec_bind. unfold gets. cbn [fst snd].
  match goal with
  | |- context [mapGet obsID observerID ?m] =>
      replace (mapGet obsID observerID m)
        with (Some {| obsID := uuidString (uuids c0); obsSelector := selector;
                      obsCallback := fn |})
        by (symmetry;
            exact (@mapGet_mapSet _ obsID
                     {| obsID := uuidString (uuids c0); obsSelector := selector;
                        obsCallback := fn |} (elementObservers c0)))
  end.
  rewrite exec_bind. cbn [obsCallback]. ctx_simpl.
  now rewrite elementObjects_page.
Qed.

(** X14 for a plugin that observes [.card] on a page with one card. *)
Lemma observer_answered_by_client_one_card :
  let card := mkPageElement "card-1" "div" [("class", "card")] in
  let document :=
    mkDocument (fun _ => [card]) (fun _ => Some card) (fun _ => card)
               (fun _ => None) (fun _ _ => []) in
  let c0 := run "my-plugin" [] NewContext in
  let observerID := uuidString (uuids c0) in
  let c1 := snd (jsObserve ".card" (mkCallable 7) c0) in
  let elements := querySelectorAll document ".card" in
  let replies :=
    fst (clientTakes document (ServerDOMObserveEvent ".card" observerID)
                     (NewClient "my-plugin")) in
  let c2 := receive "my-plugin" replies c1 in
  let task := ObserverTask observerID (map elementToDOMElement elements) in
  elements = [card]
  /\ outbox c1 = outbox c0 ++ [ServerDOMObserveEvent ".card" observerID]
  /\ c2 = setScheduled (scheduled c1 ++ [task]) c1
  /\ vmCalls (exec (runTask task false) c2)
     = vmCalls c2 ++ [CallObserver observerID (mkCallable 7)
                                   (map pageElementObject elements)].
Proof.
  intros card document c0 observerID c1 elements replies c2 task.
  split; [reflexivity|].
  exact (@observer_answered_by_client "my-plugin" [] ".card" (mkCallable 7) document
           (NewClient "my-plugin") eq_refl eq_refl).
Defined.

(* ================================================================== *)
(** * The getStyle method *)
(* ================================================================== *)

Lemma elementGetStyleMethod_request elementId arguments :
  elementGetStyleMethod elementId arguments = issue (getStyleRequest elementId arguments).
Proof. destruct arguments as [|[property|] rest]; reflexivity. Qed.

(** X15. The method [getStyle] of an element object, answered by the
    client for an element that is in the document.  Without an argument,
    or with an undefined one, the promise is resolved with the object of
    all styles.  With a property name it is resolved with the value of
    that style, except for the empty name: the client takes the empty
    string for no property and answers with the object of all styles,
    which the listener of [getElementStyle] does not find to be a string,
    and the promise is resolved with the empty string. *)
Theorem getStyle_method_answered :
  forall (extID : string) (before : list Action) (elementId : string)
         (arguments : list (option string)) (document : Document) (cl : Client)
         (element : ElementView),
    clExtensionId cl = extID -> disposedRef cl = false ->
    getElementById document elementId = Some element ->
    let c0 := run extID before NewContext in
    let promise := fst (elementGetStyleMethod elementId arguments c0) in
    let c1 := snd (elementGetStyleMethod elementId arguments c0) in
    let request := requestEvent (getStyleRequest elementId arguments)
                                (uuidString (uuids c0)) in
    let replies := fst (clientTakes document request cl) in
    let c2 := receive extID replies c1 in
    let result :=
      match arguments with
      | Some property :: _ =>
          if String.eqb property "" then allStyles element
          else VString (styleGetPropertyValue element (VString property))
      | _ => allStyles element
      end in
    let resolved :=
      match arguments with
      | Some property :: _ =>
          if String.eqb property "" then JSToValue (VString "")
          else JSToValue (VString (styleGetPropertyValue element (VString property)))
      | _ => JSToValue (allStyles element)
      end in
    outbox c1 = outbox c0 ++ [request]
    /\ replies = [mkClientEvent extID ClientDOMElementUpdatedEvent
                    (VObject [("elementId", VString elementId);
                              ("action", VString "getStyle");
                              ("result", result);
                              ("requestId", VString (uuidString (uuids c0)))])]
    /\ c2 = setScheduled (scheduled c1 ++ [ResolveTask (Resolve promise) resolved])
                         (setEventListeners (eventListeners c0) c1).
Proof.
  intros extID before elementId arguments document cl element Hext Hdisp Hel
         c0 promise c1 request replies c2 result resolved.
  assert (Hw : WellFormed c0) by apply WellFormed_reachable.
  assert (Hc : Consistent c0) by apply Consistent_reachable.
  set (r := getStyleRequest elementId arguments) in *.
  assert (Hissue : issue r c0 = (promises c0, afterRequest r c0))
    by (apply issue_exec; now apply WellFormed_idsGenerated).
  unfold c2, promise, c1. rewrite elementGetStyleMethod_request. fold r.
  rewrite Hissue. cbn [fst snd].
  split; [reflexivity|].
  assert (Hr : exists g arg,
             r = ReqGetter g elementId arg
             /\ getterAction g = "getStyle"
             /\ manipulateResult element "getStyle" (getterParams g arg) = result
             /\ getterResult g result = resolved
             /\ (g = GetStyles -> isNil result = false)).
  { unfold r, result, resolved, getStyleRequest.
    destruct arguments as [|[property|] rest].
    - exists GetStyles, "". repeat split.
    - exists GetStyle, property. split; [reflexivity|]. split; [reflexivity|].
      unfold manipulateResult.
      cbn [String.eqb Ascii.eqb Bool.eqb getterParams param fieldAny lookupField truthy].
      destruct (String.eqb property ""); cbn [negb]; repeat split; discriminate.
    - exists GetStyles, "". repeat split. }
  destruct Hr as (g & arg & Er & Ha & Hres & Hres' & Hnil).
  assert (Hreplies : replies
                     = [mkClientEvent extID ClientDOMElementUpdatedEvent
                          (VObject [("elementId", VString elementId);
                                    ("action", VString (getterAction g));
                                    ("result", result);
                                    ("requestId", VString (uuidString (uuids c0)))])]).
  { unfold replies, request. fold r. rewrite Er. cbn [requestEvent clientTakes fst].
    unfold handleDOMManipulate, safeSendPluginMessage. rewrite Hdisp, Hext.
    cbn [optElementId optAction optParams optRequestId]. rewrite Hel, Ha.
    cbn [String.eqb Ascii.eqb Bool.eqb]. now rewrite Hres. }
  split; [now rewrite Hreplies, Ha|].
  rewrite Hreplies, receive_one, Er.
  rewrite (@reply_reaches_listener extID _
             (mkClientEvent extID ClientDOMElementUpdatedEvent
                (VObject [("elementId", VString elementId);
                          ("action", VString (getterAction g));
                          ("result", result);
                          ("requestId", VString (uuidString (uuids c0)))]))
             (ReqGetter g elementId arg) c0 Hw Hc
             (route_own extID ClientDOMElementUpdatedEvent _ eq_refl)
             eq_refl eq_refl).
  cbn [requestCallback]. rewrite (updated_reply_taken _ _ _ _ _ _ _ Hnil).
  rewrite Hres'. now apply request_taken.
Qed.

(** X15 for [getStyle("")] on an element with one style. *)
Lemma getStyle_method_answered_empty_property :
  let view := mkElementView (VString "text") (fun _ => VNil) [] (fun _ => false)
                (fun _ => VNil) (fun _ => false) ["color"] (fun _ => "red") (fun _ => "")
                None [] true (fun _ => VNil) [] (fun _ => false)
                (fun _ => []) (fun _ => None) in
  let document :=
    mkDocument (fun _ => []) (fun _ => None) (fun _ => mkPageElement "new" "div" [])
               (fun _ => Some view) (fun _ _ => []) in
  let c0 := run "my-plugin" [] NewContext in
  let c1 := snd (elementGetStyleMethod "card-1" [Some ""] c0) in
  let request := requestEvent (getStyleRequest "card-1" [Some ""]) (uuidString (uuids c0)) in
  let replies := fst (clientTakes document request (NewClient "my-plugin")) in
  outbox c1 = outbox c0 ++ [request]
  /\ replies = [mkClientEvent "my-plugin" ClientDOMElementUpdatedEvent
                  (VObject [("elementId", VString "card-1");
                            ("action", VString "getStyle");
                            ("result", VObject [("color", VString "red")]);
                            ("requestId", VString (uuidString (uuids c0)))])]
  /\ receive "my-plugin" replies c1
     = setScheduled (scheduled c1
                     ++ [ResolveTask
                           (Resolve (fst (elementGetStyleMethod "card-1" [Some ""] c0)))
                           (JSToValue (VString ""))])
                    (setEventListeners (eventListeners c0) c1).
Proof.
  intros view document c0 c1 request replies.
  exact (@getStyle_method_answered "my-plugin" [] "card-1" [Some ""] document
           (NewClient "my-plugin") view eq_refl eq_refl eq_refl).
Defined.

(* ================================================================== *)
(** * The matcher *)
(* ================================================================== *)

Section MatcherFacts.
Import Scanner.

Lemma FindBestCorrespondingMedia_keeps m lf file :
  FindBestCorrespondingMedia m lf = Some file -> lf = Some file.
Proof.
  unfold FindBestCorrespondingMedia. destruct lf as [f|]; [|discriminate].
  destruct (negb (Z.eqb (MediaId f) 0)); [congruence|].
  destruct (String.eqb (GetParsedTitle f) ""); congruence.
Qed.

Lemma forEachLocalFile_keeps m files : forall files',
  forEachLocalFile (FindBestCorrespondingMedia m) files = Some files' -> files' = files.
Proof.
  induction files as [|lf files IH]; intros files' H; cbn [forEachLocalFile] in H.
  - congruence.
  - destruct (FindBestCorrespondingMedia m lf) as [file|] eqn:E; [|discriminate].
    destruct (forEachLocalFile (FindBestCorrespondingMedia m) files) as [rest|];
      [|discriminate].
    injection H as <-. rewrite (IH rest eq_refl).
    now rewrite (FindBestCorrespondingMedia_keeps _ _ E).
Qed.

Lemma forEachLocalFile_panics m files :
  forEachLocalFile (FindBestCorrespondingMedia m) files = None <-> In None files.
Proof.
  induction files as [|lf files IH]; cbn [forEachLocalFile In].
  - split; [discriminate | intros []].
  - destruct lf as [f|].
    + assert (E : FindBestCorrespondingMedia m (Some f) = Some f).
      { unfold FindBestCorrespondingMedia. destruct (negb (Z.eqb (MediaId f) 0)); auto.
        now destruct (String.eqb (GetParsedTitle f) ""). }
      rewrite E.
      destruct (forEachLocalFile (FindBestCorrespondingMedia m) files) as [rest|].
      * split; [discriminate|]. intros [H|H]; [discriminate|].
        apply IH in H. discriminate H.
      * split; [|reflexivity]. intros _. right. now apply IH.
    + cbn [FindBestCorrespondingMedia]. split; [|reflexivity]. intros _. now left.
Qed.

(** X16. [MatchLocalFilesWithMedia] matches nothing: whatever its
    outcome, the matcher is left with the local files it had, each with
    the media id it had.  It returns the error "no local files" exactly
    when there is no local file, whatever the media container, a nil one
    included; the error "no media fed into the matcher" exactly when there
    are local files and the container has no media; nil exactly when there
    are local files, none of them nil, and media; and it panics on a nil
    pointer in the cases that are left. *)
Theorem MatchLocalFilesWithMedia_changes_no_file :
  forall m : Matcher,
    let outcome := fst (MatchLocalFilesWithMedia m) in
    snd (MatchLocalFilesWithMedia m) = m
    /\ (outcome = ReturnedError "[matcher] no local files" <-> localFiles m = [])
    /\ (outcome = ReturnedError "[matcher] no media fed into the matcher"
        <-> localFiles m <> []
            /\ exists container, mediaContainer m = Some container
                                 /\ allMedia container = [])
    /\ (outcome = ReturnedNil
        <-> localFiles m <> [] /\ ~ In None (localFiles m)
            /\ exists container, mediaContainer m = Some container
                                 /\ allMedia container <> [])
    /\ (outcome = Panicked
        <-> localFiles m <> []
            /\ (mediaContainer m = None
                \/ exists container, mediaContainer m = Some container
                                     /\ allMedia container <> []
                                     /\ In None (localFiles m))).
Proof.
  intros m outcome. unfold outcome, MatchLocalFilesWithMedia.
  destruct m as [files container cache]. cbn [localFiles mediaContainer matchingCache].
  destruct files as [|lf files].
  { cbn [List.length Nat.eqb fst snd]. split; [reflexivity|].
    split; [split; auto|].
    split; [split; [discriminate | now intros [H _]]|].
    split; [split; [discriminate | now intros [H _]]|].
    split; [discriminate | now intros [H _]]. }
  cbn [List.length Nat.eqb].
  destruct container as [[media]|].
  2:{ cbn [fst snd]. split; [reflexivity|].
      split; [split; discriminate|].
      split; [split; [discriminate | now intros (_ & c & H & _)]|].
      split; [split; [discriminate | now intros (_ & _ & c & H & _)]|].
      split; [|reflexivity]. intros _. split; [discriminate | now left]. }
  cbn [allMedia]. destruct media as [|md media].
  { cbn [List.length Nat.eqb fst snd]. split; [reflexivity|].
    split; [split; discriminate|].
    split; [split; [|reflexivity]|].
    { intros _. split; [discriminate|]. now exists {| allMedia := [] |}. }
    split; [split; [discriminate|]|].
    { intros (_ & _ & c & H & Hc). injection H as <-. now elim Hc. }
    split; [discriminate|].
    intros (_ & [H|(c & H & Hc & _)]); [discriminate|].
    injection H as <-. now elim Hc. }
  cbn [List.length Nat.eqb].
  set (m := {| localFiles := lf :: files;
               mediaContainer := Some {| allMedia := md :: media |};
               matchingCache := cache |}).
  destruct (forEachLocalFile (FindBestCorrespondingMedia m) (lf :: files))
    as [files'|] eqn:E; cbn [fst snd].
  - pose proof (forEachLocalFile_keeps m _ E) as ->.
    assert (Hno : ~ In None (lf :: files)).
    { intros H. apply (forEachLocalFile_panics m) in H. congruence. }
    split; [reflexivity|].
    split; [split; discriminate|].
    split; [split; [discriminate|]|].
    { intros (_ & c & H & Hc). injection H as <-. discriminate Hc. }
    split; [split; [|reflexivity]|].
    { intros _. split; [discriminate|]. split; [exact Hno|].
      exists {| allMedia := md :: media |}. split; [reflexivity | discriminate]. }
    split; [discriminate|].
    intros (_ & [H|(c & _ & _ & H)]); [discriminate | now elim Hno].
  - assert (Hin : In None (lf :: files)) by now apply (forEachLocalFile_panics m).
    split; [reflexivity|].
    split; [split; discriminate|].
    split; [split; [discriminate|]|].
    { intros (_ & c & H & Hc). injection H as <-. discriminate Hc. }
    split; [split; [discriminate|]|].
    { intros (_ & Hno & _). now elim Hno. }
    split; [|reflexivity]. intros _. split; [discriminate|]. right.
    exists {| allMedia := md :: media |}.
    split; [reflexivity|]. split; [discriminate | exact Hin].
Qed.

End MatcherFacts.

(* ================================================================== *)
(** * The extension repository *)
(* ================================================================== *)

Section RepositoryFacts.
Import ExtensionRepo.

Lemma append_each (A : Type) (l : list A) : forall acc,
  fold_left (fun ret x => ret ++ [x]) l acc = acc ++ l.
Proof.
  induction l as [|x l IH]; intros acc; cbn [fold_left].
  - now rewrite app_nil_r.
  - rewrite IH, <- app_assoc. reflexivity.
Qed.

Lemma codeEqb_eq a b : codeEqb a b = true <-> a = b.
Proof.
  destruct a as [|x], b as [|y]; cbn [codeEqb]; try (split; congruence).
  rewrite String.eqb_eq. split; congruence.
Qed.

Lemma filter_split_length (A : Type) (p : A -> bool) (l : list A) :
  List.length (filter (fun x => negb (p x)) l) + List.length (filter p l)
  = List.length l.
Proof.
  induction l as [|x l IH]; [reflexivity|].
  cbn [filter]. destruct (p x); cbn [negb List.length]; lia.
Qed.

(** X17. [GetAllExtensions] sorts the invalid extensions of the
    repository into two lists: an invalid extension is in
    [InvalidUserConfigExtensions] exactly when its code is
    [InvalidExtensionUserConfigError] and in [InvalidExtensions] exactly
    when it is not, so every one is in one of the two lists and none in
    both, and the two lists together are as long as the list of invalid
    extensions; [HasUpdate] is left nil unless updates are asked for, and
    the other three lists do not depend on that. *)
Theorem GetAllExtensions_sorts_invalid_extensions :
  forall (r : Repository) (withUpdates : bool),
    let ret := GetAllExtensions r withUpdates in
    (forall ext,
        In ext (InvalidExtensions ret)
        <-> In ext (invalidExtensions r) /\ Code ext <> InvalidExtensionUserConfigError)
    /\ (forall ext,
           In ext (InvalidUserConfigExtensions ret)
           <-> In ext (invalidExtensions r) /\ Code ext = InvalidExtensionUserConfigError)
    /\ (forall ext,
           In ext (invalidExtensions r)
           <-> In ext (InvalidExtensions ret) \/ In ext (InvalidUserConfigExtensions ret))
    /\ (forall ext,
           ~ (In ext (InvalidExtensions ret) /\ In ext (InvalidUserConfigExtensions ret)))
    /\ List.length (InvalidExtensions ret) + List.length (InvalidUserConfigExtensions ret)
       = List.length (invalidExtensions r)
    /\ Extensions ret = extensionBank r
    /\ (HasUpdate ret = None <-> withUpdates = false)
    /\ Extensions ret = Extensions (GetAllExtensions r (negb withUpdates))
    /\ InvalidExtensions ret = InvalidExtensions (GetAllExtensions r (negb withUpdates))
    /\ InvalidUserConfigExtensions ret
       = InvalidUserConfigExtensions (GetAllExtensions r (negb withUpdates)).
Proof.
  intros r withUpdates ret. unfold ret, GetAllExtensions, ListInvalidExtensions,
    ListExtensionData.
  cbn [Extensions InvalidExtensions InvalidUserConfigExtensions HasUpdate].
  rewrite !append_each. cbn [app].
  assert (Hfatal : forall ext,
             In ext (filter (fun e => negb (codeEqb (Code e) InvalidExtensionUserConfigError))
                            (invalidExtensions r))
             <-> In ext (invalidExtensions r)
                 /\ Code ext <> InvalidExtensionUserConfigError).
  { intros ext. rewrite filter_In, negb_true_iff.
    split; intros [H1 H2]; (split; [exact H1|]).
    - intros E. apply codeEqb_eq in E. congruence.
    - apply not_true_is_false. intros E. now apply codeEqb_eq in E. }
  assert (Huser : forall ext,
             In ext (filter (fun e => codeEqb (Code e) InvalidExtensionUserConfigError)
                            (invalidExtensions r))
             <-> In ext (invalidExtensions r)
                 /\ Code ext = InvalidExtensionUserConfigError).
  { intros ext. rewrite filter_In, codeEqb_eq. reflexivity. }
  split; [exact Hfatal|]. split; [exact Huser|].
  split.
  { intros ext. rewrite Hfatal, Huser. split.
    - intros H. destruct (Code ext) eqn:E.
      + right. now split.
      + left. split; [exact H | discriminate].
    - now intros [[H _]|[H _]]. }
  split.
  { intros ext [H1 H2]. apply Hfatal in H1. apply Huser in H2.
    destruct H1 as [_ H1], H2 as [_ H2]. now apply H1. }
  split; [apply filter_split_length|].
  split; [reflexivity|].
  split; [destruct withUpdates; split; congruence|].
  now repeat split.
Qed.

End RepositoryFacts.

(* ================================================================== *)
(** * Endpoint keys *)
(* ================================================================== *)

Section EndpointKeys.
Import Codegen.

Lemma allRunes_append p a b :
  allRunes p (a ++ b)%string = allRunes p a && allRunes p b.
Proof.
  induction a as [|v a IH]; [reflexivity|].
  cbn [String.append allRunes]. now rewrite IH, andb_assoc.
Qed.

Lemma allRunes_dropBytes p n : forall s,
  allRunes p s = true -> allRunes p (dropBytes n s) = true.
Proof.
  induction n as [|n IH]; intros s H; [exact H|].
  destruct s as [|v s]; [reflexivity|].
  cbn [dropBytes]. apply IH. cbn [allRunes] in H.
  now apply andb_true_iff in H.
Qed.

Lemma allRunes_ReplaceFirst p old new : forall s,
  allRunes p new = true -> allRunes p s = true ->
  allRunes p (ReplaceFirst s old new) = true.
Proof.
  induction s as [|v s IH]; intros Hn Hs; cbn [ReplaceFirst].
  - destruct (HasPrefix "" old); [|reflexivity].
    rewrite allRunes_append, Hn. now apply allRunes_dropBytes.
  - destruct (HasPrefix (String v s) old).
    + rewrite allRunes_append, Hn. now apply allRunes_dropBytes.
    + cbn [allRunes] in *. apply andb_true_iff in Hs. destruct Hs as [H1 H2].
      now rewrite H1, IH.
Qed.

Lemma toLowerRune_lower v : isUpper (toLowerRune v) = false.
Proof. destruct v as [[] [] [] [] [] [] [] []]; reflexivity. Qed.

Lemma toLowerRune_ascii v : isASCII v = true -> isASCII (toLowerRune v) = true.
Proof. destruct v as [[] [] [] [] [] [] [] []]; intros H; try reflexivity; discriminate H. Qed.

Lemma ToLower_lower s : allRunes (fun v => negb (isUpper v)) (ToLower s) = true.
Proof.
  induction s as [|v s IH]; [reflexivity|].
  cbn [ToLower allRunes]. now rewrite toLowerRune_lower, IH.
Qed.

Lemma ToLower_ascii s : allRunes isASCII s = true -> allRunes isASCII (ToLower s) = true.
Proof.
  induction s as [|v s IH]; intros H; [reflexivity|].
  cbn [ToLower allRunes] in *. apply andb_true_iff in H. destruct H as [H1 H2].
  now rewrite (toLowerRune_ascii _ H1), IH.
Qed.

Lemma ToLower_length s : String.length (ToLower s) = String.length s.
Proof. induction s as [|v s IH]; [reflexivity|]. cbn [ToLower String.length]. now rewrite IH. Qed.

Lemma append_length (a b : string) :
  String.length (a ++ b)%string = String.length a + String.length b.
Proof. induction a as [|v a IH]; [reflexivity|]. cbn [String.append String.length]. now rewrite IH. Qed.

Lemma dashBeforeUpper_ascii s : forall first,
  allRunes isASCII s = true -> allRunes isASCII (dashBeforeUpper first s) = true.
Proof.
  induction s as [|v s IH]; intros first H; [reflexivity|].
  cbn [dashBeforeUpper allRunes] in *. apply andb_true_iff in H. destruct H as [H1 H2].
  rewrite allRunes_append, (IH false H2).
  destruct (negb first && isUpper v); cbn [allRunes]; now rewrite H1.
Qed.

Lemma dashBeforeUpper_length s : forall first,
  String.length (dashBeforeUpper first s) + (if first then 1 else 0)
  <= 2 * String.length s + (if first then 1 else 0)
  /\ String.length s <= String.length (dashBeforeUpper first s).
Proof.
  induction s as [|v s IH]; intros first; [cbn; lia|].
  cbn [dashBeforeUpper]. rewrite append_length.
  destruct (IH false) as [H1 H2].
  destruct (negb first && isUpper v); cbn [String.length] in *; destruct first; lia.
Qed.

Lemma dropBytes_length n : forall s,
  String.length (dropBytes n s) = String.length s - n.
Proof.
  induction n as [|n IH]; intros s; [cbn; lia|].
  destruct s as [|v s]; [reflexivity|]. cbn [dropBytes String.length]. now rewrite IH.
Qed.

Lemma HasPrefix_length prefix : forall s,
  HasPrefix s prefix = true -> String.length prefix <= String.length s.
Proof.
  induction prefix as [|p prefix IH]; intros s H; [cbn; lia|].
  destruct s as [|v s]; [discriminate H|].
  cbn [HasPrefix] in H. apply andb_true_iff in H. destruct H as [_ H].
  cbn [String.length]. specialize (IH s H). lia.
Qed.

Lemma ReplaceFirst_length old new : forall s,
  String.length new <= String.length old ->
  String.length (ReplaceFirst s old new) <= String.length s.
Proof.
  intros s Hle. induction s as [|v s IH]; cbn [ReplaceFirst].
  - destruct (HasPrefix "" old) eqn:E; [|cbn; lia].
    apply HasPrefix_length in E. rewrite append_length, dropBytes_length. lia.
  - destruct (HasPrefix (String v s) old) eqn:E.
    + apply HasPrefix_length in E. rewrite append_length, dropBytes_length. lia.
    + cbn [String.length]. lia.
Qed.

Lemma TrimPrefix_facts s prefix :
  String.length (TrimPrefix s prefix) <= String.length s
  /\ (allRunes isASCII s = true -> allRunes isASCII (TrimPrefix s prefix) = true).
Proof.
  unfold TrimPrefix. destruct (HasPrefix s prefix); [|split; [lia | auto]].
  split; [rewrite dropBytes_length; lia | now apply allRunes_dropBytes].
Qed.

Lemma ReplaceAllRune_facts s old new :
  String.length (ReplaceAllRune s old new) = String.length s
  /\ (Ascii.eqb new old = false ->
      allRunes (fun v => negb (Ascii.eqb v old)) (ReplaceAllRune s old new) = true)
  /\ (isASCII new = true -> allRunes isASCII s = true ->
      allRunes isASCII (ReplaceAllRune s old new) = true).
Proof.
  induction s as [|v s (IH1 & IH2 & IH3)]; [now repeat split|].
  cbn [ReplaceAllRune String.length allRunes]. split; [now rewrite IH1|]. split.
  - intros H. rewrite (IH2 H). destruct (Ascii.eqb v old) eqn:E; [now rewrite H|].
    now rewrite E.
  - intros Hn H. apply andb_true_iff in H. destruct H as [H1 H2].
    rewrite (IH3 Hn H2). destruct (Ascii.eqb v old); [now rewrite Hn | now rewrite H1].
Qed.

(** X18. The endpoint key of a handler, for ASCII names: it is the group
    name with every underscore turned into a dash, then a dash, then the
    name of the handler; the group part is as long as the group name and
    has no underscore left; the handler part has no upper-case letter, is
    at most twice as long as the handler name, and the whole key is ASCII
    again.  Only the first [t-v-d-b] of a name is contracted. *)
Theorem getEndpointKey_shape :
  forall s groupName : string,
    allRunes isASCII s = true -> allRunes isASCII groupName = true ->
    let group := ReplaceAllRune groupName "_" "-" in
    getEndpointKey s groupName = (group ++ "-" ++ endpointName s)%string
    /\ String.length group = String.length groupName
    /\ allRunes (fun v => negb (Ascii.eqb v "_")) group = true
    /\ allRunes (fun v => negb (isUpper v)) (endpointName s) = true
    /\ String.length (endpointName s) <= 2 * String.length s
    /\ allRunes isASCII (getEndpointKey s groupName) = true
    /\ getEndpointKey "HandleGetAnimeCollection" "ANIME_COLLECTION"
       = "ANIME-COLLECTION-get-anime-collection"
    /\ getEndpointKey "HandleMALAuth" "MAL" = "MAL-mal-auth"
    /\ getEndpointKey "HandleTVDBToTVDB" "TVDB" = "TVDB-tvdb-to-t-v-d-b".
Proof.
  intros s groupName Hs Hg group.
  destruct (ReplaceAllRune_facts groupName "_" "-") as (Hlen & Hno & Hascii).
  split; [reflexivity|]. split; [exact Hlen|]. split; [now apply Hno|].
  destruct (TrimPrefix_facts s "Handle") as [Htrim Htrim'].
  set (t := TrimPrefix s "Handle") in *.
  assert (Hlower : allRunes (fun v => negb (isUpper v)) (endpointName s) = true).
  { unfold endpointName. fold t.
    pose proof (ToLower_lower (dashBeforeUpper true t)) as H0.
    set (r0 := ToLower (dashBeforeUpper true t)) in *.
    assert (H1 : allRunes (fun v => negb (isUpper v))
                   (if Contains r0 "t-v-d-b" then ReplaceFirst r0 "t-v-d-b" "tvdb" else r0)
                 = true).
    { destruct (Contains r0 "t-v-d-b"); [now apply allRunes_ReplaceFirst | exact H0]. }
    set (r1 := if Contains r0 "t-v-d-b" then ReplaceFirst r0 "t-v-d-b" "tvdb" else r0) in *.
    destruct (Contains r1 "m-a-l"); [now apply allRunes_ReplaceFirst | exact H1]. }
  assert (Hshort : String.length (endpointName s) <= 2 * String.length s).
  { unfold endpointName. fold t.
    pose proof (ToLower_length (dashBeforeUpper true t)) as H0.
    destruct (dashBeforeUpper_length t true) as [Hd _].
    set (r0 := ToLower (dashBeforeUpper true t)) in *.
    assert (H1 : String.length
                   (if Contains r0 "t-v-d-b" then ReplaceFirst r0 "t-v-d-b" "tvdb" else r0)
                 <= String.length r0).
    { destruct (Contains r0 "t-v-d-b"); [|lia].
      apply ReplaceFirst_length. cbn. lia. }
    set (r1 := if Contains r0 "t-v-d-b" then ReplaceFirst r0 "t-v-d-b" "tvdb" else r0) in *.
    assert (H2 : String.length
                   (if Contains r1 "m-a-l" then ReplaceFirst r1 "m-a-l" "mal" else r1)
                 <= String.length r1).
    { destruct (Contains r1 "m-a-l"); [|lia].
      apply ReplaceFirst_length. cbn. lia. }
    lia. }
  assert (Hkey : allRunes isASCII (endpointName s) = true).
  { unfold endpointName. fold t.
    pose proof (ToLower_ascii _ (dashBeforeUpper_ascii t true (Htrim' Hs))) as H0.
    set (r0 := ToLower (dashBeforeUpper true t)) in *.
    assert (H1 : allRunes isASCII
                   (if Contains r0 "t-v-d-b" then ReplaceFirst r0 "t-v-d-b" "tvdb" else r0)
                 = true).
    { destruct (Contains r0 "t-v-d-b"); [now apply allRunes_ReplaceFirst | exact H0]. }
    set (r1 := if Contains r0 "t-v-d-b" then ReplaceFirst r0 "t-v-d-b" "tvdb" else r0) in *.
    destruct (Contains r1 "m-a-l"); [now apply allRunes_ReplaceFirst | exact H1]. }
  split; [exact Hlower|]. split; [exact Hshort|].
  split.
  { unfold getEndpointKey. rewrite !allRunes_append. fold group.
    unfold group. rewrite (Hascii eq_refl Hg), Hkey. reflexivity. }
  repeat split.
Qed.

(** X18 on the handler of the TVDB episodes. *)
Lemma getEndpointKey_shape_tvdb :
  getEndpointKey "HandleGetTVDBEpisodes" "TVDB_API" = "TVDB-API-get-tvdb-episodes"
  /\ allRunes (fun v => negb (isUpper v)) (endpointName "HandleGetTVDBEpisodes") = true
  /\ String.length (endpointName "HandleGetTVDBEpisodes")
     <= 2 * String.length "HandleGetTVDBEpisodes".
Proof.
  destruct (getEndpointKey_shape "HandleGetTVDBEpisodes" "TVDB_API" eq_refl eq_refl)
    as (_ & _ & _ & H1 & H2 & _).
  split; [reflexivity|]. split; [exact H1 | exact H2].
Defined.

End EndpointKeys.
